(** * Alerting and credential-lifecycle subsystem of the audio encoder

    A shallow embedding of the Go package [notify]:

    - the Graph mail configuration helpers and the retrying mail client,
    - the silence notifier (per-channel sent flags, cached mail client),
    - the client-secret expiry checker, in its two revisions.

    Go strings are byte strings and are modelled as [string]; [int64]
    durations and instants are [Z] with the saturation of [Time.Sub] written
    out; a [float64] is a binary64 number with the operations of the
    standard library's [SpecFloat]; a [nil] error is [None]. *)

From Stdlib Require Import ZArith List String Ascii Bool Lia DecimalString.
From Stdlib Require SpecFloat.
From stdpp Require Import base list.
Import ListNotations.

#[local] Open Scope string_scope.
#[local] Open Scope list_scope.
#[local] Open Scope Z_scope.

(** String concatenation, as Go writes it with [+]. *)
#[local] Infix "+++" := String.append (at level 60, right associativity).

(** ** Go runtime helpers used by the package *)

Module Strings.

(** Encodings (UTF-8 bytes) of the runes for which [unicode.IsSpace] holds. *)
Definition spaceRunes : list (list nat) :=
  [ [9]; [10]; [11]; [12]; [13]; [32];
    [194; 133]; [194; 160];
    [225; 154; 128];
    [226; 128; 128]; [226; 128; 129]; [226; 128; 130]; [226; 128; 131];
    [226; 128; 132]; [226; 128; 133]; [226; 128; 134]; [226; 128; 135];
    [226; 128; 136]; [226; 128; 137]; [226; 128; 138];
    [226; 128; 168]; [226; 128; 169]; [226; 128; 175];
    [226; 129; 159];
    [227; 128; 128] ]%nat.

Definition bytesEqb (a b : list nat) : bool :=
  if decide (a = b) then true else false.

Definition isSpaceRune (bs : list nat) : bool :=
  existsb (bytesEqb bs) spaceRunes.

(** Width in bytes of the white-space rune that starts [s]; [0] if [s] does
    not start with one. *)
Definition spaceWidth (s : list nat) : nat :=
  if isSpaceRune (firstn 1 s) then 1
  else if isSpaceRune (firstn 2 s) then 2
  else if isSpaceRune (firstn 3 s) then 3
  else 0.

(** Width of the white-space rune that ends [s] (the rune
    [DecodeLastRuneInString] finds). *)
Definition spaceWidthEnd (s : list nat) : nat :=
  let r := rev s in
  if isSpaceRune (rev (firstn 1 r)) then 1
  else if isSpaceRune (rev (firstn 2 r)) then 2
  else if isSpaceRune (rev (firstn 3 r)) then 3
  else 0.

Fixpoint trimLeft (fuel : nat) (s : list nat) : list nat :=
  match fuel with
  | O => s
  | S fuel' =>
      match spaceWidth s with
      | O => s
      | w => trimLeft fuel' (skipn w s)
      end
  end.

Fixpoint trimRight (fuel : nat) (s : list nat) : list nat :=
  match fuel with
  | O => s
  | S fuel' =>
      match spaceWidthEnd s with
      | O => s
      | w => trimRight fuel' (firstn (length s - w) s)
      end
  end.

Definition bytes (s : string) : list nat :=
  map nat_of_ascii (list_ascii_of_string s).

Definition ofBytes (b : list nat) : string :=
  string_of_list_ascii (map ascii_of_nat b).

(** [strings.TrimSpace]: all leading and trailing white space removed. *)
Definition TrimSpace (s : string) : string :=
  let b := bytes s in
  let l := trimLeft (length b) b in
  ofBytes (trimRight (length l) l).

(** [strings.Split(s, sep)] for a one-byte separator: the substrings between
    the separators, [Count(s, sep) + 1] of them. *)
Fixpoint Split (sep : ascii) (s : string) : list string :=
  match s with
  | EmptyString => [EmptyString]
  | String c s' =>
      if Ascii.eqb c sep then EmptyString :: Split sep s'
      else match Split sep s' with
           | h :: t => String c h :: t
           | [] => [String c EmptyString]
           end
  end.

Definition isEmpty (s : string) : bool :=
  match s with EmptyString => true | _ => false end.

End Strings.

(** ** Errors

    [fmt.Errorf] builds either a plain error or, with the verb [%w], an error
    that wraps its operand; [errorText] is the message the method [Error()]
    returns and [Unwrap] the wrapped error, as [errors.Unwrap] returns it. *)

Inductive error : Type :=
| Errorf (msg : string)
| Wrapf (msg : string) (err : error).

Fixpoint errorText (e : error) : string :=
  match e with
  | Errorf msg => msg
  | Wrapf msg err => msg +++ ": " +++ errorText err
  end.

Definition Unwrap (e : error) : option error :=
  match e with
  | Errorf _ => None
  | Wrapf _ err => Some err
  end.

(** [fmt.Errorf("msg: %w", err)] where [err] may be the nil interface. *)
Definition ErrorfW (msg : string) (err : option error) : error :=
  match err with
  | Some e => Wrapf msg e
  | None => Errorf (msg +++ ": %!w(<nil>)")
  end.

(** The verb [%d] on a Go [int]. *)
Definition itoa (n : Z) : string :=
  NilZero.string_of_int (Z.to_int n).

(** Two's complement wrap-around of an [int64] operation. *)
Definition int64 (x : Z) : Z := (x + 2 ^ 63) mod 2 ^ 64 - 2 ^ 63.

(** [time.Duration] is a count of nanoseconds. *)
Definition Nanosecond : Z := 1.
Definition Second : Z := 1000000000 * Nanosecond.
Definition Hour : Z := 3600 * Second.

(** [float64]: IEEE 754 binary64, every operation rounded to the nearest
    value, ties to even. *)
Module Float64.

Import SpecFloat.

Definition float64 : Type := spec_float.

Definition prec : Z := 53.
Definition emax : Z := 1024.

(** The conversion [float64(n)] of an integer, and an integer constant in
    a [float64] expression. *)
Definition ofInt (n : Z) : float64 := binary_normalize prec emax n 0 false.

Definition add : float64 -> float64 -> float64 := SFadd prec emax.
Definition div : float64 -> float64 -> float64 := SFdiv prec emax.

(** The conversion [int(x)]: the fraction is discarded (towards zero). For
    a value that is not finite the language leaves the result to the
    implementation; amd64 gives the least [int64]. *)
Definition toInt (x : float64) : Z :=
  match x with
  | S754_zero _ => 0
  | S754_finite s m e =>
      let a := match e with
               | Zneg p => Z.shiftr (Zpos m) (Zpos p)
               | _ => Z.shiftl (Zpos m) e
               end in
      if s then - a else a
  | S754_infinity _ | S754_nan => - 2 ^ 63
  end.

(** The verb [%.1f]: the decimal with one digit after the point that is
    nearest to the exact value, ties to even. *)
Definition format1 (x : float64) : string :=
  match x with
  | S754_nan => "NaN"
  | S754_infinity s => if s then "-Inf" else "+Inf"
  | S754_zero s => (if s then "-" else "") +++ "0.0"
  | S754_finite s m e =>
      let tenths :=
        match e with
        | Zneg p =>
            let num := Zpos m * 10 in
            let den := 2 ^ Zpos p in
            let q := num / den in
            match 2 * (num mod den) ?= den with
            | Lt => q
            | Gt => q + 1
            | Eq => if Z.even q then q else q + 1
            end
        | _ => Zpos m * 10 * 2 ^ e
        end in
      (if s then "-" else "") +++ itoa (tenths / 10) +++ "."
      +++ itoa (tenths mod 10)
  end.

(** A value that is a zero or has the sign [s] ([true]: negative), and is
    not a NaN. *)
Definition signed (s : bool) (x : float64) : Prop :=
  match x with
  | S754_zero _ => True
  | S754_finite s' _ _ => s' = s
  | S754_infinity s' => s' = s
  | S754_nan => False
  end.

End Float64.

(** ** Graph mail configuration and client (graph.go) *)

Module Graph.

Definition graphBaseURL : string := "https://graph.microsoft.com/v1.0".
Definition graphScope : string := "https://graph.microsoft.com/.default".

Definition maxRetries : nat := 3.
Definition initialRetryWait : Z := 1 * Second.
Definition maxRetryWait : Z := 30 * Second.

(** [types.GraphConfig]: the fields the package reads. *)
Record GraphConfig : Type := {
  TenantID : string;
  ClientID : string;
  ClientSecret : string;
  FromAddress : string;
  Recipients : string
}.

(** [clientcredentials.Config] as the package fills it in. *)
Record Credentials : Type := {
  ccClientID : string;
  ccClientSecret : string;
  ccTokenURL : string;
  ccScopes : list string
}.

Definition credentialsOf (cfg : GraphConfig) : Credentials :=
  {| ccClientID := ClientID cfg;
     ccClientSecret := ClientSecret cfg;
     ccTokenURL := "https://login.microsoftonline.com/" +++ TenantID cfg
                   +++ "/oauth2/v2.0/token";
     ccScopes := [graphScope] |}.

Record GraphClient : Type := {
  fromAddress : string;
  httpClient : Credentials
}.

Definition NewGraphClient (cfg : GraphConfig) : GraphClient + error :=
  if Strings.isEmpty (TenantID cfg) || Strings.isEmpty (ClientID cfg)
     || Strings.isEmpty (ClientSecret cfg)
  then inr (Errorf "graph API requires tenant_id, client_id, and client_secret")
  else if Strings.isEmpty (FromAddress cfg)
  then inr (Errorf "graph API requires from_address (shared mailbox)")
  else inl {| fromAddress := FromAddress cfg; httpClient := credentialsOf cfg |}.

Definition ValidateConfig (cfg : GraphConfig) : option error :=
  if Strings.isEmpty (TenantID cfg) then Some (Errorf "tenant ID is required")
  else if Strings.isEmpty (ClientID cfg) then Some (Errorf "client ID is required")
  else if Strings.isEmpty (ClientSecret cfg)
  then Some (Errorf "client secret is required")
  else if Strings.isEmpty (FromAddress cfg)
  then Some (Errorf "from address (shared mailbox) is required")
  else if Strings.isEmpty (Recipients cfg)
  then Some (Errorf "recipients are required")
  else None.

Definition IsConfigured (cfg : GraphConfig) : bool :=
  negb (Strings.isEmpty (TenantID cfg)) && negb (Strings.isEmpty (ClientID cfg))
  && negb (Strings.isEmpty (ClientSecret cfg))
  && negb (Strings.isEmpty (FromAddress cfg))
  && negb (Strings.isEmpty (Recipients cfg)).

(** The loop of [ParseRecipients] over the pieces of the split. *)
Fixpoint appendNonBlank (pieces : list string) (result : list string) : list string :=
  match pieces with
  | [] => result
  | r :: rest =>
      let r := Strings.TrimSpace r in
      if Strings.isEmpty r then appendNonBlank rest result
      else appendNonBlank rest (result ++ [r])
  end.

Definition ParseRecipients (recipients : string) : list string :=
  appendNonBlank (Strings.Split "," recipients) [].

Definition GetTokenSource (cfg : GraphConfig) : Credentials + error :=
  if Strings.isEmpty (TenantID cfg) || Strings.isEmpty (ClientID cfg)
     || Strings.isEmpty (ClientSecret cfg)
  then inr (Errorf "graph API requires tenant_id, client_id, and client_secret")
  else inl (credentialsOf cfg).

(** *** The sendMail request body *)

Record graphEmailAddress : Type := { Address : string }.
Record graphRecipient : Type := { EmailAddress : graphEmailAddress }.
Record graphBody : Type := { ContentType : string; Content : string }.
Record graphMessage : Type := {
  Subject : string;
  Body : graphBody;
  ToRecipients : list graphRecipient
}.
Record graphMailRequest : Type := { Message : graphMessage }.

(** What [httpClient.Do] hands back: a transport error or a response, of
    which the loop reads the status code and the body. *)
Inductive Reply : Type :=
| TransportError (err : error)
| Response (StatusCode : Z) (respBody : string).

(** What a run of the loop does that can be seen from outside: it sleeps and
    it posts the request. *)
Inductive Step : Type :=
| Sleep (d : Z)
| Post (url : string) (payload : graphMailRequest).

Definition isPost (s : Step) : bool :=
  match s with Post _ _ => true | Sleep _ => false end.

Definition sleepOf (s : Step) : option Z :=
  match s with Sleep d => Some d | Post _ _ => None end.

Definition attempts (t : list Step) : nat := length (List.filter isPost t).
Definition sleeps (t : list Step) : list Z := omap sleepOf t.

(** The head of the loop body, [if attempt > 0 { ... }]: the sleep, and the
    wait the iteration leaves for the next one. *)
Definition sleepBefore (attempt : nat) (retryWait : Z) : list Step :=
  if (0 <? attempt)%nat then [Sleep retryWait] else [].

Definition waitAfter (attempt : nat) (retryWait : Z) : Z :=
  if (0 <? attempt)%nat
  then (let doubled := int64 (retryWait * 2) in
        if maxRetryWait <? doubled then maxRetryWait else doubled)
  else retryWait.

Definition sendMailURL (from : string) : string :=
  graphBaseURL +++ "/users/" +++ from +++ "/sendMail".

(** The replies after which the loop goes round again, and the error it
    keeps in [lastErr] when it does. *)
Definition transient (r : Reply) : bool :=
  match r with
  | TransportError _ => true
  | Response code _ => (code =? 429) || (code =? 503)
  end.

Definition retryError (r : Reply) : error :=
  match r with
  | TransportError err => Wrapf "send request" err
  | Response code body =>
      Errorf ("graph API returned " +++ itoa code +++ ": " +++ body)
  end.

(** The classification of a reply as the specification words it: success
    on 200, 202 and 204, a retry on 429, 503 and transport errors, a
    failure that carries the status code and the body otherwise. *)
Inductive Verdict : Type :=
| Success
| Retry (lastErr : error)
| Failure (err : error).

Definition classify (r : Reply) : Verdict :=
  match r with
  | TransportError err => Retry (Wrapf "send request" err)
  | Response code body =>
      if (code =? 200) || (code =? 202) || (code =? 204) then Success
      else if (code =? 429) || (code =? 503)
      then Retry (Errorf ("graph API returned " +++ itoa code +++ ": " +++ body))
      else Failure (Errorf ("graph API error " +++ itoa code +++ ": " +++ body))
  end.

(** The wait before retry number [i + 1]: one second doubled [i] times, 30
    seconds at most. *)
Definition backoff (i : nat) : Z :=
  Z.min (2 ^ Z.of_nat i * initialRetryWait) maxRetryWait.

Section Transport.

(** [http.NewRequest] fails only on a URL it cannot parse; which URLs
    those are is the standard library's business. *)
Variable NewRequest : string -> option error.

(** The endpoint: the reply to the request of each attempt. *)
Variable transport : nat -> Reply.

(** The [for] loop of [sendWithRetry] with [n] iterations to go:
    [attempt <= maxRetries] holds [n] more times. *)
Fixpoint retryLoop (n : nat) (url : string) (payload : graphMailRequest)
    (attempt : nat) (retryWait : Z) (lastErr : option error)
    : option error * list Step :=
  match n with
  | O => (Some (ErrorfW "max retries exceeded" lastErr), [])
  | S n' =>
      let slept := sleepBefore attempt retryWait in
      let retryWait := waitAfter attempt retryWait in
      match NewRequest url with
      | Some err => (Some (Wrapf "create request" err), slept)
      | None =>
          let continue (e : error) :=
            let (res, rest) :=
              retryLoop n' url payload (S attempt) retryWait (Some e) in
            (res, slept ++ Post url payload :: rest) in
          match transport attempt with
          | TransportError err => continue (Wrapf "send request" err)
          | Response code body =>
              if (code =? 202) || (code =? 200) || (code =? 204)
              then (None, slept ++ [Post url payload])
              else if (code =? 429) || (code =? 503)
              then continue (Errorf ("graph API returned " +++ itoa code
                                     +++ ": " +++ body))
              else (Some (Errorf ("graph API error " +++ itoa code
                                  +++ ": " +++ body)),
                    slept ++ [Post url payload])
          end
      end
  end.

(** [json.Marshal] cannot fail on a [graphMailRequest] (strings only), so
    the function starts at the URL. *)
Definition sendWithRetry (c : GraphClient) (payload : graphMailRequest)
    : option error * list Step :=
  retryLoop (S maxRetries) (sendMailURL (fromAddress c)) payload 0
            initialRetryWait None.

(** The first loop of [SendMail]: the trimmed, non-blank addresses. *)
Fixpoint toRecipientsOf (recipients : list string) : list graphRecipient :=
  match recipients with
  | [] => []
  | addr :: rest =>
      let addr := Strings.TrimSpace addr in
      if Strings.isEmpty addr then toRecipientsOf rest
      else {| EmailAddress := {| Address := addr |} |} :: toRecipientsOf rest
  end.

Definition SendMail (c : GraphClient) (recipients : list string)
    (subject body : string) : option error * list Step :=
  match recipients with
  | [] => (Some (Errorf "no recipients specified"), [])
  | _ =>
      match toRecipientsOf recipients with
      | [] => (Some (Errorf "no valid recipients after filtering"), [])
      | toRecipients =>
          sendWithRetry c
            {| Message := {| Subject := subject;
                             Body := {| ContentType := "Text"; Content := body |};
                             ToRecipients := toRecipients |} |}
      end
  end.

End Transport.

End Graph.

(** ** The silence notifier (silence_notifier.go) *)

Module Notifier.

Import Graph.

(** [audio.SilenceEvent], as [HandleEvent] reads it. *)
Record SilenceEvent : Type := {
  JustEntered : bool;
  DurationMs : Z;
  JustRecovered : bool;
  TotalDurationMs : Z
}.

(** The three notification channels; a value of this type stands for the
    pointer [&n.webhookSent], [&n.emailSent] or [&n.logSent] that
    [handleSilenceStart] passes to [trySend]. *)
Inductive Channel : Type := Webhook | Email | Log.

#[global] Instance Channel_eq_dec : EqDecision Channel.
Proof. solve_decision. Defined.

Section WithConfig.

(** [config.Snapshot] and its three predicates belong to the package
    [config]; the notifier only passes snapshots on and asks these three
    questions. *)
Variable Snapshot : Type.
Variable HasWebhook HasGraph HasLogPath : Snapshot -> bool.

(** The state [mu] protects. *)
Record SilenceNotifier : Type := {
  webhookSent : bool;
  emailSent : bool;
  logSent : bool;
  graphClient : option GraphClient
}.

(** [NewSilenceNotifier]: zero values everywhere. *)
Definition NewSilenceNotifier : SilenceNotifier :=
  {| webhookSent := false; emailSent := false; logSent := false;
     graphClient := None |}.

(** The goroutines the notifier starts with [go]. *)
Inductive Task : Type :=
| sendSilenceWebhook (cfg : Snapshot) (durationMs : Z)
| sendSilenceEmail (cfg : Snapshot) (durationMs : Z)
| logSilenceStart (cfg : Snapshot)
| sendRecoveryWebhook (cfg : Snapshot) (totalDurationMs : Z)
| sendRecoveryEmail (cfg : Snapshot) (totalDurationMs : Z)
| logSilenceEnd (cfg : Snapshot) (totalDurationMs : Z).

Definition isStart (ch : Channel) (t : Task) : bool :=
  match ch, t with
  | Webhook, sendSilenceWebhook _ _ => true
  | Email, sendSilenceEmail _ _ => true
  | Log, logSilenceStart _ => true
  | _, _ => false
  end.

Definition isRecovery (ch : Channel) (t : Task) : bool :=
  match ch, t with
  | Webhook, sendRecoveryWebhook _ _ => true
  | Email, sendRecoveryEmail _ _ => true
  | Log, logSilenceEnd _ _ => true
  | _, _ => false
  end.

Definition starts (ch : Channel) (ts : list Task) : nat :=
  length (List.filter (isStart ch) ts).

Definition recoveries (ch : Channel) (ts : list Task) : nat :=
  length (List.filter (isRecovery ch) ts).

(** Reading and writing through a flag pointer. *)
Definition sent (ch : Channel) (n : SilenceNotifier) : bool :=
  match ch with
  | Webhook => webhookSent n
  | Email => emailSent n
  | Log => logSent n
  end.

Definition setSent (ch : Channel) (b : bool) (n : SilenceNotifier)
    : SilenceNotifier :=
  match ch with
  | Webhook => {| webhookSent := b; emailSent := emailSent n;
                  logSent := logSent n; graphClient := graphClient n |}
  | Email => {| webhookSent := webhookSent n; emailSent := b;
                logSent := logSent n; graphClient := graphClient n |}
  | Log => {| webhookSent := webhookSent n; emailSent := emailSent n;
              logSent := b; graphClient := graphClient n |}
  end.

(** A method returns the new state and the goroutines it started, in
    order. *)
Definition Result : Type := SilenceNotifier * list Task.

Definition InvalidateGraphClient (n : SilenceNotifier) : SilenceNotifier :=
  {| webhookSent := webhookSent n; emailSent := emailSent n;
     logSent := logSent n; graphClient := None |}.

Definition getOrCreateGraphClient (cfg : GraphConfig) (n : SilenceNotifier)
    : SilenceNotifier * (GraphClient + error) :=
  match graphClient n with
  | Some client => (n, inl client)
  | None =>
      match NewGraphClient cfg with
      | inr err => (n, inr err)
      | inl client =>
          ({| webhookSent := webhookSent n; emailSent := emailSent n;
              logSent := logSent n; graphClient := Some client |},
           inl client)
      end
  end.

(** [trySend]: the locked section decides and marks, the [go] statement
    follows the unlock. *)
Definition trySend (ch : Channel) (condition : bool) (sender : Task)
    (n : SilenceNotifier) : Result :=
  let shouldSend := negb (sent ch n) && condition in
  let n := if shouldSend then setSent ch true n else n in
  (n, if shouldSend then [sender] else []).

(** Sequencing of two steps, the started goroutines in order. *)
Definition andThen (r : Result) (f : SilenceNotifier -> Result) : Result :=
  let (n, ts) := r in
  let (n', ts') := f n in
  (n', ts ++ ts').

Definition handleSilenceStart (cfg : Snapshot) (durationMs : Z)
    (n : SilenceNotifier) : Result :=
  andThen
    (andThen
       (trySend Webhook (HasWebhook cfg) (sendSilenceWebhook cfg durationMs) n)
       (trySend Email (HasGraph cfg) (sendSilenceEmail cfg durationMs)))
    (trySend Log (HasLogPath cfg) (logSilenceStart cfg)).

Definition handleSilenceEnd (cfg : Snapshot) (totalDurationMs : Z)
    (n : SilenceNotifier) : Result :=
  let shouldSendWebhookRecovery := webhookSent n in
  let shouldSendEmailRecovery := emailSent n in
  let shouldSendLogRecovery := logSent n in
  ({| webhookSent := false; emailSent := false; logSent := false;
      graphClient := graphClient n |},
   (if shouldSendWebhookRecovery
    then [sendRecoveryWebhook cfg totalDurationMs] else [])
   ++ (if shouldSendEmailRecovery
       then [sendRecoveryEmail cfg totalDurationMs] else [])
   ++ (if shouldSendLogRecovery
       then [logSilenceEnd cfg totalDurationMs] else [])).

(** An event as it reaches the notifier, with what [n.cfg.Snapshot()]
    returns in [handleSilenceStart] and in [handleSilenceEnd] while the
    event is handled (the live configuration may change in between). *)
Record Delivery : Type := {
  event : SilenceEvent;
  startCfg : Snapshot;
  endCfg : Snapshot
}.

Definition HandleEvent (d : Delivery) (n : SilenceNotifier) : Result :=
  let r :=
    if JustEntered (event d)
    then handleSilenceStart (startCfg d) (DurationMs (event d)) n
    else (n, []) in
  if JustRecovered (event d)
  then andThen r (handleSilenceEnd (endCfg d) (TotalDurationMs (event d)))
  else r.

Definition Reset (n : SilenceNotifier) : SilenceNotifier :=
  {| webhookSent := false; emailSent := false; logSent := false;
     graphClient := graphClient n |}.

(** The events of a list handled one after the other. *)
Fixpoint HandleEvents (ds : list Delivery) (n : SilenceNotifier) : Result :=
  match ds with
  | [] => (n, [])
  | d :: rest => andThen (HandleEvent d n) (HandleEvents rest)
  end.

(** The condition [handleSilenceStart] passes to [trySend] for a
    channel. *)
Definition enabled (ch : Channel) (cfg : Snapshot) : bool :=
  match ch with
  | Webhook => HasWebhook cfg
  | Email => HasGraph cfg
  | Log => HasLogPath cfg
  end.

(** Calls of [HandleEvent] that run at the same time interleave their locked
    sections; for events that report the silence these are the three
    [trySend] sections of each call. A run under contention is a list of
    them, each with the channel and the event of its call. *)
Definition startTask (ch : Channel) (d : Delivery) : Task :=
  match ch with
  | Webhook => sendSilenceWebhook (startCfg d) (DurationMs (event d))
  | Email => sendSilenceEmail (startCfg d) (DurationMs (event d))
  | Log => logSilenceStart (startCfg d)
  end.

Definition trySendFor (s : Channel * Delivery) (n : SilenceNotifier) : Result :=
  trySend (fst s) (enabled (fst s) (startCfg (snd s))) (startTask (fst s) (snd s)) n.

Fixpoint runSections (ss : list (Channel * Delivery)) (n : SilenceNotifier)
    : Result :=
  match ss with
  | [] => (n, [])
  | s :: rest => andThen (trySendFor s n) (runSections rest)
  end.

(** An event inside an episode that has not ended: it does not report a
    recovery. *)
Definition unresolved (d : Delivery) : Prop :=
  JustRecovered (event d) = false.

(** An event that reports the silence, and no recovery. *)
Definition entering (d : Delivery) : Prop :=
  JustEntered (event d) = true /\ JustRecovered (event d) = false.

(** Whether some event of the list asks channel [ch] to send: it reports
    the silence and the channel is enabled in the snapshot taken for
    it. *)
Definition triggered (ch : Channel) (ds : list Delivery) : bool :=
  existsb (fun d => JustEntered (event d) && enabled ch (startCfg d)) ds.

End WithConfig.

End Notifier.

(** ** Secret expiry: the computation of [fetchExpiryInfo]

    The two revisions of the expiry checker share it word for word. *)

Module Expiry.

Import Graph.

Definition expiryWarningDays : Z := 30.
Definition expiryCheckInterval : Z := 24 * Hour.

(** [time.Time]: the instant, in nanoseconds since January 1 of year 1,
    00:00:00 UTC (the zero value of the type), and the zone offset a parsed
    time carries. *)
Record Time : Type := { instant : Z; zone : Z }.

Definition zeroTime : Time := {| instant := 0; zone := 0 |}.
Definition IsZero (t : Time) : bool := instant t =? 0.
Definition Before (t u : Time) : bool := instant t <? instant u.

Definition minDuration : Z := - 2 ^ 63.
Definition maxDuration : Z := 2 ^ 63 - 1.

(** [t.Sub(u)]: the difference, or the nearest duration when it does not
    fit. *)
Definition Sub (t u : Time) : Z :=
  let d := instant t - instant u in
  if d <? minDuration then minDuration
  else if maxDuration <? d then maxDuration
  else d.

(** [time.Until(t)] when the clock reads [now]. *)
Definition Until (now t : Time) : Z := Sub t now.

(** [d.Hours()] of the package [time]:
    [hour := d / Hour; nsec := d % Hour;
     return float64(hour) + float64(nsec)/(60*60*1e9)]. *)
Definition Hours (d : Z) : Float64.float64 :=
  let hour := Z.quot d Hour in
  let nsec := Z.rem d Hour in
  Float64.add (Float64.ofInt hour)
    (Float64.div (Float64.ofInt nsec) (Float64.ofInt (60 * 60 * 1000000000))).

Definition Day : Z := 24 * Hour.

(** The comparison the loop of [fetchExpiryInfo] makes for one parsed
    end-date: the new value of [earliest]. *)
Definition pick (earliest expiry : Time) : Time :=
  if IsZero earliest || Before expiry earliest then expiry else earliest.

(** [types.SecretExpiryInfo]. *)
Record SecretExpiryInfo : Type := {
  ExpiresAt : string;
  ExpiresSoon : bool;
  DaysLeft : Z;
  Error : string
}.

(** The zero value [types.SecretExpiryInfo{}]. *)
Definition noInfo : SecretExpiryInfo :=
  {| ExpiresAt := ""; ExpiresSoon := false; DaysLeft := 0; Error := "" |}.

(** [types.SecretExpiryInfo{Error: msg}]. *)
Definition errorInfo (msg : string) : SecretExpiryInfo :=
  {| ExpiresAt := ""; ExpiresSoon := false; DaysLeft := 0; Error := msg |}.

Record passwordCredential : Type := { EndDateTime : string }.
Record applicationResponse : Type := {
  PasswordCredentials : list passwordCredential
}.

(** What the network gives [fetchExpiryInfo]: no token, no request, no
    response, or a response. *)
Inductive ApiOutcome : Type :=
| TokenFailed (err : error)
| RequestNotCreated (err : error)
| RequestFailed (err : error)
| ApiResponse (StatusCode : Z) (body : string).

Section StandardLibrary.

(** [time.Parse(time.RFC3339, s)], [t.Format(time.RFC3339)] and
    [json.Unmarshal] into an [applicationResponse]. *)
Variable Parse : string -> option Time.
Variable Format : Time -> string.
Variable Unmarshal : string -> applicationResponse + error.

(** The loop over the credentials, [earliest] being the local variable. *)
Fixpoint scanCredentials (creds : list passwordCredential) (earliest : Time)
    : Time :=
  match creds with
  | [] => earliest
  | cred :: rest =>
      if Strings.isEmpty (EndDateTime cred) then scanCredentials rest earliest
      else match Parse (EndDateTime cred) with
           | None => scanCredentials rest earliest
           | Some expiry => scanCredentials rest (pick earliest expiry)
           end
  end.

(** [daysLeft], from [time.Until(earliest)]. *)
Definition daysLeftOf (until : Z) : Z :=
  let daysLeft := Float64.toInt (Float64.div (Hours until) (Float64.ofInt 24)) in
  if daysLeft <? 0 then 0 else daysLeft.

(** The value [fetchExpiryInfo] returns for the expiry [earliest]. *)
Definition expiryInfo (now earliest : Time) : SecretExpiryInfo :=
  let daysLeft := daysLeftOf (Until now earliest) in
  {| ExpiresAt := Format earliest;
     ExpiresSoon := daysLeft <=? expiryWarningDays;
     DaysLeft := daysLeft;
     Error := "" |}.

(** The end of [fetchExpiryInfo], once the credentials are decoded. *)
Definition expiryOf (now : Time) (appResp : applicationResponse)
    : SecretExpiryInfo :=
  let earliest := scanCredentials (PasswordCredentials appResp) zeroTime in
  if IsZero earliest then errorInfo "no password credentials found"
  else expiryInfo now earliest.

(** The end-dates the loop gets to compare: those of the records whose
    field is not empty and parses. *)
Definition parsedDates (creds : list passwordCredential) : list Time :=
  omap (fun cred =>
          if Strings.isEmpty (EndDateTime cred) then None
          else Parse (EndDateTime cred)) creds.

(** [fetchExpiryInfo] after the token source is in hand. *)
Definition queryExpiry (now : Time) (o : ApiOutcome) : SecretExpiryInfo + error :=
  match o with
  | TokenFailed err => inr (Wrapf "acquire token" err)
  | RequestNotCreated err => inr (Wrapf "create request" err)
  | RequestFailed err => inr (Wrapf "request failed" err)
  | ApiResponse code body =>
      if negb (code =? 200)
      then inr (Errorf ("API returned " +++ itoa code +++ ": " +++ body))
      else match Unmarshal body with
           | inr err => inr (Wrapf "parse response" err)
           | inl appResp => inl (expiryOf now appResp)
           end
  end.

(** [fetchExpiryInfo]: the token source is made on first use and kept. *)
Definition fetchExpiryInfo (cfg : GraphConfig) (now : Time) (o : ApiOutcome)
    (tokenSource : option Credentials)
    : option Credentials * (SecretExpiryInfo + error) :=
  match tokenSource with
  | Some ts => (Some ts, queryExpiry now o)
  | None =>
      match GetTokenSource cfg with
      | inr err => (None, inr (Wrapf "create token source" err))
      | inl ts => (Some ts, queryExpiry now o)
      end
  end.

(** What [check] stores: the guard on the configuration, then the result
    of [fetchExpiryInfo], an error turned into its message. *)
Definition notConfigured (cfg : option GraphConfig) : bool :=
  match cfg with
  | None => true
  | Some cfg =>
      Strings.isEmpty (TenantID cfg) || Strings.isEmpty (ClientID cfg)
      || Strings.isEmpty (ClientSecret cfg)
  end.

Definition toCache (r : SecretExpiryInfo + error) : SecretExpiryInfo :=
  match r with
  | inr err => errorInfo (errorText err)
  | inl info => info
  end.

Definition checkFetch (cfg : option GraphConfig) (now : Time) (o : ApiOutcome)
    (tokenSource : option Credentials)
    : option Credentials * SecretExpiryInfo :=
  match cfg with
  | None => (tokenSource, errorInfo "Graph API not configured")
  | Some g =>
      if notConfigured cfg
      then (tokenSource, errorInfo "Graph API not configured")
      else let (ts, r) := fetchExpiryInfo g now o tokenSource in
           (ts, toCache r)
  end.

End StandardLibrary.

End Expiry.

(** ** Goroutines and channels

    The mutex makes every locked section one atomic step; what is left of
    the Go runtime is the channels (unbuffered, carrying [struct{}]) and the
    scheduler, which picks the goroutine that moves next. *)

Module Chan.

(** A channel: whether it is closed, how many receivers are parked on it,
    and how many of the parked receivers a sender has served (they are
    runnable again but have not run yet). *)
Record chan : Type := { closed : bool; recvq : nat; handed : nat }.

Definition fresh : chan := {| closed := false; recvq := 0; handed := 0 |}.

(** The channels made so far are a [list chan]; a channel value is an
    index into it, [nil] is [None]. *)

(** [make(chan struct{})]. *)
Definition make (h : list chan) : list chan * nat := (h ++ [fresh], length h).

Definition isClosed (h : list chan) (c : option nat) : bool :=
  match c with
  | None => false
  | Some i => match h !! i with Some ch => closed ch | None => false end
  end.

(** [close(c)]: [None] is the panic on a nil or closed channel. *)
Definition close (h : list chan) (c : option nat) : option (list chan) :=
  match c with
  | None => None
  | Some i =>
      match h !! i with
      | None => None
      | Some ch =>
          if closed ch then None
          else Some (<[i := {| closed := true; recvq := recvq ch;
                               handed := handed ch |}]> h)
      end
  end.

(** A receiver finds nothing to receive and parks. *)
Definition park (h : list chan) (i : nat) : list chan :=
  match h !! i with
  | None => h
  | Some ch => <[i := {| closed := closed ch; recvq := S (recvq ch);
                         handed := handed ch |}]> h
  end.

(** [select { case c <- struct{}{}: default: }]: the send happens only if a
    receiver is parked on [c]; the result says whether it did. (The package
    sends on [doneCh] only, which it never closes, so the panic of a send on
    a closed channel does not arise.) *)
Definition trySend (h : list chan) (c : option nat) : list chan * bool :=
  match c with
  | None => (h, false)
  | Some i =>
      match h !! i with
      | None => (h, false)
      | Some ch =>
          match recvq ch with
          | O => (h, false)
          | S q => (<[i := {| closed := closed ch; recvq := q;
                              handed := S (handed ch) |}]> h, true)
          end
      end
  end.

(** A parked receiver resumes when a sender has served it, or when the
    channel is closed. *)
Definition resume (h : list chan) (i : nat) : option (list chan) :=
  match h !! i with
  | None => None
  | Some ch =>
      match handed ch with
      | S k => Some (<[i := {| closed := closed ch; recvq := recvq ch;
                               handed := k |}]> h)
      | O => if closed ch then Some h else None
      end
  end.

End Chan.

Module Sched.

Section Pool.

(** A goroutine is a program point [PC]; [exec] is its next atomic step on
    the shared state ([None]: it cannot move), which may start goroutines
    and leaves observations in the trace. [tick] is the ticker of a
    goroutine firing. *)
Variables PC Shared Env Obs Method : Type.
Variable exec : PC -> Env -> Shared -> option (PC * Shared * list PC * list Obs).
Variable tick : PC -> option PC.
Variable entry : Method -> PC.

Record World : Type := {
  shared : Shared;
  threads : list PC;
  trace : list (nat * Obs)
}.

(** What the environment decides: a client goroutine calls a method,
    goroutine [tid] takes a step, the ticker of goroutine [tid] fires. *)
Inductive Action : Type :=
| Call (m : Method)
| Run (tid : nat) (env : Env)
| Tick (tid : nat).

Definition step (a : Action) (w : World) : option World :=
  match a with
  | Call m =>
      Some {| shared := shared w; threads := threads w ++ [entry m];
              trace := trace w |}
  | Run tid env =>
      match threads w !! tid with
      | None => None
      | Some pc =>
          match exec pc env (shared w) with
          | None => None
          | Some (pc', sh', started, obs) =>
              Some {| shared := sh';
                      threads := <[tid := pc']> (threads w) ++ started;
                      trace := trace w ++ map (pair tid) obs |}
          end
      end
  | Tick tid =>
      match threads w !! tid with
      | None => None
      | Some pc =>
          match tick pc with
          | None => None
          | Some pc' =>
              Some {| shared := shared w;
                      threads := <[tid := pc']> (threads w);
                      trace := trace w |}
          end
      end
  end.

(** A schedule; [None] when it asks for a step that is not possible. *)
Fixpoint run (acts : list Action) (w : World) : option World :=
  match acts with
  | [] => Some w
  | a :: rest =>
      match step a w with
      | None => None
      | Some w' => run rest w'
      end
  end.

(** One goroutine running alone until it returns or cannot move. *)
Fixpoint runThread (fuel : nat) (pc : PC) (env : Env) (sh : Shared)
    : PC * Shared * list PC * list Obs :=
  match fuel with
  | O => (pc, sh, [], [])
  | S fuel' =>
      match exec pc env sh with
      | None => (pc, sh, [], [])
      | Some (pc', sh', started, obs) =>
          let '(pc'', sh'', started', obs') := runThread fuel' pc' env sh' in
          (pc'', sh'', started ++ started', obs ++ obs')
      end
  end.

End Pool.

Arguments shared {PC Shared Obs} _.
Arguments threads {PC Shared Obs} _.
Arguments trace {PC Shared Obs} _.
Arguments Build_World {PC Shared Obs} _ _ _.
Arguments Call {Env Method} _.
Arguments Run {Env Method} _ _.
Arguments Tick {Env Method} _.

End Sched.

(** ** The expiry checker with the completion signal

    The revision of graph_expiry.go whose [Stop] waits on [doneCh]. *)

Module Checker.

Import Graph Expiry.

(** The fields [mu] protects; [httpClient] never changes and is left out. *)
Record SecretExpiryChecker : Type := {
  cfg : option GraphConfig;
  tokenSource : option Credentials;
  cachedInfo : SecretExpiryInfo;
  lastCheck : Time;
  stopCh : option nat;
  doneCh : option nat;
  running : bool;
  checking : bool
}.

Definition NewSecretExpiryChecker (c : option GraphConfig) : SecretExpiryChecker :=
  {| cfg := c; tokenSource := None; cachedInfo := noInfo;
     lastCheck := zeroTime; stopCh := None; doneCh := None;
     running := false; checking := false |}.

(** The checker and the channels of the program. *)
Record Shared : Type := { obj : SecretExpiryChecker; chans : list Chan.chan }.

Definition initial (c : option GraphConfig) : Shared :=
  {| obj := NewSecretExpiryChecker c; chans := [] |}.

Definition GetInfo (sh : Shared) : SecretExpiryInfo := cachedInfo (obj sh).

(** What the environment supplies to a step: the network's answer, the two
    readings of the clock in [check], and the choice [select] makes when
    both of its cases are ready. *)
Record Env : Type := {
  outcome : ApiOutcome;
  nowFetch : Time;
  nowStore : Time;
  preferTick : bool
}.

(** What a run leaves in the trace. *)
Inductive Obs : Type :=
| Began
| Stored (info : SecretExpiryInfo)
| StopReturned
| StopNoop.

(** Where [check] returns to: its caller returns ([UpdateConfig]), [Start]
    goes on to the [go] statement, the background loop goes round. *)
Inductive Cont : Type := KReturn | KGo | KLoop.

Inductive PC : Type :=
| AtStart
| AtStop
| AtUpdateConfig (newCfg : option GraphConfig)
| AtCheck (k : Cont)
| AtFetch (cfg : option GraphConfig) (done : option nat) (k : Cont)
| AtStore (info : SecretExpiryInfo) (done : option nat) (k : Cont)
| AtDefer (done : option nat) (k : Cont)
| AtSignal (done : option nat) (k : Cont)
| AtGo
| AtSelect
| InSelect (stop : option nat) (ticked : bool)
| AtReceive (done : nat)
| Parked (done : nat)
| Returned
| Panicked (msg : string).

Definition after (k : Cont) : PC :=
  match k with
  | KReturn => Returned
  | KGo => AtGo
  | KLoop => AtSelect
  end.

Inductive Method : Type :=
| Start
| Stop
| UpdateConfig (newCfg : option GraphConfig).

Definition entry (m : Method) : PC :=
  match m with
  | Start => AtStart
  | Stop => AtStop
  | UpdateConfig c => AtUpdateConfig c
  end.

(** The ticker fires while the loop waits in [select] (a check lasts a
    minute at most, the period is 24 hours). *)
Definition tick (pc : PC) : option PC :=
  match pc with
  | InSelect stop _ => Some (InSelect stop true)
  | _ => None
  end.

Section StandardLibrary.

Variable Parse : string -> option Time.
Variable Format : Time -> string.
Variable Unmarshal : string -> applicationResponse + error.

(** *** The locked sections *)

(** [Start], lines 48-57: nothing if running, else fresh channels. *)
Definition startLocked (sh : Shared) : option Shared :=
  let c := obj sh in
  if running c then None
  else
    let (h1, stop) := Chan.make (chans sh) in
    let (h2, done) := Chan.make h1 in
    Some {| obj := {| cfg := cfg c; tokenSource := tokenSource c;
                      cachedInfo := cachedInfo c; lastCheck := lastCheck c;
                      stopCh := Some stop; doneCh := Some done;
                      running := true; checking := checking c |};
            chans := h2 |}.

(** [check], lines 117-121. *)
Definition checkBegin (sh : Shared) : Shared * option GraphConfig * option nat :=
  let c := obj sh in
  ({| obj := {| cfg := cfg c; tokenSource := tokenSource c;
                cachedInfo := cachedInfo c; lastCheck := lastCheck c;
                stopCh := stopCh c; doneCh := doneCh c;
                running := running c; checking := true |};
      chans := chans sh |}, cfg c, doneCh c).

(** [check], line 134, and [fetchExpiryInfo]: the value to store. *)
Definition checkFetched (g : option GraphConfig) (env : Env) (sh : Shared)
    : Shared * SecretExpiryInfo :=
  let c := obj sh in
  let (ts, info) :=
    checkFetch Parse Format Unmarshal g (nowFetch env) (outcome env)
               (tokenSource c) in
  ({| obj := {| cfg := cfg c; tokenSource := ts;
                cachedInfo := cachedInfo c; lastCheck := lastCheck c;
                stopCh := stopCh c; doneCh := doneCh c;
                running := running c; checking := checking c |};
      chans := chans sh |}, info).

(** [check], lines 135-140 and 145-154: the cache and the time stamp. *)
Definition checkStore (info : SecretExpiryInfo) (now : Time) (sh : Shared)
    : Shared :=
  let c := obj sh in
  {| obj := {| cfg := cfg c; tokenSource := tokenSource c;
               cachedInfo := info; lastCheck := now;
               stopCh := stopCh c; doneCh := doneCh c;
               running := running c; checking := checking c |};
     chans := chans sh |}.

(** The deferred function of [check], lines 124-126. *)
Definition checkEnd (sh : Shared) : Shared :=
  let c := obj sh in
  {| obj := {| cfg := cfg c; tokenSource := tokenSource c;
               cachedInfo := cachedInfo c; lastCheck := lastCheck c;
               stopCh := stopCh c; doneCh := doneCh c;
               running := running c; checking := false |};
     chans := chans sh |}.

(** The deferred function of [check], lines 128-131. *)
Definition checkSignal (done : option nat) (sh : Shared) : Shared :=
  {| obj := obj sh; chans := fst (Chan.trySend (chans sh) done) |}.

(** [UpdateConfig], lines 107-110. *)
Definition updateLocked (newCfg : option GraphConfig) (sh : Shared) : Shared :=
  let c := obj sh in
  {| obj := {| cfg := newCfg; tokenSource := None;
               cachedInfo := cachedInfo c; lastCheck := lastCheck c;
               stopCh := stopCh c; doneCh := doneCh c;
               running := running c; checking := checking c |};
     chans := chans sh |}.

(** What [Stop] finds in its locked section, lines 81-90. *)
Inductive Stopping : Type :=
| NotRunning
| ClosePanics
| Stopped (sh : Shared) (wait : option nat).

Definition stopLocked (sh : Shared) : Stopping :=
  let c := obj sh in
  if negb (running c) then NotRunning
  else
    match Chan.close (chans sh) (stopCh c) with
    | None => ClosePanics
    | Some h =>
        Stopped
          {| obj := {| cfg := cfg c; tokenSource := tokenSource c;
                       cachedInfo := cachedInfo c; lastCheck := lastCheck c;
                       stopCh := stopCh c; doneCh := doneCh c;
                       running := false; checking := checking c |};
             chans := h |}
          (if checking c then doneCh c else None)
    end.

(** *** The next step of a goroutine *)

Definition exec (pc : PC) (env : Env) (sh : Shared)
    : option (PC * Shared * list PC * list Obs) :=
  match pc with
  | AtStart =>
      match startLocked sh with
      | None => Some (Returned, sh, [], [])
      | Some sh' => Some (AtCheck KGo, sh', [], [])
      end
  | AtCheck k =>
      let '(sh', g, done) := checkBegin sh in
      Some (AtFetch g done k, sh', [], [Began])
  | AtFetch g done k =>
      let (sh', info) := checkFetched g env sh in
      Some (AtStore info done k, sh', [], [])
  | AtStore info done k =>
      Some (AtDefer done k, checkStore info (nowStore env) sh, [],
            [Stored info])
  | AtDefer done k => Some (AtSignal done k, checkEnd sh, [], [])
  | AtSignal done k => Some (after k, checkSignal done sh, [], [])
  | AtGo => Some (Returned, sh, [AtSelect], [])
  | AtSelect => Some (InSelect (stopCh (obj sh)) false, sh, [], [])
  | InSelect stop ticked =>
      let stopped := Chan.isClosed (chans sh) stop in
      if ticked && (negb stopped || preferTick env)
      then Some (AtCheck KLoop, sh, [], [])
      else if stopped then Some (Returned, sh, [], [])
      else None
  | AtStop =>
      match stopLocked sh with
      | NotRunning => Some (Returned, sh, [], [StopNoop])
      | ClosePanics => Some (Panicked "close of nil or closed channel", sh, [], [])
      | Stopped sh' None => Some (Returned, sh', [], [StopReturned])
      | Stopped sh' (Some done) => Some (AtReceive done, sh', [], [])
      end
  | AtReceive done =>
      if Chan.isClosed (chans sh) (Some done)
      then Some (Returned, sh, [], [StopReturned])
      else Some (Parked done,
                 {| obj := obj sh; chans := Chan.park (chans sh) done |},
                 [], [])
  | Parked done =>
      match Chan.resume (chans sh) done with
      | None => None
      | Some h => Some (Returned, {| obj := obj sh; chans := h |}, [],
                        [StopReturned])
      end
  | AtUpdateConfig newCfg => Some (AtCheck KReturn, updateLocked newCfg sh, [], [])
  | Returned => None
  | Panicked _ => None
  end.

(** [check] run by itself, from its first lock to its return. *)
Definition check (env : Env) (sh : Shared) : Shared :=
  let '(sh, g, done) := checkBegin sh in
  let (sh, info) := checkFetched g env sh in
  checkSignal done (checkEnd (checkStore info (nowStore env) sh)).

Definition World : Type := @Sched.World PC Shared Obs.
Definition Action : Type := @Sched.Action Env Method.

Definition step : Action -> World -> option World :=
  Sched.step PC Shared Env Obs Method exec tick entry.
Definition run : list Action -> World -> option World :=
  Sched.run PC Shared Env Obs Method exec tick entry.
Definition runThread : nat -> PC -> Env -> Shared
                       -> PC * Shared * list PC * list Obs :=
  Sched.runThread PC Shared Env Obs exec.

Definition start (c : option GraphConfig) : World :=
  Sched.Build_World (initial c) [] [].

(** A method called while nothing else runs: the goroutine of the call
    steps until it returns (the longest call takes seven steps). *)
Definition call (m : Method) (env : Env) (sh : Shared)
    : PC * Shared * list PC * list Obs :=
  runThread 8 (entry m) env sh.

Definition stateAfter (r : PC * Shared * list PC * list Obs) : Shared :=
  snd (fst (fst r)).

(** The state [Start] leaves when the checker was stopped, and the one
    [Stop] leaves when it was running. *)
Definition afterStart (env : Env) (sh : Shared) : Shared :=
  match startLocked sh with
  | Some sh1 => check env sh1
  | None => sh
  end.

Definition afterStop (sh : Shared) : Shared :=
  match stopLocked sh with
  | Stopped sh' _ => sh'
  | _ => sh
  end.

(** [k] times [Start()] then [Stop()]. *)
Fixpoint cycles (k : nat) (env : Env) (sh : Shared) : Shared :=
  match k with
  | O => sh
  | S k' =>
      cycles k' env
        (stateAfter (call Stop env (stateAfter (call Start env sh))))
  end.

End StandardLibrary.

(** *** Reading a trace *)

(** Some [Stop] that found the checker running returned while a check that
    had begun before had not stored its result, and that result was stored
    afterwards. *)
Fixpoint storedAfterStop (t : list (nat * Obs)) (flying : list nat)
    (stopped : list nat) : bool :=
  match t with
  | [] => false
  | (tid, Began) :: rest => storedAfterStop rest (tid :: flying) stopped
  | (tid, Stored _) :: rest =>
      existsb (Nat.eqb tid) stopped
      || storedAfterStop rest
           (List.filter (fun x => negb (Nat.eqb x tid)) flying) stopped
  | (_, StopReturned) :: rest => storedAfterStop rest flying (flying ++ stopped)
  | (_, StopNoop) :: rest => storedAfterStop rest flying stopped
  end.

End Checker.

(** ** The expiry checker of src/internal/notify/graph_expiry.go

    The revision without [doneCh]: [stopCh] is made once, by the
    constructor. *)

Module GraphExpiry.

Import Graph Expiry.

Record SecretExpiryChecker : Type := {
  cfg : option GraphConfig;
  tokenSource : option Credentials;
  cachedInfo : SecretExpiryInfo;
  lastCheck : Time;
  stopCh : option nat;
  running : bool
}.

Record Shared : Type := { obj : SecretExpiryChecker; chans : list Chan.chan }.

(** [NewSecretExpiryChecker]: [stopCh: make(chan struct{})]. *)
Definition NewSecretExpiryChecker (c : option GraphConfig) : Shared :=
  let (h, stop) := Chan.make [] in
  {| obj := {| cfg := c; tokenSource := None; cachedInfo := noInfo;
               lastCheck := zeroTime; stopCh := Some stop; running := false |};
     chans := h |}.

Definition GetInfo (sh : Shared) : SecretExpiryInfo := cachedInfo (obj sh).

Record Env : Type := {
  outcome : ApiOutcome;
  nowFetch : Time;
  nowStore : Time;
  preferTick : bool
}.

Inductive Obs : Type :=
| Began
| Stored (info : SecretExpiryInfo)
| StopReturned
| StopNoop.

Inductive Cont : Type := KReturn | KGo | KLoop.

Inductive PC : Type :=
| AtStart
| AtStop
| AtUpdateConfig (newCfg : option GraphConfig)
| AtCheck (k : Cont)
| AtFetch (cfg : option GraphConfig) (k : Cont)
| AtStore (info : SecretExpiryInfo) (k : Cont)
| AtGo
| AtSelect
| InSelect (stop : option nat) (ticked : bool)
| Returned
| Panicked (msg : string).

Definition after (k : Cont) : PC :=
  match k with
  | KReturn => Returned
  | KGo => AtGo
  | KLoop => AtSelect
  end.

Inductive Method : Type :=
| Start
| Stop
| UpdateConfig (newCfg : option GraphConfig).

Definition entry (m : Method) : PC :=
  match m with
  | Start => AtStart
  | Stop => AtStop
  | UpdateConfig c => AtUpdateConfig c
  end.

Definition tick (pc : PC) : option PC :=
  match pc with
  | InSelect stop _ => Some (InSelect stop true)
  | _ => None
  end.

Section StandardLibrary.

Variable Parse : string -> option Time.
Variable Format : Time -> string.
Variable Unmarshal : string -> applicationResponse + error.

(** [Start], lines 43-49. *)
Definition startLocked (sh : Shared) : option Shared :=
  let c := obj sh in
  if running c then None
  else Some {| obj := {| cfg := cfg c; tokenSource := tokenSource c;
                         cachedInfo := cachedInfo c; lastCheck := lastCheck c;
                         stopCh := stopCh c; running := true |};
               chans := chans sh |}.

(** [check], line 104, and [fetchExpiryInfo]. *)
Definition checkFetched (g : option GraphConfig) (env : Env) (sh : Shared)
    : Shared * SecretExpiryInfo :=
  let c := obj sh in
  let (ts, info) :=
    checkFetch Parse Format Unmarshal g (nowFetch env) (outcome env)
               (tokenSource c) in
  ({| obj := {| cfg := cfg c; tokenSource := ts;
                cachedInfo := cachedInfo c; lastCheck := lastCheck c;
                stopCh := stopCh c; running := running c |};
      chans := chans sh |}, info).

(** [check], lines 105-110 and 115-124. *)
Definition checkStore (info : SecretExpiryInfo) (now : Time) (sh : Shared)
    : Shared :=
  let c := obj sh in
  {| obj := {| cfg := cfg c; tokenSource := tokenSource c;
               cachedInfo := info; lastCheck := now;
               stopCh := stopCh c; running := running c |};
     chans := chans sh |}.

(** [UpdateConfig], lines 90-93. *)
Definition updateLocked (newCfg : option GraphConfig) (sh : Shared) : Shared :=
  let c := obj sh in
  {| obj := {| cfg := newCfg; tokenSource := None;
               cachedInfo := cachedInfo c; lastCheck := lastCheck c;
               stopCh := stopCh c; running := running c |};
     chans := chans sh |}.

(** [Stop], lines 72-78. *)
Inductive Stopping : Type :=
| NotRunning
| ClosePanics
| Stopped (sh : Shared).

Definition stopLocked (sh : Shared) : Stopping :=
  let c := obj sh in
  if running c then
    match Chan.close (chans sh) (stopCh c) with
    | None => ClosePanics
    | Some h =>
        Stopped {| obj := {| cfg := cfg c; tokenSource := tokenSource c;
                             cachedInfo := cachedInfo c;
                             lastCheck := lastCheck c;
                             stopCh := stopCh c; running := false |};
                   chans := h |}
    end
  else NotRunning.

Definition exec (pc : PC) (env : Env) (sh : Shared)
    : option (PC * Shared * list PC * list Obs) :=
  match pc with
  | AtStart =>
      match startLocked sh with
      | None => Some (Returned, sh, [], [])
      | Some sh' => Some (AtCheck KGo, sh', [], [])
      end
  | AtCheck k => Some (AtFetch (cfg (obj sh)) k, sh, [], [Began])
  | AtFetch g k =>
      let (sh', info) := checkFetched g env sh in
      Some (AtStore info k, sh', [], [])
  | AtStore info k =>
      Some (after k, checkStore info (nowStore env) sh, [], [Stored info])
  | AtGo => Some (Returned, sh, [AtSelect], [])
  | AtSelect => Some (InSelect (stopCh (obj sh)) false, sh, [], [])
  | InSelect stop ticked =>
      let stopped := Chan.isClosed (chans sh) stop in
      if ticked && (negb stopped || preferTick env)
      then Some (AtCheck KLoop, sh, [], [])
      else if stopped then Some (Returned, sh, [], [])
      else None
  | AtStop =>
      match stopLocked sh with
      | NotRunning => Some (Returned, sh, [], [StopNoop])
      | ClosePanics => Some (Panicked "close of closed channel", sh, [], [])
      | Stopped sh' => Some (Returned, sh', [], [StopReturned])
      end
  | AtUpdateConfig newCfg => Some (AtCheck KReturn, updateLocked newCfg sh, [], [])
  | Returned => None
  | Panicked _ => None
  end.

Definition World : Type := @Sched.World PC Shared Obs.
Definition Action : Type := @Sched.Action Env Method.

Definition step : Action -> World -> option World :=
  Sched.step PC Shared Env Obs Method exec tick entry.
Definition run : list Action -> World -> option World :=
  Sched.run PC Shared Env Obs Method exec tick entry.

Definition start (c : option GraphConfig) : World :=
  Sched.Build_World (NewSecretExpiryChecker c) [] [].

End StandardLibrary.

(** As [Checker.storedAfterStop], for the observations of this revision. *)
Fixpoint storedAfterStop (t : list (nat * Obs)) (flying : list nat)
    (stopped : list nat) : bool :=
  match t with
  | [] => false
  | (tid, Began) :: rest => storedAfterStop rest (tid :: flying) stopped
  | (tid, Stored _) :: rest =>
      existsb (Nat.eqb tid) stopped
      || storedAfterStop rest
           (List.filter (fun x => negb (Nat.eqb x tid)) flying) stopped
  | (_, StopReturned) :: rest => storedAfterStop rest flying (flying ++ stopped)
  | (_, StopNoop) :: rest => storedAfterStop rest flying stopped
  end.

End GraphExpiry.

(** ** Sample inputs

    Concrete configurations, replies and schedules on which the theorems
    below are exercised. *)

Module Samples.

Import Graph Expiry.

Definition sampleConfig : GraphConfig :=
  {| TenantID := "tenant"; ClientID := "client"; ClientSecret := "secret";
     FromAddress := "alerts@example.org"; Recipients := "ops@example.org" |}.

(** A configuration whose recipients hold no address. *)
Definition blankRecipients : GraphConfig :=
  {| TenantID := "tenant"; ClientID := "client"; ClientSecret := "secret";
     FromAddress := "alerts@example.org"; Recipients := " , " |}.

Definition sampleClient : GraphClient :=
  {| fromAddress := "alerts@example.org"; httpClient := credentialsOf sampleConfig |}.

Definition anyURL (url : string) : option error := None.
Definition always503 (attempt : nat) : Reply := Response 503 "busy".
Definition always429 (attempt : nat) : Reply := Response 429 "slow down".

(** A snapshot with the three settings the predicates of [config] look
    at. *)
Record snapshot : Type := {
  WebhookURL : string;
  LogPath : string;
  GraphSettings : GraphConfig
}.

Definition hasWebhook (s : snapshot) : bool := negb (Strings.isEmpty (WebhookURL s)).
Definition hasLogPath (s : snapshot) : bool := negb (Strings.isEmpty (LogPath s)).
Definition hasGraph (s : snapshot) : bool := IsConfigured (GraphSettings s).

Definition webhookOnly : snapshot :=
  {| WebhookURL := "https://hooks.example.org/silence"; LogPath := "";
     GraphSettings := {| TenantID := ""; ClientID := ""; ClientSecret := "";
                         FromAddress := ""; Recipients := "" |} |}.

Definition allChannels : snapshot :=
  {| WebhookURL := "https://hooks.example.org/silence";
     LogPath := "/var/log/encoder/silence.log";
     GraphSettings := sampleConfig |}.

Definition entered (cfg : snapshot) (ms : Z) : Notifier.Delivery snapshot :=
  {| Notifier.event := {| Notifier.JustEntered := true; Notifier.DurationMs := ms;
                          Notifier.JustRecovered := false;
                          Notifier.TotalDurationMs := 0 |};
     Notifier.startCfg := cfg; Notifier.endCfg := cfg |}.

Definition recovered (cfg : snapshot) (ms : Z) : Notifier.Delivery snapshot :=
  {| Notifier.event := {| Notifier.JustEntered := false; Notifier.DurationMs := 0;
                          Notifier.JustRecovered := true;
                          Notifier.TotalDurationMs := ms |};
     Notifier.startCfg := cfg; Notifier.endCfg := cfg |}.

(** Instants of three end-dates and of a clock reading, and the two
    standard-library functions on them. *)
Definition t2030 : Time := {| instant := 64029052800000000000; zone := 0 |}.
Definition t2031 : Time := {| instant := 64060588800000000000; zone := 0 |}.
Definition now2029 : Time := {| instant := 63997516800000000000; zone := 0 |}.

Definition sampleParse (s : string) : option Time :=
  if String.eqb s "2030-01-01T00:00:00Z" then Some t2030
  else if String.eqb s "2031-01-01T00:00:00Z" then Some t2031
  else if String.eqb s "0001-01-01T00:00:00Z" then Some zeroTime
  else None.

Definition sampleFormat (t : Time) : string :=
  if instant t =? instant t2030 then "2030-01-01T00:00:00Z"
  else if instant t =? instant t2031 then "2031-01-01T00:00:00Z"
  else if instant t =? 0 then "0001-01-01T00:00:00Z"
  else "".

Definition sampleUnmarshal (body : string) : applicationResponse + error :=
  if String.eqb body "one"
  then inl {| PasswordCredentials :=
                [ {| EndDateTime := "2030-01-01T00:00:00Z" |} ] |}
  else inr (Errorf "unexpected end of JSON input").

(** What a check stores when the one credential of [sampleUnmarshal] expires
    in 2030 and the clock reads [now2029]. *)
Definition info2030 : SecretExpiryInfo :=
  {| ExpiresAt := "2030-01-01T00:00:00Z"; ExpiresSoon := false;
     DaysLeft := 365; Error := "" |}.

(** Three credentials, the second with the end-date of the zero instant. *)
Definition zeroInTheMiddle : list passwordCredential :=
  [ {| EndDateTime := "2030-01-01T00:00:00Z" |};
    {| EndDateTime := "0001-01-01T00:00:00Z" |};
    {| EndDateTime := "2031-01-01T00:00:00Z" |} ].

End Samples.

(** ** Sample schedules of the two expiry checkers *)

Module Schedules.

Import Graph Expiry Samples.

(** The revision of graph_expiry.go. *)
Module Old.

Import GraphExpiry.

Definition env : Env :=
  {| outcome := ApiResponse 200 "one"; nowFetch := now2029;
     nowStore := now2029; preferTick := false |}.

Definition run : list Action -> World -> option World :=
  GraphExpiry.run sampleParse sampleFormat sampleUnmarshal.

Definition world : World := GraphExpiry.start (Some sampleConfig).

(** Goroutine 0 calls [Start] and runs it to its return; goroutine 1 is
    the background loop, which reaches its [select]. *)
Definition started : list Action :=
  [ Sched.Call Start;
    Sched.Run 0 env; Sched.Run 0 env; Sched.Run 0 env; Sched.Run 0 env;
    Sched.Run 0 env;
    Sched.Run 1 env ].

(** The ticker fires and the loop begins a check, up to the point where
    the result is about to be stored; goroutine 2 calls [Stop], which
    returns; the loop then stores. *)
Definition stopDuringCheck : list Action :=
  started
  ++ [ Sched.Tick 1; Sched.Run 1 env; Sched.Run 1 env; Sched.Run 1 env;
       Sched.Call Stop; Sched.Run 2 env;
       Sched.Run 1 env ].

(** [Start], [Stop] (goroutine 2; the loop returns), [Start] again
    (goroutine 3) with its loop (goroutine 4) run as far as it goes. *)
Definition restarted : list Action :=
  started
  ++ [ Sched.Call Stop; Sched.Run 2 env; Sched.Run 1 env;
       Sched.Call Start;
       Sched.Run 3 env; Sched.Run 3 env; Sched.Run 3 env; Sched.Run 3 env;
       Sched.Run 3 env;
       Sched.Run 4 env; Sched.Run 4 env ].

(** ... and [Stop] again (goroutine 5). *)
Definition stoppedTwice : list Action :=
  restarted ++ [ Sched.Call Stop; Sched.Run 5 env ].

End Old.

(** The revision with the completion signal. *)
Module New.

Import Checker.

Definition env : Env :=
  {| outcome := ApiResponse 200 "one"; nowFetch := now2029;
     nowStore := now2029; preferTick := false |}.

Definition run : list Action -> World -> option World :=
  Checker.run sampleParse sampleFormat sampleUnmarshal.

Definition world : World := Checker.start (Some sampleConfig).

Definition started : list Action :=
  [ Sched.Call Start;
    Sched.Run 0 env; Sched.Run 0 env; Sched.Run 0 env; Sched.Run 0 env;
    Sched.Run 0 env; Sched.Run 0 env; Sched.Run 0 env;
    Sched.Run 1 env ].

(** The loop (goroutine 1) begins a check after a tick; goroutine 2 calls
    [UpdateConfig] and its check stores; goroutine 3 calls [Stop], finds
    [checking] set and parks on [doneCh]; the check of goroutine 2 ends
    and signals; [Stop] returns; the check of the loop stores. *)
Definition overlappingChecks : list Action :=
  started
  ++ [ Sched.Tick 1; Sched.Run 1 env; Sched.Run 1 env;
       Sched.Call (UpdateConfig (Some sampleConfig));
       Sched.Run 2 env; Sched.Run 2 env; Sched.Run 2 env; Sched.Run 2 env;
       Sched.Call Stop; Sched.Run 3 env; Sched.Run 3 env;
       Sched.Run 2 env; Sched.Run 2 env;
       Sched.Run 3 env;
       Sched.Run 1 env; Sched.Run 1 env ].

(** The check of the loop has stored; goroutine 2 calls [Stop] and finds
    [checking] still set; before it reaches the receive, the check ends
    and its signal finds nobody; the loop returns; [Stop] parks. *)
Definition lostSignal : list Action :=
  started
  ++ [ Sched.Tick 1; Sched.Run 1 env; Sched.Run 1 env; Sched.Run 1 env;
       Sched.Run 1 env;
       Sched.Call Stop; Sched.Run 2 env;
       Sched.Run 1 env; Sched.Run 1 env; Sched.Run 1 env; Sched.Run 1 env;
       Sched.Run 2 env ].

(** One check at a time: the loop begins a check, [Stop] parks, the check
    stores and signals, [Stop] returns. *)
Definition stopWaits : list Action :=
  started
  ++ [ Sched.Tick 1; Sched.Run 1 env; Sched.Run 1 env; Sched.Run 1 env;
       Sched.Call Stop; Sched.Run 2 env; Sched.Run 2 env;
       Sched.Run 1 env; Sched.Run 1 env; Sched.Run 1 env;
       Sched.Run 2 env ].

End New.

End Schedules.

(** ** More of the Go runtime: [strings.HasPrefix] and [strings.Contains] *)

Module Substrings.

Fixpoint HasPrefix (s prefix : string) {struct prefix} : bool :=
  match prefix, s with
  | EmptyString, _ => true
  | String p prefix', String c s' => Ascii.eqb c p && HasPrefix s' prefix'
  | String _ _, EmptyString => false
  end.

(** [strings.Contains(s, substr)]: [substr] starts somewhere in [s]. *)
Fixpoint Contains (s substr : string) : bool :=
  HasPrefix s substr
  || match s with
     | EmptyString => false
     | String _ s' => Contains s' substr
     end.

End Substrings.

(** ** Checking a property on a range of integers *)

Module Range.

(** [check] holds at [n], [n + 1], ..., [fuel] values in all. *)
Fixpoint allFrom (check : Z -> bool) (fuel : nat) (n : Z) : bool :=
  match fuel with
  | O => true
  | S fuel' => check n && allFrom check fuel' (n + 1)
  end.

End Range.

(** ** Words for the statements about recipients *)

Module Recipients.

Import Strings Substrings.

(** An address as [ParseRecipients] returns it: not empty, no white space
    at either end, no comma. *)
Definition clean (r : string) : Prop :=
  r <> "" /\ TrimSpace r = r /\ Contains r "," = false.

End Recipients.

(** ** Words for the statements about the retry loop *)

Module RetryTrace.

Import Graph.

(** One retry: the sleep and the post. *)
Definition round (url : string) (payload : graphMailRequest) (j : nat)
    : list Step :=
  [Sleep (backoff j); Post url payload].

(** A step that, if it is a post, goes to [url]. *)
Definition postTo (url : string) (s : Step) : Prop :=
  match s with
  | Post u _ => u = url
  | Sleep _ => True
  end.

End RetryTrace.

(** ** The credential probe of the mail client (graph.go, [ValidateAuth]) *)

Module GraphAuth.

Import Graph Substrings.

Definition validateURL (from : string) : string :=
  graphBaseURL +++ "/users/" +++ from.

Section Transport.

Variable NewRequest : string -> option error.

(** The reply to the one [GET] the probe makes. *)
Variable probe : Reply.

(** [ValidateAuth]: the error, and the URLs requested. *)
Definition ValidateAuth (c : GraphClient) : option error * list string :=
  let url := validateURL (fromAddress c) in
  match NewRequest url with
  | Some err => (Some (Wrapf "create validation request" err), [])
  | None =>
      (match probe with
       | TransportError err =>
           if Contains (errorText err) "oauth2" || Contains (errorText err) "token"
           then Some (Wrapf "authentication failed" err)
           else Some (Wrapf "validation request failed" err)
       | Response code body =>
           if (code =? 200) || (code =? 403) then None
           else if code =? 404
           then Some (Errorf ("mailbox " +++ fromAddress c +++ " not found"))
           else if code =? 401
           then Some (Errorf "authentication failed: invalid credentials")
           else Some (Errorf ("validation failed with status " +++ itoa code
                              +++ ": " +++ body))
       end, [url])
  end.

End Transport.

End GraphAuth.

(** ** The mail helpers of graph_email.go *)

Module GraphEmail.

Import Graph GraphAuth.

Definition newline : string := String (ascii_of_nat 10) "".

(** What [SendTestEmail] does on the network: the probe, then the steps of
    [SendMail]. *)
Inductive Request : Type :=
| Get (url : string)
| Mailing (s : Step).

Section Environment.

Variable NewRequest : string -> option error.
Variable probe : Reply.
Variable transport : nat -> Reply.

(** The package [fmt] on floating-point numbers: [%.1f] of
    [float64(ms)/1000.0] and of a threshold. *)
Variable float64 : Type.
Variable seconds : Z -> string.
Variable decibels : float64 -> string.

(** The package [util]: what [HumanTime()] returns at the call, and
    [WrapError]. *)
Variable HumanTime : string.
Variable WrapError : string -> error -> option error.

Definition silenceSubject (stationName : string) : string :=
  "[ALERT] Silence Detected - " +++ stationName.

Definition silenceBody (durationMs : Z) (threshold : float64) : string :=
  "Silence detected on the audio encoder." +++ newline +++ newline
  +++ "Duration:  " +++ seconds durationMs +++ " seconds" +++ newline
  +++ "Threshold: " +++ decibels threshold +++ " dB" +++ newline
  +++ "Time:      " +++ HumanTime +++ newline +++ newline
  +++ "Please check the audio source.".

Definition recoverySubject (stationName : string) : string :=
  "[OK] Audio Recovered - " +++ stationName.

Definition recoveryBody (silenceDurationMs : Z) : string :=
  "Audio recovered on the encoder." +++ newline +++ newline
  +++ "Silence lasted: " +++ seconds silenceDurationMs +++ " seconds" +++ newline
  +++ "Time:           " +++ HumanTime.

Definition testSubject (stationName : string) : string :=
  "[TEST] " +++ stationName.

Definition testBody : string :=
  "Test email from the audio encoder." +++ newline +++ newline
  +++ "Time: " +++ HumanTime +++ newline +++ newline
  +++ "Microsoft Graph configuration is working correctly.".

(** [if err := ...; err != nil { return wrap(err) }; return nil]. *)
Definition wrapped (wrap : error -> option error) (e : option error)
    : option error :=
  match e with
  | Some err => wrap err
  | None => None
  end.

Definition sendEmail (cfg : GraphConfig) (subject body : string)
    : option error * list Step :=
  match NewGraphClient cfg with
  | inr err => (WrapError "create Graph client" err, [])
  | inl client =>
      match ParseRecipients (Recipients cfg) with
      | [] => (Some (Errorf "no valid recipients"), [])
      | recipients =>
          let (e, t) := SendMail NewRequest transport client recipients
                          subject body in
          (wrapped (WrapError "send email via Graph") e, t)
      end
  end.

Definition SendSilenceAlert (cfg : GraphConfig) (stationName : string)
    (durationMs : Z) (threshold : float64) : option error * list Step :=
  if negb (IsConfigured cfg) then (None, [])
  else sendEmail cfg (silenceSubject stationName)
                 (silenceBody durationMs threshold).

Definition SendRecoveryAlert (cfg : GraphConfig) (stationName : string)
    (silenceDurationMs : Z) : option error * list Step :=
  if negb (IsConfigured cfg) then (None, [])
  else sendEmail cfg (recoverySubject stationName)
                 (recoveryBody silenceDurationMs).

Definition SendTestEmail (cfg : GraphConfig) (stationName : string)
    : option error * list Request :=
  match ValidateConfig cfg with
  | Some err => (Some (Wrapf "configuration error" err), [])
  | None =>
      match NewGraphClient cfg with
      | inr err => (Some (Wrapf "create Graph client" err), [])
      | inl client =>
          let (e, probed) := ValidateAuth NewRequest probe client in
          match e with
          | Some err => (Some (Wrapf "authentication failed" err),
                         map Get probed)
          | None =>
              let recipients := ParseRecipients (Recipients cfg) in
              let (e, t) := SendMail NewRequest transport client recipients
                              (testSubject stationName) testBody in
              (wrapped (fun err => Some (Wrapf "send email" err)) e,
               map Get probed ++ map Mailing t)
          end
      end
  end.

End Environment.

End GraphEmail.

(** ** The notifier's mail with the cached client (silence_notifier.go,
    [sendEmailWithClient]) *)

Module NotifierEmail.

Import Graph Notifier.

Section Environment.

Variable NewRequest : string -> option error.
Variable transport : nat -> Reply.
Variable float64 : Type.
Variable seconds : Z -> string.
Variable decibels : float64 -> string.
Variable HumanTime : string.
Variable WrapError : string -> error -> option error.

Definition sendEmailWithClient (cfg : GraphConfig) (stationName : string)
    (durationMs : Z) (threshold : float64) (isSilence : bool)
    (n : SilenceNotifier) : SilenceNotifier * (option error * list Step) :=
  if negb (IsConfigured cfg) then (n, (None, []))
  else
    let (n, r) := getOrCreateGraphClient cfg n in
    match r with
    | inr err => (n, (WrapError "create Graph client" err, []))
    | inl client =>
        let subject :=
          if isSilence then "[ALERT] Silence Detected - " +++ stationName
          else "[OK] Audio Recovered - " +++ stationName in
        let body :=
          if isSilence
          then GraphEmail.silenceBody float64 seconds decibels HumanTime
                 durationMs threshold
          else GraphEmail.recoveryBody seconds HumanTime durationMs in
        match ParseRecipients (Recipients cfg) with
        | [] => (n, (Some (Errorf "no valid recipients"), []))
        | recipients =>
            let (e, t) := SendMail NewRequest transport client recipients
                            subject body in
            (n, (GraphEmail.wrapped (WrapError "send email via Graph") e, t))
        end
    end.

End Environment.

End NotifierEmail.

(** ** Sample instances of the formatting and wrapping helpers *)

Module MailSamples.

Import Graph Notifier Samples.

(** [fmt.Sprintf("%.1f", float64(ms)/1000.0)] and
    [fmt.Sprintf("%.1f", threshold)], a threshold of -40 dB, and a wrapper
    in the style of [fmt.Errorf("%s: %w", op, err)]. *)
Definition seconds (ms : Z) : string :=
  Float64.format1 (Float64.div (Float64.ofInt ms) (Float64.ofInt 1000)).

Definition decibels (threshold : Float64.float64) : string :=
  Float64.format1 threshold.

Definition threshold : Float64.float64 := Float64.ofInt (-40).

Definition humanTime : string := "2029-01-01 00:00:00".

Definition wrapError (op : string) (err : error) : option error :=
  Some (Wrapf op err).

(** A notifier that still holds the client of an earlier configuration. *)
Definition oldClient : GraphClient :=
  {| fromAddress := "old@example.org"; httpClient := credentialsOf sampleConfig |}.

Definition withOldClient : SilenceNotifier :=
  {| webhookSent := false; emailSent := true; logSent := false;
     graphClient := Some oldClient |}.

Definition accepted (attempt : nat) : Reply := Response 202 "".

End MailSamples.

(** ** Words for the statements about reachable states of the checker *)

Module Reachable.

Import Checker.

Definition panicked (pc : PC) : bool :=
  match pc with
  | Panicked _ => true
  | _ => false
  end.

(** The channel [stopCh] names exists and is open. *)
Definition stopOpen (sh : Shared) : Prop :=
  exists i ch,
    stopCh (obj sh) = Some i /\ chans sh !! i = Some ch
    /\ Chan.closed ch = false.

(** Every channel of [h] is still there in [h'], closed or open as it
    was. *)
Definition keeps (h h' : list Chan.chan) : Prop :=
  forall i ch, h !! i = Some ch ->
    exists ch', h' !! i = Some ch' /\ Chan.closed ch' = Chan.closed ch.

End Reachable.

(** ** Words for the statements about the notifier's flags *)

Module Flags.

Import Notifier.

(** Two notifiers with the same three sent flags. *)
Definition sameFlags (a b : SilenceNotifier) : Prop :=
  webhookSent a = webhookSent b /\ emailSent a = emailSent b
  /\ logSent a = logSent b.

End Flags.

(** ** Words for the statements about the cached expiry information *)

Module Cached.

Import Expiry.

(** A value of [types.SecretExpiryInfo] as the checker means it: the zero
    value before the first check; an error with the other fields zero; or
    no error, with the days left not negative and the warning flag set
    exactly when they are at most [expiryWarningDays]. *)
Definition wellFormed (i : SecretExpiryInfo) : Prop :=
  i = noInfo
  \/ (Error i <> "" /\ ExpiresAt i = "" /\ ExpiresSoon i = false
      /\ DaysLeft i = 0)
  \/ (Error i = "" /\ 0 <= DaysLeft i
      /\ ExpiresSoon i = (DaysLeft i <=? expiryWarningDays)).

(** The value a goroutine of the checker of graph_expiry.go is about to
    store, if it is at that point. *)
Definition carries (pc : GraphExpiry.PC) : Prop :=
  match pc with
  | GraphExpiry.AtStore info _ => wellFormed info
  | _ => True
  end.

End Cached.

(** ** Words for the statements about the traces of graph_expiry.go *)

Module StopTrace.

Import GraphExpiry.

Definition isStopReturned (o : Obs) : bool :=
  match o with
  | StopReturned => true
  | _ => false
  end.

(** Some [Stop] found the checker running and returned. *)
Definition stopReturned (t : list (nat * Obs)) : bool :=
  existsb (fun e => isStopReturned (snd e)) t.

End StopTrace.

(** ** Methods of the checker of graph_expiry.go called alone *)

Module GraphExpiryCalls.

Import Graph Expiry GraphExpiry.

Section StandardLibrary.

Variable Parse : string -> option Time.
Variable Format : Time -> string.
Variable Unmarshal : string -> applicationResponse + error.

(** [check] from its first lock to its return, nothing else running. *)
Definition check (env : Env) (sh : Shared) : Shared :=
  let (sh', info) := checkFetched Parse Format Unmarshal (cfg (obj sh)) env sh in
  checkStore info (nowStore env) sh'.

Definition runThread : nat -> PC -> Env -> Shared
                       -> PC * Shared * list PC * list Obs :=
  Sched.runThread PC Shared Env Obs (exec Parse Format Unmarshal).

(** A method called while nothing else runs (the longest call takes five
    steps). *)
Definition call (m : Method) (env : Env) (sh : Shared)
    : PC * Shared * list PC * list Obs :=
  runThread 6 (entry m) env sh.

End StandardLibrary.

End GraphExpiryCalls.

(** ** FFmpeg lookup (internal/util/ffmpeg.go) *)

Module Util.

Section Exec.

(** [exec.LookPath]: the path of the executable, or the error. *)
Variable LookPath : string -> string + error.

Definition ResolveFFmpegPath (customPath : string) : string :=
  if negb (Strings.isEmpty customPath)
  then match LookPath customPath with
       | inl _ => customPath
       | inr _ => ""
       end
  else match LookPath "ffmpeg" with
       | inr _ => ""
       | inl path => path
       end.

End Exec.

End Util.

(** * Properties *)

(** ** Strings *)

Module StringsFacts.

Lemma isEmpty_true (s : string) : Strings.isEmpty s = true <-> s = "".
Proof. destruct s; simpl; split; congruence. Qed.

Lemma isEmpty_false (s : string) : Strings.isEmpty s = false <-> s <> "".
Proof. destruct s; simpl; split; congruence. Qed.

Example TrimSpace_ascii : Strings.TrimSpace "  a@b.c " = "a@b.c".
Proof. reflexivity. Qed.

(** A no-break space (U+00A0, bytes 194 160) is trimmed as well. *)
Example TrimSpace_nbsp :
  Strings.TrimSpace
    (String (ascii_of_nat 194) (String (ascii_of_nat 160) " x ")) = "x".
Proof. reflexivity. Qed.

Example Split_commas : Strings.Split "," "a, b,,c" = ["a"; " b"; ""; "c"].
Proof. reflexivity. Qed.

Example Split_empty : Strings.Split "," "" = [""].
Proof. reflexivity. Qed.

Example itoa_503 : itoa 503 = "503".
Proof. reflexivity. Qed.

End StringsFacts.

(** ** The mail configuration *)

Module MailConfigFacts.

Import Graph Samples StringsFacts.

Example ParseRecipients_two :
  ParseRecipients "a@b.c, d@e.f ,," = ["a@b.c"; "d@e.f"].
Proof. reflexivity. Qed.

(** [ValidateConfig] accepts a configuration whose recipients parse to no
    address at all. *)
Lemma ValidateConfig_accepts_blank_recipients :
  IsConfigured blankRecipients = true
  /\ ValidateConfig blankRecipients = None
  /\ ParseRecipients (Recipients blankRecipients) = [].
Proof. repeat split. Qed.

(** C9, as the code has it. A configuration is configured exactly when its
    five fields are non-empty, and [ValidateConfig] returns no error exactly
    then: it looks at the recipients string only to see that it is not
    empty. A recipients string that parses to at least one address is not
    empty; one that parses to none is refused only when a mail is sent,
    where [SendMail] fails with "no recipients specified". *)
Theorem configured_and_valid (cfg : GraphConfig) :
  (IsConfigured cfg = true <->
     TenantID cfg <> "" /\ ClientID cfg <> "" /\ ClientSecret cfg <> ""
     /\ FromAddress cfg <> "" /\ Recipients cfg <> "")
  /\ (ValidateConfig cfg = None <-> IsConfigured cfg = true)
  /\ (ParseRecipients (Recipients cfg) <> [] -> Recipients cfg <> "")
  /\ (ParseRecipients (Recipients cfg) = [] ->
      forall NewRequest transport c subject body,
        SendMail NewRequest transport c (ParseRecipients (Recipients cfg))
                 subject body
        = (Some (Errorf "no recipients specified"), [])).
Proof.
  unfold IsConfigured, ValidateConfig.
  destruct cfg as [t c s f r]; simpl.
  split; [|split; [|split]].
  - rewrite !andb_true_iff, !negb_true_iff, !isEmpty_false. tauto.
  - destruct t, c, s, f, r; simpl; split; congruence.
  - intros H E. subst r. apply H. reflexivity.
  - intros H ? ? ? ? ?. rewrite H. reflexivity.
Qed.

End MailConfigFacts.

(** ** The retry loop of the mail client *)

Module RetryFacts.

Import Graph Samples.

Lemma int64_small (x : Z) : - 2 ^ 63 <= x < 2 ^ 63 -> int64 x = x.
Proof.
  intros H. unfold int64.
  rewrite Z.mod_small; lia.
Qed.

Lemma backoff_range (i : nat) : 0 < backoff i <= maxRetryWait.
Proof.
  unfold backoff, initialRetryWait, maxRetryWait, Second, Nanosecond.
  assert (0 < 2 ^ Z.of_nat i) by (apply Z.pow_pos_nonneg; lia).
  lia.
Qed.

(** Doubling and capping the wait of one retry gives the wait of the next;
    the doubling never leaves the range of [int64]. *)
Lemma waitAfter_backoff (attempt i : nat) :
  (0 < attempt)%nat -> waitAfter attempt (backoff i) = backoff (S i).
Proof.
  intros A. unfold waitAfter.
  destruct (Nat.ltb_spec 0 attempt) as [_|]; [|lia].
  pose proof (backoff_range i) as R.
  assert (M : maxRetryWait = 30000000000) by reflexivity.
  rewrite int64_small by lia.
  unfold backoff in *. rewrite Nat2Z.inj_succ, Z.pow_succ_r by lia.
  destruct (Z.ltb_spec maxRetryWait
              (Z.min (2 ^ Z.of_nat i * initialRetryWait) maxRetryWait * 2)); lia.
Qed.

Example backoff_values :
  map backoff (seq 0 7)
  = [1 * Second; 2 * Second; 4 * Second; 8 * Second; 16 * Second;
     30 * Second; 30 * Second].
Proof. reflexivity. Qed.

Section Transport.

Variable NewRequest : string -> option error.
Variable transport : nat -> Reply.

#[local] Abbreviation retryLoop := (Graph.retryLoop NewRequest transport).

(** One iteration whose reply is transient: the loop goes round. *)
Lemma retryLoop_transient n url payload attempt retryWait lastErr :
  NewRequest url = None ->
  transient (transport attempt) = true ->
  retryLoop (S n) url payload attempt retryWait lastErr
  = (fst (retryLoop n url payload (S attempt) (waitAfter attempt retryWait)
            (Some (retryError (transport attempt)))),
     sleepBefore attempt retryWait
     ++ Post url payload
        :: snd (retryLoop n url payload (S attempt)
                  (waitAfter attempt retryWait)
                  (Some (retryError (transport attempt))))).
Proof.
  intros HU HT. simpl. rewrite HU.
  destruct (transport attempt) as [err|code body]; simpl in *.
  - now destruct (retryLoop n url payload (S attempt) _ _).
  - assert (C : (code =? 202) || (code =? 200) || (code =? 204) = false).
    { destruct (Z.eqb_spec code 429), (Z.eqb_spec code 503);
        try discriminate; subst; reflexivity. }
    rewrite C, HT.
    now destruct (retryLoop n url payload (S attempt) _ _).
Qed.

(** The retries after the first attempt, while every reply is
    transient. *)
Lemma retryLoop_retries n url payload attempt i e :
  NewRequest url = None ->
  (forall k, transient (transport k) = true) ->
  (0 < attempt)%nat ->
  retryLoop n url payload attempt (backoff i) (Some e)
  = (Some (Wrapf "max retries exceeded"
             (match n with
              | O => e
              | S n' => retryError (transport (attempt + n'))
              end)),
     flat_map (fun j => [Sleep (backoff j); Post url payload]) (seq i n)).
Proof.
  intros HU HT. revert attempt i e.
  induction n as [|n IH]; intros attempt i e A.
  - reflexivity.
  - rewrite retryLoop_transient by auto.
    rewrite waitAfter_backoff by assumption.
    rewrite IH by lia.
    unfold sleepBefore.
    destruct (Nat.ltb_spec 0 attempt) as [_|]; [|lia].
    simpl. f_equal. f_equal. f_equal.
    destruct n as [|n']; [now rewrite Nat.add_0_r|].
    f_equal. f_equal. lia.
Qed.

(** The whole loop with [n] retries allowed, every reply transient. *)
Lemma retryLoop_exhausted n url payload :
  NewRequest url = None ->
  (forall k, transient (transport k) = true) ->
  retryLoop (S n) url payload 0 initialRetryWait None
  = (Some (Wrapf "max retries exceeded" (retryError (transport n))),
     Post url payload
     :: flat_map (fun j => [Sleep (backoff j); Post url payload]) (seq 0 n)).
Proof.
  intros HU HT.
  rewrite retryLoop_transient by auto.
  change (waitAfter 0 initialRetryWait) with (backoff 0).
  rewrite retryLoop_retries by (auto; lia).
  simpl. f_equal. destruct n; reflexivity.
Qed.

(** Whatever the reply, an iteration that gets its request made posts it,
    after the sleep. *)
Lemma retryLoop_posts n url payload attempt retryWait lastErr :
  NewRequest url = None ->
  exists rest,
    snd (retryLoop (S n) url payload attempt retryWait lastErr)
    = sleepBefore attempt retryWait ++ Post url payload :: rest.
Proof.
  intros HU. simpl. rewrite HU.
  destruct (transport attempt) as [err|code body].
  - destruct (retryLoop n url payload (S attempt) _ _) as [res rest].
    now exists rest.
  - destruct ((code =? 202) || (code =? 200) || (code =? 204));
      [now exists []|].
    destruct ((code =? 429) || (code =? 503)); [|now exists []].
    destruct (retryLoop n url payload (S attempt) _ _) as [res rest].
    now exists rest.
Qed.

(** C4. When the request can be made, the recipients hold an address and
    every reply is transient (a transport error, 429 or 503), [SendMail]
    posts four times, sleeps 1s, 2s and 4s before the second, third and
    fourth post, and returns "max retries exceeded" wrapping the error of
    the last reply. With [n] retries allowed the waits are
    [backoff 0 .. backoff (n - 1)], one second doubled each time and
    capped at 30 seconds. *)
Theorem retry_exhaustion (c : GraphClient) (recipients : list string)
    (subject body : string) :
  toRecipientsOf recipients <> [] ->
  NewRequest (sendMailURL (fromAddress c)) = None ->
  (forall k, transient (transport k) = true) ->
  let r := SendMail NewRequest transport c recipients subject body in
  attempts (snd r) = 4%nat
  /\ sleeps (snd r) = [1 * Second; 2 * Second; 4 * Second]
  /\ fst r = Some (Wrapf "max retries exceeded" (retryError (transport 3%nat)))
  /\ (exists post, isPost post = true
                   /\ snd r = [post; Sleep (1 * Second); post;
                               Sleep (2 * Second); post;
                               Sleep (4 * Second); post])
  /\ (forall n url payload,
        NewRequest url = None ->
        retryLoop (S n) url payload 0 initialRetryWait None
        = (Some (Wrapf "max retries exceeded" (retryError (transport n))),
           Post url payload
           :: flat_map (fun j => [Sleep (backoff j); Post url payload])
                (seq 0 n))).
Proof.
  intros HR HU HT r.
  assert (E : exists payload,
             r = retryLoop (S maxRetries) (sendMailURL (fromAddress c))
                   payload 0 initialRetryWait None).
  { subst r. unfold SendMail, sendWithRetry.
    destruct recipients as [|a rest]; [now elim HR|].
    destruct (toRecipientsOf (a :: rest)) as [|x xs] eqn:T; [now elim HR|].
    eexists. reflexivity. }
  destruct E as [payload E]. rewrite E.
  rewrite retryLoop_exhausted by auto.
  repeat split.
  - exists (Post (sendMailURL (fromAddress c)) payload). split; reflexivity.
  - intros n url p HU'. apply retryLoop_exhausted; auto.
Qed.

(** C5. An iteration of the loop that gets its request made treats the
    reply as the classification says: on 200, 202 or 204 [sendWithRetry]
    returns nil and posts nothing more; on any other status except 429
    and 503 it returns at once the error "graph API error <code>: <body>";
    on 429, 503 or a transport error it keeps the error and goes round:
    when a retry is left it sleeps and posts again, and when none is left
    it returns "max retries exceeded" wrapping that error. *)
Theorem response_classification n url payload attempt retryWait lastErr :
  NewRequest url = None ->
  let this := retryLoop (S n) url payload attempt retryWait lastErr in
  let slept := sleepBefore attempt retryWait in
  match classify (transport attempt) with
  | Success => this = (None, slept ++ [Post url payload])
  | Failure err => this = (Some err, slept ++ [Post url payload])
  | Retry e =>
      match n with
      | O => this = (Some (Wrapf "max retries exceeded" e),
                     slept ++ [Post url payload])
      | S _ => exists rest,
          snd this = slept ++ Post url payload
                           :: Sleep (waitAfter attempt retryWait)
                           :: Post url payload :: rest
      end
  end.
Proof.
  intros HU this slept.
  assert (R : forall e,
             retryError (transport attempt) = e ->
             transient (transport attempt) = true ->
             match n with
             | O => this = (Some (Wrapf "max retries exceeded" e),
                            slept ++ [Post url payload])
             | S _ => exists rest,
                 snd this = slept ++ Post url payload
                                  :: Sleep (waitAfter attempt retryWait)
                                  :: Post url payload :: rest
             end).
  { intros e He HT. subst this slept.
    rewrite retryLoop_transient by assumption. rewrite He.
    destruct n as [|m]; [reflexivity|].
    destruct (retryLoop_posts m url payload (S attempt)
                (waitAfter attempt retryWait) (Some e) HU) as [rest Hrest].
    exists rest. cbn [snd]. rewrite Hrest. reflexivity. }
  unfold classify.
  destruct (transport attempt) as [err|code body] eqn:T.
  - apply R; reflexivity.
  - destruct ((code =? 200) || (code =? 202) || (code =? 204)) eqn:C1.
    + subst this slept. simpl. rewrite HU, T.
      replace ((code =? 202) || (code =? 200) || (code =? 204)) with true
        by (destruct (code =? 200), (code =? 202), (code =? 204);
            simpl in *; congruence).
      reflexivity.
    + destruct ((code =? 429) || (code =? 503)) eqn:C2.
      * apply R; [reflexivity|exact C2].
      * subst this slept. simpl. rewrite HU, T.
        replace ((code =? 202) || (code =? 200) || (code =? 204)) with false
          by (destruct (code =? 200), (code =? 202), (code =? 204);
              simpl in *; congruence).
        rewrite C2. reflexivity.
Qed.

End Transport.

(** The classification at the status codes the specification names. *)
Example classify_named (body : string) (err : error) :
  classify (Response 200 body) = Success
  /\ classify (Response 202 body) = Success
  /\ classify (Response 204 body) = Success
  /\ classify (Response 429 body)
     = Retry (Errorf ("graph API returned 429: " +++ body))
  /\ classify (Response 503 body)
     = Retry (Errorf ("graph API returned 503: " +++ body))
  /\ classify (Response 500 body)
     = Failure (Errorf ("graph API error 500: " +++ body))
  /\ classify (Response 401 body)
     = Failure (Errorf ("graph API error 401: " +++ body))
  /\ classify (TransportError err) = Retry (Wrapf "send request" err).
Proof. repeat split. Qed.

(** The endpoint answers 503 three times and then 202: the fourth attempt
    succeeds after 1s, 2s and 4s of sleep. *)
Example backoff_then_success :
  let transport := fun k => if (k <? 3)%nat then Response 503 "busy"
                            else Response 202 "" in
  let r := SendMail anyURL transport sampleClient ["ops@example.org"]
             "subject" "body" in
  fst r = None /\ attempts (snd r) = 4%nat
  /\ sleeps (snd r) = [1 * Second; 2 * Second; 4 * Second].
Proof. repeat split. Qed.

Lemma retry_exhaustion_witness :
  toRecipientsOf ["ops@example.org"] <> []
  /\ anyURL (sendMailURL (fromAddress sampleClient)) = None
  /\ (forall k, transient (always503 k) = true)
  /\ attempts (snd (SendMail anyURL always503 sampleClient ["ops@example.org"]
                      "subject" "body")) = 4%nat
  /\ fst (SendMail anyURL always503 sampleClient ["ops@example.org"]
            "subject" "body")
     = Some (Wrapf "max retries exceeded"
               (Errorf "graph API returned 503: busy")).
Proof.
  assert (H1 : toRecipientsOf ["ops@example.org"] <> [])
    by (vm_compute; discriminate).
  assert (H2 : anyURL (sendMailURL (fromAddress sampleClient)) = None)
    by reflexivity.
  assert (H3 : forall k, transient (always503 k) = true)
    by (intros k; reflexivity).
  pose proof (retry_exhaustion anyURL always503 sampleClient
                ["ops@example.org"] "subject" "body" H1 H2 H3) as T.
  cbv zeta in T. destruct T as (A & _ & F & _).
  repeat split; assumption.
Defined.

Lemma response_classification_witness :
  anyURL "https://graph.microsoft.com/v1.0/users/x/sendMail" = None
  /\ exists rest,
       snd (retryLoop anyURL always429 4
              "https://graph.microsoft.com/v1.0/users/x/sendMail"
              {| Message := {| Subject := "s";
                               Body := {| ContentType := "Text"; Content := "b" |};
                               ToRecipients := [] |} |}
              0 initialRetryWait None)
       = [Post "https://graph.microsoft.com/v1.0/users/x/sendMail"
            {| Message := {| Subject := "s";
                             Body := {| ContentType := "Text"; Content := "b" |};
                             ToRecipients := [] |} |};
          Sleep (1 * Second);
          Post "https://graph.microsoft.com/v1.0/users/x/sendMail"
            {| Message := {| Subject := "s";
                             Body := {| ContentType := "Text"; Content := "b" |};
                             ToRecipients := [] |} |}] ++ rest.
Proof.
  split; [reflexivity|].
  exact (response_classification anyURL always429 3
           "https://graph.microsoft.com/v1.0/users/x/sendMail"
           {| Message := {| Subject := "s";
                            Body := {| ContentType := "Text"; Content := "b" |};
                            ToRecipients := [] |} |}
           0 initialRetryWait None eq_refl).
Defined.

End RetryFacts.

(** ** The silence notifier *)

Module NotifierFacts.

Import Graph Notifier Samples.

Section WithConfig.

Variable Snapshot : Type.
Variable HasWebhook HasGraph HasLogPath : Snapshot -> bool.

#[local] Abbreviation Task := (Notifier.Task Snapshot).
#[local] Abbreviation Delivery := (Notifier.Delivery Snapshot).
#[local] Abbreviation handleSilenceStart :=
  (Notifier.handleSilenceStart Snapshot HasWebhook HasGraph HasLogPath).
#[local] Abbreviation handleSilenceEnd := (Notifier.handleSilenceEnd Snapshot).
#[local] Abbreviation HandleEvent :=
  (Notifier.HandleEvent Snapshot HasWebhook HasGraph HasLogPath).
#[local] Abbreviation HandleEvents :=
  (Notifier.HandleEvents Snapshot HasWebhook HasGraph HasLogPath).
#[local] Abbreviation enabled :=
  (Notifier.enabled Snapshot HasWebhook HasGraph HasLogPath).
#[local] Abbreviation triggered :=
  (Notifier.triggered Snapshot HasWebhook HasGraph HasLogPath).
#[local] Abbreviation starts := (Notifier.starts Snapshot).
#[local] Abbreviation recoveries := (Notifier.recoveries Snapshot).
#[local] Abbreviation unresolved := (Notifier.unresolved Snapshot).
#[local] Abbreviation entering := (Notifier.entering Snapshot).
#[local] Abbreviation event := (Notifier.event Snapshot).
#[local] Abbreviation startCfg := (Notifier.startCfg Snapshot).
#[local] Abbreviation endCfg := (Notifier.endCfg Snapshot).
#[local] Abbreviation trySendFor :=
  (Notifier.trySendFor Snapshot HasWebhook HasGraph HasLogPath).
#[local] Abbreviation runSections :=
  (Notifier.runSections Snapshot HasWebhook HasGraph HasLogPath).

Lemma starts_app (ch : Channel) (a b : list Task) :
  starts ch (a ++ b) = (starts ch a + starts ch b)%nat.
Proof. unfold Notifier.starts. now rewrite List.filter_app, List.length_app. Qed.

Lemma recoveries_app (ch : Channel) (a b : list Task) :
  recoveries ch (a ++ b) = (recoveries ch a + recoveries ch b)%nat.
Proof.
  unfold Notifier.recoveries. now rewrite List.filter_app, List.length_app.
Qed.

Lemma andThen_fst (r : Result Snapshot) f :
  fst (andThen Snapshot r f) = fst (f (fst r)).
Proof. destruct r as [n ts]; simpl. now destruct (f n). Qed.

Lemma andThen_snd (r : Result Snapshot) f :
  snd (andThen Snapshot r f) = snd r ++ snd (f (fst r)).
Proof. destruct r as [n ts]; simpl. now destruct (f n). Qed.

(** What one call of [handleSilenceStart] does to a channel. *)
Lemma handleSilenceStart_channel cfg durationMs (n : SilenceNotifier) ch :
  let r := handleSilenceStart cfg durationMs n in
  sent ch (fst r) = sent ch n || enabled ch cfg
  /\ starts ch (snd r) = (if negb (sent ch n) && enabled ch cfg then 1 else 0)%nat
  /\ recoveries ch (snd r) = 0%nat
  /\ graphClient (fst r) = graphClient n.
Proof.
  unfold Notifier.handleSilenceStart, trySend, andThen, Notifier.enabled.
  destruct n as [w e l g]; simpl.
  destruct ch, w, e, l, (HasWebhook cfg), (HasGraph cfg), (HasLogPath cfg);
    simpl; auto.
Qed.

(** What [handleSilenceEnd] does to a channel. *)
Lemma handleSilenceEnd_channel cfg totalDurationMs (n : SilenceNotifier) ch :
  let r := handleSilenceEnd cfg totalDurationMs n in
  sent ch (fst r) = false
  /\ recoveries ch (snd r) = (if sent ch n then 1 else 0)%nat
  /\ starts ch (snd r) = 0%nat
  /\ graphClient (fst r) = graphClient n.
Proof.
  unfold Notifier.handleSilenceEnd.
  destruct n as [w e l g]; simpl.
  destruct ch, w, e, l; simpl; auto.
Qed.

(** The first half of [HandleEvent], for any event. *)
Lemma entered_half (d : Delivery) (n : SilenceNotifier) ch :
  let r := if JustEntered (event d)
           then handleSilenceStart (startCfg d) (DurationMs (event d)) n
           else (n, []) in
  let asked := JustEntered (event d) && enabled ch (startCfg d) in
  sent ch (fst r) = sent ch n || asked
  /\ starts ch (snd r) = (if negb (sent ch n) && asked then 1 else 0)%nat
  /\ recoveries ch (snd r) = 0%nat
  /\ graphClient (fst r) = graphClient n.
Proof.
  cbv zeta. destruct (JustEntered (event d)); simpl.
  - apply handleSilenceStart_channel.
  - rewrite orb_false_r, andb_false_r. auto.
Qed.

Lemma HandleEvent_unresolved (d : Delivery) (n : SilenceNotifier) ch :
  unresolved d ->
  let r := HandleEvent d n in
  let asked := JustEntered (event d) && enabled ch (startCfg d) in
  sent ch (fst r) = sent ch n || asked
  /\ starts ch (snd r) = (if negb (sent ch n) && asked then 1 else 0)%nat
  /\ recoveries ch (snd r) = 0%nat
  /\ graphClient (fst r) = graphClient n.
Proof.
  intros R. unfold Notifier.unresolved in R. cbv zeta.
  unfold Notifier.HandleEvent. rewrite R.
  apply (entered_half d n ch).
Qed.

Lemma unresolved_events (ds : list Delivery) (n : SilenceNotifier) ch :
  Forall unresolved ds ->
  let r := HandleEvents ds n in
  sent ch (fst r) = sent ch n || triggered ch ds
  /\ starts ch (snd r)
     = (if negb (sent ch n) && triggered ch ds then 1 else 0)%nat
  /\ recoveries ch (snd r) = 0%nat
  /\ graphClient (fst r) = graphClient n.
Proof.
  intros H. revert n. induction H as [|d ds Hd _ IH]; intros n; simpl.
  - rewrite orb_false_r, andb_false_r. auto.
  - rewrite andThen_fst, andThen_snd, starts_app, recoveries_app.
    destruct (HandleEvent_unresolved d n ch Hd) as (S1 & S2 & S3 & S4).
    destruct (IH (fst (HandleEvent d n))) as (I1 & I2 & I3 & I4).
    rewrite I1, I2, I3, I4, S1, S2, S3, S4.
    destruct (sent ch n),
      (JustEntered (event d) && enabled ch (startCfg d)),
      (triggered ch ds); simpl; auto.
Qed.

Lemma triggered_entering (ch : Channel) (ds : list Delivery) :
  Forall entering ds ->
  triggered ch ds = existsb (fun d => enabled ch (startCfg d)) ds.
Proof.
  induction 1 as [|d ds [E _] _ IH]; simpl; [reflexivity|].
  now rewrite E, IH.
Qed.

(** C1. Events that report the silence, handled one after the other
    within an episode: a channel starts exactly one start notification
    over the whole sequence if its flag was clear and its condition holds
    for some event, and none otherwise; while the flag is set, nothing is
    sent again for the channel. *)
Theorem start_sent_once (ds : list Delivery) (n : SilenceNotifier)
    (ch : Channel) :
  Forall entering ds ->
  starts ch (snd (HandleEvents ds n))
  = (if negb (sent ch n) && existsb (fun d => enabled ch (startCfg d)) ds
     then 1 else 0)%nat.
Proof.
  intros H.
  assert (U : Forall unresolved ds).
  { eapply Forall_impl; [exact H|]. now intros d [_ R]. }
  destruct (unresolved_events ds n ch U) as (_ & S & _).
  now rewrite S, (triggered_entering ch ds H).
Qed.

(** The same under contention: however the [trySend] sections of
    concurrent calls interleave, a channel whose flag was clear starts one
    start notification if one of its sections finds it enabled, and none
    otherwise. *)
Lemma handleSilenceStart_sections cfg durationMs (n : SilenceNotifier) :
  let d := {| Notifier.event := {| JustEntered := true; DurationMs := durationMs;
                                   JustRecovered := false; TotalDurationMs := 0 |};
              Notifier.startCfg := cfg; Notifier.endCfg := cfg |} in
  handleSilenceStart cfg durationMs n
  = runSections [(Webhook, d); (Email, d); (Log, d)] n.
Proof.
  unfold Notifier.handleSilenceStart, Notifier.runSections, Notifier.trySendFor,
    andThen, trySend, Notifier.enabled, Notifier.startTask.
  destruct n as [w e l g]. cbn.
  destruct w, e, l, (HasWebhook cfg), (HasGraph cfg), (HasLogPath cfg);
    reflexivity.
Qed.

Lemma trySendFor_channel (s : Channel * Delivery) (n : SilenceNotifier) ch :
  let r := trySendFor s n in
  let asks := (if decide (fst s = ch) then true else false)
              && enabled ch (startCfg (snd s)) in
  sent ch (fst r) = sent ch n || asks
  /\ starts ch (snd r) = (if negb (sent ch n) && asks then 1 else 0)%nat.
Proof.
  destruct s as [c d]. unfold Notifier.trySendFor, trySend, Notifier.enabled.
  cbn [fst snd].
  destruct n as [w e l g].
  destruct c, ch, w, e, l, (HasWebhook (startCfg d)), (HasGraph (startCfg d)),
    (HasLogPath (startCfg d)); cbn; auto.
Qed.

(** X14. Under contention. However the [trySend] sections of any number of
    calls that report a silence interleave, a channel ends with its flag
    set exactly when it was set before or one of its sections found the
    channel enabled, and exactly one start notification is started for it
    when its flag was clear and some section found it enabled, none
    otherwise. *)
Lemma interleaved_sections (ss : list (Channel * Delivery))
    (n : SilenceNotifier) ch :
  let r := runSections ss n in
  let asked := existsb (fun s => (if decide (fst s = ch) then true else false)
                                 && enabled ch (startCfg (snd s))) ss in
  sent ch (fst r) = sent ch n || asked
  /\ starts ch (snd r) = (if negb (sent ch n) && asked then 1 else 0)%nat.
Proof.
  cbv zeta. revert n.
  induction ss as [|s rest IH]; intros n; cbn [Notifier.runSections existsb fst snd].
  - rewrite orb_false_r, andb_false_r. auto.
  - rewrite andThen_fst, andThen_snd, starts_app.
    destruct (trySendFor_channel s n ch) as (S1 & S2).
    destruct (IH (fst (trySendFor s n))) as (I1 & I2).
    cbv zeta in S1, S2. rewrite I1, I2, S1, S2.
    destruct (sent ch n),
      ((if decide (fst s = ch) then true else false)
       && enabled ch (startCfg (snd s))),
      (existsb _ rest); cbn; auto.
Qed.

(** What the event that ends the episode does to a channel. *)
Lemma HandleEvent_recovered (d : Delivery) (n : SilenceNotifier) ch :
  JustRecovered (event d) = true ->
  let r := HandleEvent d n in
  let fired := sent ch n || JustEntered (event d) && enabled ch (startCfg d) in
  sent ch (fst r) = false
  /\ recoveries ch (snd r) = (if fired then 1 else 0)%nat
  /\ starts ch (snd r) = (if negb (sent ch n) && fired then 1 else 0)%nat
  /\ graphClient (fst r) = graphClient n.
Proof.
  intros R. cbv zeta. unfold Notifier.HandleEvent. rewrite R.
  rewrite andThen_fst, andThen_snd, starts_app, recoveries_app.
  destruct (entered_half d n ch) as (S1 & S2 & S3 & S4).
  match goal with |- context [handleSilenceEnd ?c ?t (fst ?r0)] =>
    destruct (handleSilenceEnd_channel c t (fst r0) ch) as (E1 & E2 & E3 & E4)
  end.
  rewrite E1, E2, E3, E4, S1, S2, S3, S4.
  destruct (sent ch n), (JustEntered (event d) && enabled ch (startCfg d));
    simpl; auto.
Qed.

(** C2. An episode: events that report no recovery, then the event that
    reports it, from a state in which the flag of the channel is clear.
    The last event starts as many recovery notifications for the channel
    as start notifications were started for it in the episode (none or
    one), no recovery is started before, [handleSilenceEnd] starts the
    recovery of a channel exactly when its flag is set, and all three
    flags are clear afterwards. *)
Theorem recovery_iff_start (ds : list Delivery) (d : Delivery)
    (n : SilenceNotifier) (ch : Channel) :
  sent ch n = false ->
  Forall unresolved ds ->
  JustRecovered (event d) = true ->
  let r1 := HandleEvents ds n in
  let r2 := HandleEvent d (fst r1) in
  recoveries ch (snd r1) = 0%nat
  /\ recoveries ch (snd r2) = starts ch (snd r1 ++ snd r2)
  /\ (recoveries ch (snd r2) <= 1)%nat
  /\ (forall cfg totalDurationMs m,
        recoveries ch (snd (handleSilenceEnd cfg totalDurationMs m))
        = (if sent ch m then 1 else 0)%nat)
  /\ (forall c, sent c (fst r2) = false).
Proof.
  intros N U R r1 r2.
  destruct (unresolved_events ds n ch U) as (S1 & S2 & S3 & _).
  destruct (HandleEvent_recovered d (fst r1) ch R) as (_ & E2 & E3 & _).
  fold r1 in S1, S2, S3. fold r2 in E2, E3.
  rewrite starts_app, S2, S3, E2, E3, S1, N. simpl.
  repeat split.
  - destruct (triggered ch ds); simpl; [reflexivity|].
    now destruct (JustEntered (event d) && enabled ch (startCfg d)).
  - destruct (triggered ch ds
              || JustEntered (event d) && enabled ch (startCfg d)); lia.
  - intros cfg t m. apply handleSilenceEnd_channel.
  - intros c. apply (HandleEvent_recovered d (fst r1) c R).
Qed.

End WithConfig.

(** C10. [Reset] clears the three sent flags and keeps the cached mail
    client; [InvalidateGraphClient] drops the cached mail client and keeps
    the three flags; the two commute. *)
Theorem Reset_Invalidate_frame (n : SilenceNotifier) :
  Reset n
  = {| webhookSent := false; emailSent := false; logSent := false;
       graphClient := graphClient n |}
  /\ InvalidateGraphClient n
     = {| webhookSent := webhookSent n; emailSent := emailSent n;
          logSent := logSent n; graphClient := None |}
  /\ (forall ch, sent ch (Reset n) = false
                 /\ sent ch (InvalidateGraphClient n) = sent ch n)
  /\ graphClient (Reset n) = graphClient n
  /\ graphClient (InvalidateGraphClient n) = None
  /\ Reset (InvalidateGraphClient n) = InvalidateGraphClient (Reset n).
Proof.
  repeat split; destruct ch; reflexivity.
Qed.

(** Two reports of the same silence with every channel enabled, then the
    recovery: three starts, three recoveries, in this order. *)
Example duplicate_entered_then_recovered :
  snd (HandleEvents snapshot hasWebhook hasGraph hasLogPath
         [entered allChannels 5000; entered allChannels 5100;
          recovered allChannels 9000] NewSilenceNotifier)
  = [sendSilenceWebhook snapshot allChannels 5000;
     sendSilenceEmail snapshot allChannels 5000;
     logSilenceStart snapshot allChannels;
     sendRecoveryWebhook snapshot allChannels 9000;
     sendRecoveryEmail snapshot allChannels 9000;
     logSilenceEnd snapshot allChannels 9000].
Proof. reflexivity. Qed.

(** The webhook is off when the silence starts and on when it ends: no
    webhook recovery. *)
Example no_recovery_without_start :
  snd (HandleEvents snapshot hasWebhook hasGraph hasLogPath
         [entered {| WebhookURL := ""; LogPath := "/var/log/silence.log";
                     GraphSettings := GraphSettings webhookOnly |} 5000;
          recovered allChannels 9000] NewSilenceNotifier)
  = [logSilenceStart snapshot
       {| WebhookURL := ""; LogPath := "/var/log/silence.log";
          GraphSettings := GraphSettings webhookOnly |};
     logSilenceEnd snapshot allChannels 9000].
Proof. reflexivity. Qed.

Lemma start_sent_once_witness :
  Forall (entering snapshot)
    [entered webhookOnly 5000; entered allChannels 5100; entered allChannels 5200]
  /\ starts snapshot Email
       (snd (HandleEvents snapshot hasWebhook hasGraph hasLogPath
               [entered webhookOnly 5000; entered allChannels 5100;
                entered allChannels 5200] NewSilenceNotifier))
     = 1%nat.
Proof.
  assert (H : Forall (entering snapshot)
                [entered webhookOnly 5000; entered allChannels 5100;
                 entered allChannels 5200])
    by (repeat constructor).
  split; [exact H|].
  exact (start_sent_once snapshot hasWebhook hasGraph hasLogPath _
           NewSilenceNotifier Email H).
Defined.

Lemma recovery_iff_start_witness :
  sent Webhook NewSilenceNotifier = false
  /\ Forall (unresolved snapshot) [entered webhookOnly 5000; entered allChannels 5100]
  /\ JustRecovered (event snapshot (recovered allChannels 9000)) = true
  /\ recoveries snapshot Webhook
       (snd (HandleEvent snapshot hasWebhook hasGraph hasLogPath
               (recovered allChannels 9000)
               (fst (HandleEvents snapshot hasWebhook hasGraph hasLogPath
                       [entered webhookOnly 5000; entered allChannels 5100]
                       NewSilenceNotifier))))
     = 1%nat.
Proof.
  assert (H1 : sent Webhook NewSilenceNotifier = false) by reflexivity.
  assert (H2 : Forall (unresolved snapshot)
                 [entered webhookOnly 5000; entered allChannels 5100])
    by (repeat constructor).
  assert (H3 : JustRecovered (event snapshot (recovered allChannels 9000)) = true)
    by reflexivity.
  split; [exact H1|]. split; [exact H2|]. split; [exact H3|].
  exact (proj1 (proj2 (recovery_iff_start snapshot hasWebhook hasGraph hasLogPath
                         _ (recovered allChannels 9000) NewSilenceNotifier
                         Webhook H1 H2 H3))).
Defined.

End NotifierFacts.

(** ** Signs of [float64] results *)

Module Float64Facts.

Import SpecFloat Float64.

Lemma shr_1_nonneg mrs : 0 <= shr_m mrs -> 0 <= shr_m (shr_1 mrs).
Proof. destruct mrs as [[|[p|p|]|p] r s]; simpl; lia. Qed.

Lemma iter_pos_nonneg p : forall mrs,
  0 <= shr_m mrs -> 0 <= shr_m (iter_pos shr_1 p mrs).
Proof.
  induction p as [p IH|p IH|]; intros mrs H; simpl;
    auto using shr_1_nonneg.
Qed.

Lemma shr_fexp_nonneg m e l :
  0 <= m -> 0 <= shr_m (fst (shr_fexp prec emax m e l)).
Proof.
  intros H. unfold shr_fexp, shr.
  assert (R : 0 <= shr_m (shr_record_of_loc m l))
    by (destruct l as [|[]]; exact H).
  destruct (fexp prec emax (Zdigits2 m + e) - e); [exact R| |exact R].
  apply iter_pos_nonneg, R.
Qed.

Lemma round_nearest_even_nonneg m l : 0 <= m -> 0 <= round_nearest_even m l.
Proof.
  intros H. destruct l as [|[]]; simpl; try lia. destruct (Z.even m); lia.
Qed.

(** Rounding keeps the sign and gives no NaN. *)
Lemma binary_round_aux_signed s m e l :
  0 <= m -> signed s (binary_round_aux prec emax s m e l).
Proof.
  intros H. unfold binary_round_aux.
  pose proof (shr_fexp_nonneg m e l H) as H1.
  destruct (shr_fexp prec emax m e l) as [mrs1 e1]. cbn [fst] in H1.
  pose proof (shr_fexp_nonneg _ e1 loc_Exact
                (round_nearest_even_nonneg _ (loc_of_shr_record mrs1) H1)) as H2.
  destruct (shr_fexp prec emax _ e1 loc_Exact) as [mrs2 e2]. cbn [fst] in H2.
  destruct (shr_m mrs2) as [|p|p]; [exact I| |lia].
  destruct (e2 <=? emax - prec); reflexivity.
Qed.

Lemma binary_round_signed s m e : signed s (binary_round prec emax s m e).
Proof.
  unfold binary_round. destruct (shl_align _ _ _) as [mz ez].
  apply binary_round_aux_signed. lia.
Qed.

Lemma ofInt_nonpos n : n <= 0 -> signed true (ofInt n).
Proof.
  intros H. unfold ofInt, binary_normalize. destruct n; [exact I|lia|].
  apply binary_round_signed.
Qed.

Lemma add_signed s x y : signed s x -> signed s y -> signed s (add x y).
Proof.
  destruct x as [sx|sx| |sx mx ex], y as [sy|sy| |sy my ey]; simpl;
    intros Hx Hy; subst; try contradiction; try reflexivity; try exact I.
  - destruct sx, sy; exact I.
  - destruct s; reflexivity.
  - unfold binary_normalize.
    destruct s; simpl; apply binary_round_signed.
Qed.

Lemma div_eucl_nonneg a b : 0 <= a -> 0 < b -> 0 <= fst (Z.div_eucl a b).
Proof.
  intros A B. change (fst (Z.div_eucl a b)) with (a / b).
  apply Z.div_pos; assumption.
Qed.

(** Dividing by a positive number keeps the sign. *)
Lemma div_signed s x my ey :
  signed s x -> signed s (div x (S754_finite false my ey)).
Proof.
  destruct x as [sx|sx| |sx mx ex]; simpl; intros Hx; subst;
    try contradiction; try exact I.
  - apply xorb_false_r.
  - unfold SFdiv_core_binary.
    set (m' := match _ - _ - _ with Z0 => _ | Zpos _ => _ | Zneg _ => _ end).
    assert (M : 0 <= m').
    { subst m'. destruct (_ - _ - _); try lia. apply Z.shiftl_nonneg. lia. }
    pose proof (div_eucl_nonneg m' (Zpos my) M ltac:(lia)) as Q.
    destruct (Z.div_eucl m' (Zpos my)) as [q r]. cbn [fst] in Q.
    rewrite xorb_false_r. apply binary_round_aux_signed. exact Q.
Qed.

Lemma toInt_negative x : signed true x -> toInt x <= 0.
Proof.
  destruct x as [sx|sx| |sx mx ex]; simpl; intros H; subst;
    try contradiction; try lia.
  destruct ex as [|p|p].
  - pose proof (proj2 (Z.shiftl_nonneg (Zpos mx) 0) ltac:(lia)). lia.
  - pose proof (proj2 (Z.shiftl_nonneg (Zpos mx) (Zpos p)) ltac:(lia)). lia.
  - pose proof (proj2 (Z.shiftr_nonneg (Zpos mx) (Zpos p)) ltac:(lia)). lia.
Qed.

Lemma allFrom_spec check fuel : forall n k,
  Range.allFrom check fuel n = true ->
  n <= k < n + Z.of_nat fuel -> check k = true.
Proof.
  induction fuel as [|f IH]; intros n k H R.
  - simpl in R. lia.
  - cbn [Range.allFrom] in H. apply andb_prop in H. destruct H as [H1 H2].
    destruct (Z.eq_dec k n) as [->|N]; [exact H1|].
    apply (IH (n + 1)); [exact H2|lia].
Qed.

End Float64Facts.

(** ** The expiry computation *)

Module ExpiryFacts.

Import Graph Expiry Samples StringsFacts.

Lemma Sub_exact t u :
  minDuration <= instant t - instant u <= maxDuration ->
  Sub t u = instant t - instant u.
Proof.
  intros R. unfold Sub. cbv zeta.
  destruct (Z.ltb_spec (instant t - instant u) minDuration); [lia|].
  destruct (Z.ltb_spec maxDuration (instant t - instant u)); lia.
Qed.

Lemma Sub_nonpos t u : instant t <= instant u -> Sub t u <= 0.
Proof.
  intros L. unfold Sub, minDuration, maxDuration. cbv zeta.
  destruct (Z.ltb_spec (instant t - instant u) (- 2 ^ 63)); [lia|].
  destruct (Z.ltb_spec (2 ^ 63 - 1) (instant t - instant u)); lia.
Qed.

(** The hours of a duration that is not positive are not positive. *)
Lemma Hours_nonpos (d : Z) : d <= 0 -> Float64.signed true (Hours d).
Proof.
  intros L. unfold Hours. cbv zeta.
  assert (H0 : 0 < Hour) by reflexivity.
  assert (Q : Z.quot d Hour <= 0).
  { rewrite <- (Z.opp_involutive d), Z.quot_opp_l by lia.
    pose proof (Z.quot_pos (- d) Hour). lia. }
  assert (R : Z.rem d Hour <= 0).
  { rewrite <- (Z.opp_involutive d), Z.rem_opp_l by lia.
    pose proof (Z.rem_nonneg (- d) Hour). lia. }
  apply Float64Facts.add_signed.
  - now apply Float64Facts.ofInt_nonpos.
  - assert (E : exists m e, Float64.ofInt (60 * 60 * 1000000000)
                              = SpecFloat.S754_finite false m e)
      by (vm_compute; eauto).
    destruct E as (m & e & ->).
    apply Float64Facts.div_signed. now apply Float64Facts.ofInt_nonpos.
Qed.

Lemma daysLeftOf_expired (until : Z) : until <= 0 -> daysLeftOf until = 0.
Proof.
  intros L. unfold daysLeftOf. cbv zeta.
  assert (T : Float64.toInt (Float64.div (Hours until) (Float64.ofInt 24)) <= 0).
  { apply Float64Facts.toInt_negative.
    assert (E : exists m e, Float64.ofInt 24 = SpecFloat.S754_finite false m e)
      by (vm_compute; eauto).
    destruct E as (m & e & ->).
    apply Float64Facts.div_signed. now apply Hours_nonpos. }
  destruct (Z.ltb_spec
              (Float64.toInt (Float64.div (Hours until) (Float64.ofInt 24))) 0);
    lia.
Qed.

Lemma daysLeftOf_clamped (until : Z) :
  daysLeftOf until
  = Z.max 0 (Float64.toInt (Float64.div (Hours until) (Float64.ofInt 24))).
Proof.
  unfold daysLeftOf. cbv zeta.
  destruct (Z.ltb_spec
              (Float64.toInt (Float64.div (Hours until) (Float64.ofInt 24))) 0);
    lia.
Qed.

(** Whole days, and the last nanosecond before them, computed for every
    number of days up to 1000. *)
Lemma whole_days (n : Z) : 0 <= n <= 1000 -> daysLeftOf (n * Day) = n.
Proof.
  intros R. apply Z.eqb_eq.
  apply (Float64Facts.allFrom_spec (fun n => daysLeftOf (n * Day) =? n)
           1001 0 n); [vm_compute; reflexivity|lia].
Qed.

Lemma last_nanosecond_exact (n : Z) :
  1 <= n <= 170 -> daysLeftOf (n * Day - 1) = n - 1.
Proof.
  intros R. apply Z.eqb_eq.
  apply (Float64Facts.allFrom_spec
           (fun n => daysLeftOf (n * Day - 1) =? n - 1) 170 1 n);
    [vm_compute; reflexivity|lia].
Qed.

Lemma last_nanosecond_rounded (n : Z) :
  171 <= n <= 1000 -> daysLeftOf (n * Day - 1) = n.
Proof.
  intros R. apply Z.eqb_eq.
  apply (Float64Facts.allFrom_spec
           (fun n => daysLeftOf (n * Day - 1) =? n) 830 171 n);
    [vm_compute; reflexivity|lia].
Qed.

(** 171 days less one nanosecond: the exact quotient of the hours by 24
    has the floor 170, the [float64] sum of [Hours] is 4104 and the code
    reports 171 days. *)
Lemma days_left_not_exact_floor :
  Until now2029 {| instant := instant now2029 + 171 * Day - 1; zone := 0 |}
  = 171 * Day - 1
  /\ (171 * Day - 1) / Day = 170
  /\ Hours (171 * Day - 1) = Float64.ofInt 4104
  /\ DaysLeft (expiryInfo sampleFormat now2029
                 {| instant := instant now2029 + 171 * Day - 1; zone := 0 |})
     = 171.
Proof. vm_compute. repeat split. Qed.

(** C6, as the code has it. For the expiry [earliest] and the clock reading
    [now], [DaysLeft] is the [float64] quotient of [Hours] by 24, converted
    to [int] and replaced by 0 when negative; it is never negative;
    [ExpiresSoon] holds exactly when [DaysLeft <= 30]; an expiry in exactly
    [n] days gives [n] for every [n] from 0 to 1000, so 15 days give 15 and
    true, 45 days give 45 and false; an expiry that is not in the future
    gives 0. [DaysLeft] is not always the floor of the exact quotient: one
    nanosecond before [n] whole days it is [n - 1] for [n] up to 170 and
    [n] from 171 days on (to 1000 days), where the sum in [Hours] rounds
    up to the whole hour. *)
Theorem days_left (Format : Time -> string) (now earliest : Time) :
  let info := expiryInfo Format now earliest in
  let until := Until now earliest in
  DaysLeft info
  = Z.max 0 (Float64.toInt (Float64.div (Hours until) (Float64.ofInt 24)))
  /\ 0 <= DaysLeft info
  /\ (ExpiresSoon info = true <-> DaysLeft info <= 30)
  /\ (forall n, 0 <= n <= 1000 ->
        instant earliest - instant now = n * Day ->
        DaysLeft info = n /\ ExpiresSoon info = (n <=? 30))
  /\ (instant earliest - instant now = 15 * Day ->
      DaysLeft info = 15 /\ ExpiresSoon info = true)
  /\ (instant earliest - instant now = 45 * Day ->
      DaysLeft info = 45 /\ ExpiresSoon info = false)
  /\ (instant earliest <= instant now -> DaysLeft info = 0)
  /\ (forall n, 1 <= n <= 170 ->
        instant earliest - instant now = n * Day - 1 ->
        DaysLeft info = n - 1)
  /\ (forall n, 171 <= n <= 1000 ->
        instant earliest - instant now = n * Day - 1 ->
        DaysLeft info = n).
Proof.
  intros info until. subst info. unfold expiryInfo. cbn [DaysLeft ExpiresSoon].
  fold until.
  assert (D : Day = 86400000000000) by reflexivity.
  assert (U : forall d, - 2 ^ 63 <= d <= 2 ^ 63 - 1 ->
                instant earliest - instant now = d -> until = d).
  { intros d R E. subst until. unfold Until.
    rewrite Sub_exact by (unfold minDuration, maxDuration; lia). exact E. }
  assert (W : forall n, 0 <= n <= 1000 ->
                instant earliest - instant now = n * Day ->
                daysLeftOf until = n
                /\ (daysLeftOf until <=? expiryWarningDays) = (n <=? 30)).
  { intros n R E. rewrite (U (n * Day)) by (auto; lia).
    rewrite (whole_days n R). split; reflexivity. }
  split; [apply daysLeftOf_clamped|].
  split; [rewrite daysLeftOf_clamped; lia|].
  split; [unfold expiryWarningDays; rewrite Z.leb_le; tauto|].
  split; [exact W|].
  split; [intros E; apply (W 15); [lia|exact E]|].
  split; [intros E; apply (W 45); [lia|exact E]|].
  split; [|split].
  - intros L. apply daysLeftOf_expired. subst until. now apply Sub_nonpos.
  - intros n R E. rewrite (U (n * Day - 1)) by (auto; lia).
    now apply last_nanosecond_exact.
  - intros n R E. rewrite (U (n * Day - 1)) by (auto; lia).
    now apply last_nanosecond_rounded.
Qed.

(** A secret that expires on January 1, 2030, seen on January 1, 2029. *)
Example days_left_one_year :
  expiryInfo sampleFormat now2029 t2030
  = {| ExpiresAt := "2030-01-01T00:00:00Z"; ExpiresSoon := false;
       DaysLeft := 365; Error := "" |}.
Proof. vm_compute. reflexivity. Qed.

(** One nanosecond short of 15 days is 14 days. *)
Example days_left_just_under_15 : daysLeftOf (15 * Day - 1) = 14.
Proof. vm_compute. reflexivity. Qed.

Section Scan.

Variable Parse : string -> option Time.
Variable Format : Time -> string.

Lemma scanCredentials_fold creds earliest :
  scanCredentials Parse creds earliest
  = fold_left pick (parsedDates Parse creds) earliest.
Proof.
  revert earliest. induction creds as [|cred rest IH]; intros earliest.
  - reflexivity.
  - unfold parsedDates. cbn [scanCredentials omap list_omap].
    fold (parsedDates Parse rest).
    destruct (Strings.isEmpty (EndDateTime cred)); [apply IH|].
    destruct (Parse (EndDateTime cred)) as [expiry|]; [|apply IH].
    cbn [fold_left]. apply IH.
Qed.

(** Once the variable holds a real instant, the loop keeps the least
    instant seen. *)
Lemma fold_pick_nonzero dates earliest :
  IsZero earliest = false ->
  Forall (fun t => IsZero t = false) dates ->
  let r := fold_left pick dates earliest in
  (r = earliest \/ In r dates)
  /\ IsZero r = false
  /\ instant r <= instant earliest
  /\ Forall (fun u => instant r <= instant u) dates.
Proof.
  intros Z0 H. revert earliest Z0.
  induction H as [|x rest Zx _ IH]; intros earliest Z0; cbn [fold_left].
  - repeat split; auto. lia.
  - assert (E : pick earliest x
                = if instant x <? instant earliest then x else earliest).
    { unfold pick, Before. now rewrite Z0. }
    rewrite E. clear E.
    destruct (Z.ltb_spec (instant x) (instant earliest)) as [L|G].
    + destruct (IH x Zx) as (I & N & Lx & F).
      split; [|split; [|split]]; auto.
      * destruct I as [I|I]; right; [left; now symmetry|now right].
      * lia.
    + destruct (IH earliest Z0) as (I & N & Le & F).
      split; [|split; [|split]]; auto.
      * destruct I as [I|I]; [now left|right; now right].
      * constructor; [lia|exact F].
Qed.

Lemma scan_earliest creds :
  let dates := parsedDates Parse creds in
  let earliest := scanCredentials Parse creds zeroTime in
  (dates = [] -> earliest = zeroTime)
  /\ (dates <> [] -> Forall (fun t => IsZero t = false) dates ->
      In earliest dates
      /\ IsZero earliest = false
      /\ Forall (fun u => instant earliest <= instant u) dates).
Proof.
  intros dates earliest. subst earliest.
  rewrite scanCredentials_fold. fold dates.
  split.
  - intros ->. reflexivity.
  - intros NE H. destruct dates as [|x rest]; [now elim NE|].
    inversion H as [|? ? Zx Hrest]; subst.
    cbn [fold_left].
    change (pick zeroTime x) with x.
    destruct (fold_pick_nonzero rest x Zx Hrest) as (I & N & Lx & F).
    split; [|split]; auto.
    destruct I as [I|I]; [left; now symmetry|now right].
Qed.

End Scan.

End ExpiryFacts.

(** ** The expiry checker with the completion signal *)

Module CheckerFacts.

Import Graph Expiry Checker Samples ExpiryFacts.

Section StandardLibrary.

Variable Parse : string -> option Time.
Variable Format : Time -> string.
Variable Unmarshal : string -> applicationResponse + error.

#[local] Abbreviation exec := (Checker.exec Parse Format Unmarshal).
#[local] Abbreviation check := (Checker.check Parse Format Unmarshal).
#[local] Abbreviation runThread := (Checker.runThread Parse Format Unmarshal).
#[local] Abbreviation checkFetched :=
  (Checker.checkFetched Parse Format Unmarshal).
#[local] Abbreviation call := (Checker.call Parse Format Unmarshal).
#[local] Abbreviation cycles := (Checker.cycles Parse Format Unmarshal).
#[local] Abbreviation afterStart := (Checker.afterStart Parse Format Unmarshal).

(** What [check] leaves of the state. *)
Lemma check_frame env sh :
  let sh' := check env sh in
  cfg (obj sh') = cfg (obj sh)
  /\ running (obj sh') = running (obj sh)
  /\ stopCh (obj sh') = stopCh (obj sh)
  /\ doneCh (obj sh') = doneCh (obj sh)
  /\ checking (obj sh') = false
  /\ lastCheck (obj sh') = nowStore env
  /\ cachedInfo (obj sh')
     = snd (checkFetch Parse Format Unmarshal (cfg (obj sh)) (nowFetch env)
              (outcome env) (tokenSource (obj sh)))
  /\ chans sh' = fst (Chan.trySend (chans sh) (doneCh (obj sh))).
Proof.
  unfold Checker.check, checkBegin, Checker.checkFetched, checkStore, checkEnd,
    checkSignal.
  cbn [obj chans cfg tokenSource].
  destruct (checkFetch Parse Format Unmarshal (cfg (obj sh)) (nowFetch env)
              (outcome env) (tokenSource (obj sh))) as [ts info].
  cbn. repeat split.
Qed.

(** A configured checker that gets a 200 with decoded credentials stores
    what [expiryOf] computes from them. *)
Lemma check_stores_expiryOf env sh g body resp :
  cfg (obj sh) = Some g ->
  notConfigured (Some g) = false ->
  outcome env = ApiResponse 200 body ->
  Unmarshal body = inl resp ->
  GetInfo (check env sh) = expiryOf Parse Format (nowFetch env) resp.
Proof.
  intros C N O U. unfold GetInfo.
  destruct (check_frame env sh) as (_ & _ & _ & _ & _ & _ & F & _).
  cbv zeta in F. rewrite F, C, O.
  unfold checkFetch. rewrite N.
  assert (Q : queryExpiry Parse Format Unmarshal (nowFetch env)
                (ApiResponse 200 body)
              = inl (expiryOf Parse Format (nowFetch env) resp)).
  { cbn. now rewrite U. }
  unfold fetchExpiryInfo, GetTokenSource.
  cbn [notConfigured] in N. rewrite N, Q.
  now destruct (tokenSource (obj sh)).
Qed.

(** X24. Where the scan is right. Let [dates] be the end-dates that are not
    empty and parse. If there is none, the result is the condition "no
    password credentials found" (an [Error] string in a value returned
    without error). If there are some and none of them is the zero instant
    of [time.Time] (January 1 of year 1, 00:00:00 UTC, which the loop uses
    for "nothing found yet"), the expiry reported is one of them and no
    other is earlier. In both cases the result is what a check of a
    configured checker caches when the API answers 200 with these
    credentials. *)
Theorem earliest_expiry (creds : list passwordCredential) (now : Time) :
  let dates := parsedDates Parse creds in
  let earliest := scanCredentials Parse creds zeroTime in
  let info := expiryOf Parse Format now {| PasswordCredentials := creds |} in
  (dates <> [] -> Forall (fun t => IsZero t = false) dates ->
     In earliest dates
     /\ Forall (fun u => instant earliest <= instant u) dates
     /\ info = expiryInfo Format now earliest)
  /\ (dates = [] -> info = errorInfo "no password credentials found")
  /\ (forall env sh g body,
        cfg (obj sh) = Some g ->
        notConfigured (Some g) = false ->
        outcome env = ApiResponse 200 body ->
        nowFetch env = now ->
        Unmarshal body = inl {| PasswordCredentials := creds |} ->
        GetInfo (check env sh) = info).
Proof.
  intros dates earliest info.
  destruct (scan_earliest Parse creds) as [E0 E1].
  fold dates in E0, E1. fold earliest in E0, E1.
  split; [|split].
  - intros NE NZ. destruct (E1 NE NZ) as (I & Z0 & F).
    split; [exact I|]. split; [exact F|].
    subst info. unfold expiryOf. cbn [PasswordCredentials].
    fold earliest. now rewrite Z0.
  - intros EM. subst info. unfold expiryOf. cbn [PasswordCredentials].
    fold earliest. now rewrite (E0 EM).
  - intros env sh g body C N O T U.
    now rewrite (check_stores_expiryOf env sh g body _ C N O U), T.
Qed.

(** *** One goroutine at a time *)

Lemma runThread_step fuel pc env sh pc' sh' started obs :
  exec pc env sh = Some (pc', sh', started, obs) ->
  runThread (S fuel) pc env sh
  = let '(pc'', sh'', started', obs') := runThread fuel pc' env sh' in
    (pc'', sh'', started ++ started', obs ++ obs').
Proof.
  intros E. unfold Checker.runThread. cbn [Sched.runThread]. now rewrite E.
Qed.

Lemma exec_AtFetch g done k env sh :
  exec (AtFetch g done k) env sh
  = Some (AtStore (snd (checkFetched g env sh)) done k,
          fst (checkFetched g env sh), [], []).
Proof.
  cbn [Checker.exec]. now destruct (checkFetched g env sh).
Qed.

Lemma check_steps env sh :
  check env sh
  = checkSignal (doneCh (obj sh))
      (checkEnd
         (checkStore
            (snd (checkFetched (cfg (obj sh)) env (fst (fst (checkBegin sh)))))
            (nowStore env)
            (fst (checkFetched (cfg (obj sh)) env (fst (fst (checkBegin sh))))))).
Proof.
  unfold Checker.check. cbn [checkBegin fst snd].
  now destruct (checkFetched _ _ _).
Qed.

Lemma check_cachedInfo env sh :
  cachedInfo (obj (check env sh))
  = snd (checkFetched (cfg (obj sh)) env (fst (fst (checkBegin sh)))).
Proof. rewrite check_steps. reflexivity. Qed.

(** A goroutine that enters [check] alone runs it through in five
    steps. *)
Lemma runThread_check fuel k env sh :
  runThread (5 + fuel) (AtCheck k) env sh
  = let '(pc, sh', started, obs) := runThread fuel (after k) env (check env sh) in
    (pc, sh', started,
     Began :: Stored (cachedInfo (obj (check env sh))) :: obs).
Proof.
  rewrite check_cachedInfo, check_steps.
  cbn [Nat.add].
  erewrite runThread_step by reflexivity.
  erewrite runThread_step by apply exec_AtFetch.
  erewrite runThread_step by reflexivity.
  erewrite runThread_step by reflexivity.
  erewrite runThread_step by reflexivity.
  cbn [fst snd checkBegin].
  destruct (runThread fuel (after k) env _) as [[[pc sh'] started] obs].
  reflexivity.
Qed.

Lemma lookup_two_fresh_0 (h : list Chan.chan) :
  ((h ++ [Chan.fresh]) ++ [Chan.fresh]) !! length h = Some Chan.fresh.
Proof.
  rewrite lookup_app_l by (rewrite length_app; simpl; lia).
  now rewrite list_lookup_middle.
Qed.

Lemma lookup_two_fresh_1 (h : list Chan.chan) :
  ((h ++ [Chan.fresh]) ++ [Chan.fresh]) !! length (h ++ [Chan.fresh])
  = Some Chan.fresh.
Proof. now rewrite list_lookup_middle. Qed.

Lemma isClosed_trySend (h : list Chan.chan) (d c : option nat) :
  Chan.isClosed (fst (Chan.trySend h d)) c = Chan.isClosed h c.
Proof.
  unfold Chan.trySend.
  destruct d as [i|]; [|reflexivity].
  destruct (h !! i) as [ch|] eqn:L; [|reflexivity].
  destruct (Chan.recvq ch) as [|q]; [reflexivity|].
  cbn [fst]. unfold Chan.isClosed.
  destruct c as [j|]; [|reflexivity].
  destruct (decide (i = j)) as [->|N].
  - rewrite list_lookup_insert_eq by (now apply lookup_lt_Some in L).
    now rewrite L.
  - now rewrite list_lookup_insert_ne.
Qed.

Lemma afterStart_state env sh :
  running (obj sh) = false ->
  let sh1 := afterStart env sh in
  running (obj sh1) = true
  /\ checking (obj sh1) = false
  /\ lastCheck (obj sh1) = nowStore env
  /\ cfg (obj sh1) = cfg (obj sh)
  /\ stopCh (obj sh1) = Some (length (chans sh))
  /\ chans sh1 = (chans sh ++ [Chan.fresh]) ++ [Chan.fresh].
Proof.
  intros R. unfold Checker.afterStart, startLocked. rewrite R.
  cbn [Chan.make].
  match goal with |- context [check env ?s] =>
    destruct (check_frame env s) as (F1 & F2 & F3 & F4 & F5 & F6 & _ & F8)
  end.
  cbn [obj chans cfg running stopCh doneCh] in *.
  cbv zeta. rewrite F1, F2, F3, F5, F6, F8.
  repeat split.
  unfold Chan.trySend. now rewrite lookup_two_fresh_1.
Qed.

Lemma call_Start_stopped env sh :
  running (obj sh) = false ->
  call Start env sh
  = (Returned, afterStart env sh, [AtSelect],
     [Began; Stored (cachedInfo (obj (afterStart env sh)))]).
Proof.
  intros R. unfold Checker.call, Checker.afterStart. cbn [entry].
  assert (E : exists sh1, startLocked sh = Some sh1).
  { unfold startLocked. rewrite R. cbn [Chan.make]. eauto. }
  destruct E as [sh1 E]. rewrite E.
  change 8%nat with (1 + (5 + 2))%nat.
  erewrite runThread_step by (cbn [Checker.exec]; rewrite E; reflexivity).
  rewrite runThread_check. reflexivity.
Qed.

Lemma call_Start_running env sh :
  running (obj sh) = true -> call Start env sh = (Returned, sh, [], []).
Proof.
  intros R. unfold Checker.call, Checker.runThread. cbn.
  unfold startLocked. now rewrite R.
Qed.

Lemma call_Stop_stopped env sh :
  running (obj sh) = false -> call Stop env sh = (Returned, sh, [], [StopNoop]).
Proof.
  intros R. unfold Checker.call, Checker.runThread. cbn.
  unfold stopLocked. now rewrite R.
Qed.

Lemma call_Stop_running env sh stop :
  running (obj sh) = true ->
  checking (obj sh) = false ->
  stopCh (obj sh) = Some stop ->
  chans sh !! stop = Some Chan.fresh ->
  call Stop env sh = (Returned, afterStop sh, [], [StopReturned])
  /\ running (obj (afterStop sh)) = false
  /\ Chan.isClosed (chans (afterStop sh)) (Some stop) = true.
Proof.
  intros R C HS L.
  assert (E : stopLocked sh
              = Stopped {| obj := {| cfg := cfg (obj sh);
                                     tokenSource := tokenSource (obj sh);
                                     cachedInfo := cachedInfo (obj sh);
                                     lastCheck := lastCheck (obj sh);
                                     stopCh := stopCh (obj sh);
                                     doneCh := doneCh (obj sh);
                                     running := false;
                                     checking := checking (obj sh) |};
                           chans := <[stop := {| Chan.closed := true;
                                                 Chan.recvq := 0;
                                                 Chan.handed := 0 |}]>
                                      (chans sh) |} None).
  { unfold stopLocked, Chan.close. rewrite R, HS, L, C. reflexivity. }
  unfold Checker.call, Checker.runThread, afterStop. cbn. rewrite E.
  repeat split.
  unfold Chan.isClosed. cbn [chans].
  rewrite list_lookup_insert_eq; [reflexivity|].
  now apply lookup_lt_Some in L.
Qed.

(** The background loop while the checker runs: it waits in [select], and
    a tick makes it run one check and wait again; once the channel is
    closed it returns. *)
Lemma loop_waits env sh stop :
  stopCh (obj sh) = Some stop ->
  Chan.isClosed (chans sh) (Some stop) = false ->
  runThread 8 AtSelect env sh = (InSelect (Some stop) false, sh, [], []).
Proof.
  intros HS C. unfold Checker.runThread.
  cbn [Sched.runThread Checker.exec]. rewrite HS.
  cbn [Sched.runThread Checker.exec andb]. now rewrite C.
Qed.

Lemma loop_checks env sh stop :
  stopCh (obj sh) = Some stop ->
  Chan.isClosed (chans sh) (Some stop) = false ->
  runThread 8 (InSelect (Some stop) true) env sh
  = (InSelect (Some stop) false, check env sh, [],
     [Began; Stored (cachedInfo (obj (check env sh)))]).
Proof.
  intros HS C.
  change 8%nat with (1 + (5 + 2))%nat.
  erewrite runThread_step
    by (cbn [Checker.exec]; rewrite C; reflexivity).
  rewrite runThread_check.
  destruct (check_frame env sh) as (_ & _ & F3 & _ & _ & _ & _ & F8).
  cbv zeta in F3, F8.
  unfold Checker.runThread. cbn [after Sched.runThread Checker.exec].
  rewrite F3, HS, F8, isClosed_trySend, C. reflexivity.
Qed.

Lemma loop_exits env sh stop :
  Chan.isClosed (chans sh) (Some stop) = true ->
  exec (InSelect (Some stop) false) env sh = Some (Returned, sh, [], []).
Proof. intros C. cbn [Checker.exec andb]. now rewrite C. Qed.

Lemma cycle_stopped env sh :
  running (obj sh) = false ->
  running (obj (stateAfter (call Stop env (stateAfter (call Start env sh)))))
  = false.
Proof.
  intros R. rewrite call_Start_stopped by assumption.
  destruct (afterStart_state env sh R) as (A1 & A2 & _ & _ & A5 & A6).
  cbv zeta in *. cbn [stateAfter fst snd].
  destruct (call_Stop_running env (afterStart env sh) (length (chans sh)))
    as (E & R' & _); auto.
  { rewrite A6. apply lookup_two_fresh_0. }
  now rewrite E.
Qed.

Lemma cycles_stopped k env sh :
  running (obj sh) = false -> running (obj (cycles k env sh)) = false.
Proof.
  revert sh. induction k as [|k IH]; intros sh R; [exact R|].
  cbn [Checker.cycles]. apply IH. now apply cycle_stopped.
Qed.

(** X20. The life cycle of this revision, each call running alone. From a
    stopped checker and after any number [k] of [Start]/[Stop] cycles:
    the checker is stopped and [Stop] does nothing; [Start] stores the
    result of one check, sets [running], and starts the background loop;
    a second [Start] does nothing; the loop waits on an open channel and
    runs one check at every tick; [Stop] clears [running] and closes the
    channel, on which the loop returns. *)
Theorem start_stop_cycles (k : nat) (env : Env) (sh : Shared) :
  running (obj sh) = false ->
  let sh0 := cycles k env sh in
  let sh1 := stateAfter (call Start env sh0) in
  let sh2 := stateAfter (call Stop env sh1) in
  running (obj sh0) = false
  /\ call Stop env sh0 = (Returned, sh0, [], [StopNoop])
  /\ call Start env sh0 = (Returned, sh1, [AtSelect], [Began; Stored (GetInfo sh1)])
  /\ running (obj sh1) = true
  /\ lastCheck (obj sh1) = nowStore env
  /\ call Start env sh1 = (Returned, sh1, [], [])
  /\ (exists stop,
        stopCh (obj sh1) = Some stop
        /\ runThread 8 AtSelect env sh1 = (InSelect (Some stop) false, sh1, [], [])
        /\ (forall env',
              runThread 8 (InSelect (Some stop) true) env' sh1
              = (InSelect (Some stop) false, check env' sh1, [],
                 [Began; Stored (GetInfo (check env' sh1))])
              /\ lastCheck (obj (check env' sh1)) = nowStore env')
        /\ exec (InSelect (Some stop) false) env sh2
           = Some (Returned, sh2, [], []))
  /\ call Stop env sh1 = (Returned, sh2, [], [StopReturned])
  /\ running (obj sh2) = false.
Proof.
  intros R sh0 sh1 sh2.
  assert (R0 : running (obj sh0) = false) by now apply cycles_stopped.
  assert (E1 : call Start env sh0
               = (Returned, sh1, [AtSelect], [Began; Stored (GetInfo sh1)])).
  { subst sh1. now rewrite call_Start_stopped. }
  assert (S1 : sh1 = afterStart env sh0).
  { subst sh1. now rewrite call_Start_stopped. }
  destruct (afterStart_state env sh0 R0) as (A1 & A2 & A3 & _ & A5 & A6).
  cbv zeta in *. rewrite <- S1 in *.
  assert (L : chans sh1 !! length (chans sh0) = Some Chan.fresh).
  { rewrite A6. apply lookup_two_fresh_0. }
  assert (C : Chan.isClosed (chans sh1) (Some (length (chans sh0))) = false).
  { unfold Chan.isClosed. now rewrite L. }
  destruct (call_Stop_running env sh1 (length (chans sh0)) A1 A2 A5 L)
    as (E2 & R2 & C2).
  assert (S2 : sh2 = afterStop sh1) by (subst sh2; now rewrite E2).
  rewrite <- S2 in *.
  split; [exact R0|]. split; [now apply call_Stop_stopped|].
  split; [exact E1|]. split; [exact A1|]. split; [exact A3|].
  split; [now apply call_Start_running|].
  split; [|split; [exact E2|exact R2]].
  exists (length (chans sh0)).
  split; [exact A5|]. split; [now apply loop_waits|].
  split; [|now apply loop_exits].
  intros env'. split; [now apply loop_checks|].
  apply (check_frame env' sh1).
Qed.

(** In its locked section, [Stop] does not return while [checking] is
    set: it goes on to the receive on [doneCh]. *)
Lemma Stop_waits_while_checking env sh stop done :
  running (obj sh) = true ->
  checking (obj sh) = true ->
  stopCh (obj sh) = Some stop ->
  doneCh (obj sh) = Some done ->
  Chan.isClosed (chans sh) (Some stop) = false ->
  (stop < length (chans sh))%nat ->
  exists sh', exec AtStop env sh = Some (AtReceive done, sh', [], [])
              /\ running (obj sh') = false.
Proof.
  intros R C HS HD O B.
  destruct (lookup_lt_is_Some_2 (chans sh) stop B) as [ch L].
  unfold Chan.isClosed in O. rewrite L in O.
  cbn [Checker.exec]. unfold stopLocked, Chan.close.
  rewrite R, HS, L, O, C, HD. cbn [negb]. eauto.
Qed.

End StandardLibrary.

(** C7, on the code. The loop keeps "nothing found yet" as the zero
    [time.Time], so an end-date that parses to the zero instant makes it
    start over: of the parseable end-dates 2030, year 1 and 2031 the check
    reports 2031, the latest of the three, with 730 days left seen from
    2029, where the earliest real end-date is 2030 with 365 days left; a
    check of either revision of the checker caches that result. *)
Lemma zero_instant_restarts_scan :
  parsedDates sampleParse zeroInTheMiddle = [t2030; zeroTime; t2031]
  /\ scanCredentials sampleParse zeroInTheMiddle zeroTime = t2031
  /\ expiryOf sampleParse sampleFormat now2029
       {| PasswordCredentials := zeroInTheMiddle |}
     = {| ExpiresAt := "2031-01-01T00:00:00Z"; ExpiresSoon := false;
          DaysLeft := 730; Error := "" |}
  /\ Before t2030 t2031 = true
  /\ expiryInfo sampleFormat now2029 t2030
     = {| ExpiresAt := "2030-01-01T00:00:00Z"; ExpiresSoon := false;
          DaysLeft := 365; Error := "" |}
  /\ GraphExpiry.GetInfo
       (GraphExpiryCalls.check sampleParse sampleFormat
          (fun _ => inl {| PasswordCredentials := zeroInTheMiddle |})
          Schedules.Old.env
          (GraphExpiry.NewSecretExpiryChecker (Some sampleConfig)))
     = {| ExpiresAt := "2031-01-01T00:00:00Z"; ExpiresSoon := false;
          DaysLeft := 730; Error := "" |}
  /\ GetInfo
       (Checker.check sampleParse sampleFormat
          (fun _ => inl {| PasswordCredentials := zeroInTheMiddle |})
          Schedules.New.env (initial (Some sampleConfig)))
     = {| ExpiresAt := "2031-01-01T00:00:00Z"; ExpiresSoon := false;
          DaysLeft := 730; Error := "" |}.
Proof. vm_compute. repeat split. Qed.

(** Without the zero instant the same loop reports 2030. *)
Example earliest_of_two :
  expiryOf sampleParse sampleFormat now2029
    {| PasswordCredentials := [ {| EndDateTime := "2031-01-01T00:00:00Z" |};
                                {| EndDateTime := "not a date" |};
                                {| EndDateTime := "2030-01-01T00:00:00Z" |} ] |}
  = {| ExpiresAt := "2030-01-01T00:00:00Z"; ExpiresSoon := false;
       DaysLeft := 365; Error := "" |}.
Proof. vm_compute. reflexivity. Qed.

Example no_parseable_date :
  expiryOf sampleParse sampleFormat now2029
    {| PasswordCredentials := [ {| EndDateTime := "" |};
                                {| EndDateTime := "not a date" |} ] |}
  = errorInfo "no password credentials found".
Proof. vm_compute. reflexivity. Qed.

(** Three cycles, then [Start]: the check is made, the loop is started. *)
Example restart_after_three_cycles :
  let r := Checker.call sampleParse sampleFormat sampleUnmarshal Start
             Schedules.New.env
             (Checker.cycles sampleParse sampleFormat sampleUnmarshal 3
                Schedules.New.env (initial (Some sampleConfig))) in
  fst (fst (fst r)) = Returned
  /\ snd (fst r) = [AtSelect]
  /\ snd r = [Began; Stored info2030]
  /\ running (obj (stateAfter r)) = true
  /\ stopCh (obj (stateAfter r)) = Some 6%nat
  /\ Chan.isClosed (chans (stateAfter r)) (Some 6%nat) = false.
Proof. vm_compute. repeat split. Qed.

(** One check at a time: [Stop] parks until the check of the loop has
    stored and signalled. *)
Example Stop_waits_for_the_check :
  option_map Sched.trace (Schedules.New.run Schedules.New.stopWaits
                            Schedules.New.world)
  = Some [(0%nat, Began); (0%nat, Stored info2030);
          (1%nat, Began); (1%nat, Stored info2030); (2%nat, StopReturned)].
Proof. vm_compute. reflexivity. Qed.

(** Two checks at a time: [Stop] is released by the check that ends first
    and returns while the other has not stored yet. *)
Lemma Stop_released_by_other_check :
  option_map Sched.trace (Schedules.New.run Schedules.New.overlappingChecks
                            Schedules.New.world)
  = Some [(0%nat, Began); (0%nat, Stored info2030);
          (1%nat, Began); (2%nat, Began); (2%nat, Stored info2030);
          (3%nat, StopReturned); (1%nat, Stored info2030)].
Proof. vm_compute. reflexivity. Qed.

(** The signal is sent before [Stop] is parked and is lost: every other
    goroutine has returned, [Stop] is parked on [doneCh], and no goroutine
    can take a step. *)
Lemma Stop_parked_for_ever :
  exists w,
    Schedules.New.run Schedules.New.lostSignal Schedules.New.world = Some w
    /\ Sched.threads w = [Returned; Returned; Parked 1]
    /\ Sched.trace w = [(0%nat, Began); (0%nat, Stored info2030);
                        (1%nat, Began); (1%nat, Stored info2030)]
    /\ (forall tid env,
          Checker.step sampleParse sampleFormat sampleUnmarshal
            (Sched.Run tid env) w = None)
    /\ (forall tid,
          Checker.step sampleParse sampleFormat sampleUnmarshal
            (Sched.Tick tid) w = None).
Proof.
  eexists. split; [vm_compute; reflexivity|].
  split; [reflexivity|]. split; [reflexivity|].
  split; intros [|[|[|tid]]]; reflexivity.
Qed.

End CheckerFacts.

(** ** The expiry checker of graph_expiry.go *)

Module GraphExpiryFacts.

Import Graph Expiry Samples Schedules.

(** [Stop] is a single locked section: whatever the state, the call is over
    after it, checks in flight or not. *)
Lemma Stop_never_waits Parse Format Unmarshal env sh :
  exists pc sh' obs,
    GraphExpiry.exec Parse Format Unmarshal GraphExpiry.AtStop env sh
    = Some (pc, sh', [], obs)
    /\ (pc = GraphExpiry.Returned
        \/ pc = GraphExpiry.Panicked "close of closed channel").
Proof.
  cbn [GraphExpiry.exec].
  destruct (GraphExpiry.stopLocked sh); eauto 6.
Qed.

(** After the first [Start] the loop waits in [select] on the open
    channel. *)
Example first_Start_leaves_loop :
  option_map Sched.threads (Old.run Old.started Old.world)
  = Some [GraphExpiry.Returned; GraphExpiry.InSelect (Some 0%nat) false].
Proof. vm_compute. reflexivity. Qed.

(** C8, on graph_expiry.go. [Start], [Stop], [Start] again: the second
    [Start] makes its check and sets [running], but the loop it starts
    finds [stopCh] closed (the constructor made it, the first [Stop] closed
    it, nothing makes a new one) and returns at once, so that every
    goroutine has returned and no ticker is listened to; the next [Stop]
    panics on closing the closed channel. *)
Theorem restart_leaves_no_loop :
  option_map Sched.threads (Old.run Old.restarted Old.world)
  = Some [GraphExpiry.Returned; GraphExpiry.Returned; GraphExpiry.Returned;
          GraphExpiry.Returned; GraphExpiry.Returned]
  /\ option_map (fun w => GraphExpiry.running (GraphExpiry.obj (Sched.shared w)))
       (Old.run Old.restarted Old.world) = Some true
  /\ option_map Sched.trace (Old.run Old.restarted Old.world)
     = Some [(0%nat, GraphExpiry.Began); (0%nat, GraphExpiry.Stored info2030);
             (2%nat, GraphExpiry.StopReturned);
             (3%nat, GraphExpiry.Began); (3%nat, GraphExpiry.Stored info2030)]
  /\ match Old.run Old.restarted Old.world with
     | Some w =>
         forall tid,
           GraphExpiry.step sampleParse sampleFormat sampleUnmarshal
             (Sched.Tick tid) w = None
     | None => False
     end
  /\ option_map Sched.threads (Old.run Old.stoppedTwice Old.world)
     = Some [GraphExpiry.Returned; GraphExpiry.Returned; GraphExpiry.Returned;
             GraphExpiry.Returned; GraphExpiry.Returned;
             GraphExpiry.Panicked "close of closed channel"].
Proof.
  split; [vm_compute; reflexivity|].
  split; [vm_compute; reflexivity|].
  split; [vm_compute; reflexivity|].
  split; [|vm_compute; reflexivity].
  destruct (Old.run Old.restarted Old.world) as [w|] eqn:E;
    vm_compute in E; [|discriminate].
  injection E as <-.
  intros [|[|[|[|[|tid]]]]]; reflexivity.
Qed.

(** C3, on both revisions. In graph_expiry.go [Stop] returns while the
    check of the loop has begun and not stored, and the store follows. In
    the revision with [doneCh], with two checks in flight, [Stop] is
    released by the one that ends first and returns before the other
    stores. With a single check in flight that revision does wait. *)
Theorem Stop_returns_before_store :
  option_map Sched.trace (Old.run Old.stopDuringCheck Old.world)
  = Some [(0%nat, GraphExpiry.Began); (0%nat, GraphExpiry.Stored info2030);
          (1%nat, GraphExpiry.Began); (2%nat, GraphExpiry.StopReturned);
          (1%nat, GraphExpiry.Stored info2030)]
  /\ option_map (fun w => GraphExpiry.storedAfterStop (Sched.trace w) [] [])
       (Old.run Old.stopDuringCheck Old.world) = Some true
  /\ option_map Sched.trace (New.run New.overlappingChecks New.world)
     = Some [(0%nat, Checker.Began); (0%nat, Checker.Stored info2030);
             (1%nat, Checker.Began); (2%nat, Checker.Began);
             (2%nat, Checker.Stored info2030);
             (3%nat, Checker.StopReturned); (1%nat, Checker.Stored info2030)]
  /\ option_map (fun w => Checker.storedAfterStop (Sched.trace w) [] [])
       (New.run New.overlappingChecks New.world) = Some true
  /\ option_map (fun w => Checker.storedAfterStop (Sched.trace w) [] [])
       (New.run New.stopWaits New.world) = Some false.
Proof. vm_compute. repeat split. Qed.

End GraphExpiryFacts.
(** ** White space: what [TrimSpace] leaves *)

Module TrimFacts.
Import Strings.

Lemma isSpaceRune_nil : isSpaceRune [] = false.
Proof. reflexivity. Qed.

Lemma spaceWidth_0 (s : list nat) :
  spaceWidth s = 0%nat <->
  isSpaceRune (firstn 1 s) = false /\ isSpaceRune (firstn 2 s) = false
  /\ isSpaceRune (firstn 3 s) = false.
Proof.
  unfold spaceWidth.
  destruct (isSpaceRune (firstn 1 s)), (isSpaceRune (firstn 2 s)),
    (isSpaceRune (firstn 3 s)); split; try discriminate; intuition congruence.
Qed.

Lemma spaceWidthEnd_0 (s : list nat) :
  spaceWidthEnd s = 0%nat <->
  isSpaceRune (rev (firstn 1 (rev s))) = false
  /\ isSpaceRune (rev (firstn 2 (rev s))) = false
  /\ isSpaceRune (rev (firstn 3 (rev s))) = false.
Proof.
  unfold spaceWidthEnd.
  destruct (isSpaceRune (rev (firstn 1 (rev s)))),
    (isSpaceRune (rev (firstn 2 (rev s)))),
    (isSpaceRune (rev (firstn 3 (rev s)))); split; try discriminate;
    intuition congruence.
Qed.

Lemma spaceWidth_nil : spaceWidth [] = 0%nat.
Proof. reflexivity. Qed.

Lemma spaceWidthEnd_nil : spaceWidthEnd [] = 0%nat.
Proof. reflexivity. Qed.

Lemma trimLeft_fixed fuel s : spaceWidth s = 0%nat -> trimLeft fuel s = s.
Proof. intros H. destruct fuel; simpl; [|rewrite H]; reflexivity. Qed.

Lemma trimRight_fixed fuel s : spaceWidthEnd s = 0%nat -> trimRight fuel s = s.
Proof. intros H. destruct fuel; simpl; [|rewrite H]; reflexivity. Qed.

Lemma trimLeft_clean fuel : forall s,
  (length s <= fuel)%nat -> spaceWidth (trimLeft fuel s) = 0%nat.
Proof.
  induction fuel as [|fuel IH]; intros s L; simpl.
  - destruct s; [reflexivity|simpl in L; lia].
  - destruct (spaceWidth s) as [|w] eqn:W; [exact W|].
    apply IH. destruct s as [|x s]; [discriminate W|].
    simpl in *. rewrite length_skipn. lia.
Qed.

Lemma trimRight_clean fuel : forall s,
  (length s <= fuel)%nat -> spaceWidthEnd (trimRight fuel s) = 0%nat.
Proof.
  induction fuel as [|fuel IH]; intros s L; simpl.
  - destruct s; [reflexivity|simpl in L; lia].
  - destruct (spaceWidthEnd s) as [|w] eqn:W; [exact W|].
    apply IH. destruct s as [|x s]; [discriminate W|].
    rewrite length_firstn. simpl in *. lia.
Qed.

Lemma trimRight_firstn fuel : forall s, exists k, trimRight fuel s = firstn k s.
Proof.
  induction fuel as [|fuel IH]; intros s; simpl.
  - exists (length s). now rewrite firstn_all.
  - destruct (spaceWidthEnd s) as [|w]; [exists (length s); now rewrite firstn_all|].
    destruct (IH (firstn (length s - S w) s)) as [k Hk].
    rewrite Hk. rewrite firstn_firstn. eauto.
Qed.

Lemma spaceWidth_firstn k s :
  spaceWidth s = 0%nat -> spaceWidth (firstn k s) = 0%nat.
Proof.
  rewrite !spaceWidth_0. intros (H1 & H2 & H3).
  rewrite !firstn_firstn.
  destruct k as [|[|[|k]]]; simpl Nat.min; auto using isSpaceRune_nil.
Qed.

Lemma bytes_ofBytes b : Forall (fun n => (n < 256)%nat) b -> bytes (ofBytes b) = b.
Proof.
  unfold bytes, ofBytes. rewrite list_ascii_of_string_of_list_ascii.
  induction 1 as [|n b Hn _ IH]; simpl; [reflexivity|].
  rewrite nat_ascii_embedding by assumption. now rewrite IH.
Qed.

Lemma bytes_bounded s : Forall (fun n => (n < 256)%nat) (bytes s).
Proof.
  unfold bytes. induction (list_ascii_of_string s); simpl; constructor; auto.
  apply nat_ascii_bounded.
Qed.

Lemma trimLeft_skipn fuel : forall s, exists k, trimLeft fuel s = skipn k s.
Proof.
  induction fuel as [|fuel IH]; intros s; simpl.
  - now exists 0%nat.
  - destruct (spaceWidth s) as [|w]; [now exists 0%nat|].
    destruct (IH (skipn (S w) s)) as [k Hk]. rewrite Hk, skipn_skipn. eauto.
Qed.

(** The bytes [TrimSpace] keeps: a segment of the input that neither starts
    nor ends with a white-space rune. *)
Lemma TrimSpace_bytes s :
  exists i k,
    bytes (TrimSpace s) = firstn k (skipn i (bytes s))
    /\ spaceWidth (bytes (TrimSpace s)) = 0%nat
    /\ spaceWidthEnd (bytes (TrimSpace s)) = 0%nat.
Proof.
  unfold TrimSpace.
  set (b := bytes s). set (l := trimLeft (length b) b).
  destruct (trimLeft_skipn (length b) b) as [i Hi].
  destruct (trimRight_firstn (length l) l) as [k Hk].
  assert (B : Forall (fun n => (n < 256)%nat) (trimRight (length l) l)).
  { rewrite Hk. apply Forall_take. subst l. rewrite Hi. apply Forall_drop.
    apply bytes_bounded. }
  rewrite bytes_ofBytes by exact B.
  exists i, k. split; [|split].
  - rewrite Hk. subst l. now rewrite Hi.
  - rewrite Hk. apply spaceWidth_firstn. apply trimLeft_clean. lia.
  - apply trimRight_clean. lia.
Qed.

Lemma ofBytes_bytes s : ofBytes (bytes s) = s.
Proof.
  unfold ofBytes, bytes. rewrite map_map.
  rewrite (map_ext _ (fun a => a)) by (intros; apply ascii_nat_embedding).
  rewrite map_id. apply string_of_list_ascii_of_string.
Qed.

Lemma TrimSpace_fixed s :
  spaceWidth (bytes s) = 0%nat -> spaceWidthEnd (bytes s) = 0%nat ->
  TrimSpace s = s.
Proof.
  intros L R. unfold TrimSpace. cbv zeta.
  rewrite (trimLeft_fixed _ _ L), (trimRight_fixed _ _ R).
  apply ofBytes_bytes.
Qed.

Lemma TrimSpace_idempotent s : TrimSpace (TrimSpace s) = TrimSpace s.
Proof.
  destruct (TrimSpace_bytes s) as (i & k & _ & L & R).
  now apply TrimSpace_fixed.
Qed.

Lemma TrimSpace_space s : TrimSpace (String " " s) = TrimSpace s.
Proof. reflexivity. Qed.

End TrimFacts.

(** ** Recipients: parsing and what reaches the payload *)

Module RecipientsFacts.

Import Strings Substrings Graph Recipients TrimFacts StringsFacts.

Lemma Contains_comma c s :
  Contains (String c s) "," = Ascii.eqb c "," || Contains s ",".
Proof.
  simpl. now rewrite andb_true_r.
Qed.

Lemma Contains_comma_In s :
  Contains s "," = true <-> In 44%nat (bytes s).
Proof.
  induction s as [|c s IH].
  - simpl. split; [discriminate|tauto].
  - rewrite Contains_comma, orb_true_iff, IH.
    change (bytes (String c s)) with (nat_of_ascii c :: bytes s). simpl.
    rewrite Ascii.eqb_eq. split; intros [H|H]; auto; left.
    + now subst c.
    + apply (f_equal ascii_of_nat) in H. now rewrite ascii_nat_embedding in H.
Qed.

Lemma Contains_comma_app a b :
  Contains (a +++ b) "," = Contains a "," || Contains b ",".
Proof.
  induction a as [|c a IH]; [reflexivity|].
  change (String c a +++ b) with (String c (a +++ b)).
  rewrite !Contains_comma, IH. now rewrite orb_assoc.
Qed.

(** [TrimSpace] adds no comma. *)
Lemma TrimSpace_comma s :
  Contains s "," = false -> Contains (TrimSpace s) "," = false.
Proof.
  intros H. apply not_true_is_false. intros C. apply not_true_iff_false in H.
  apply H. apply Contains_comma_In. apply Contains_comma_In in C.
  destruct (TrimSpace_bytes s) as (i & k & E & _). rewrite E in C.
  rewrite <- (firstn_skipn i (bytes s)). apply in_or_app. right.
  rewrite <- (firstn_skipn k (skipn i (bytes s))). apply in_or_app. now left.
Qed.

(** The pieces of a split hold no separator. *)
Lemma Split_pieces s : Forall (fun p => Contains p "," = false) (Split "," s).
Proof.
  induction s as [|c s IH]; simpl.
  - repeat constructor.
  - destruct (Ascii.eqb c ",") eqn:E.
    + constructor; [reflexivity|exact IH].
    + destruct (Split "," s) as [|h t]; inversion IH; subst;
        constructor; auto; rewrite Contains_comma, E; auto.
Qed.

Lemma Split_whole s : Contains s "," = false -> Split "," s = [s].
Proof.
  induction s as [|c s IH]; [reflexivity|].
  rewrite Contains_comma, orb_false_iff. intros [E C].
  simpl. rewrite E, (IH C). reflexivity.
Qed.

Lemma Split_app a rest :
  Contains a "," = false ->
  Split "," (a +++ String "," rest) = a :: Split "," rest.
Proof.
  induction a as [|c a IH]; [reflexivity|].
  rewrite Contains_comma, orb_false_iff. intros [E C].
  change (String c a +++ String "," rest) with (String c (a +++ String "," rest)).
  simpl. rewrite E. simpl in IH. rewrite (IH C). reflexivity.
Qed.

(** The loop of [ParseRecipients] as a filter. *)
Lemma appendNonBlank_filter pieces : forall result,
  appendNonBlank pieces result
  = result ++ List.filter (fun r => negb (isEmpty r)) (map TrimSpace pieces).
Proof.
  induction pieces as [|p pieces IH]; intros result; simpl.
  - now rewrite app_nil_r.
  - destruct (isEmpty (TrimSpace p)); simpl; rewrite IH; [reflexivity|].
    now rewrite <- app_assoc.
Qed.

Lemma ParseRecipients_filter s :
  ParseRecipients s
  = List.filter (fun r => negb (isEmpty r)) (map TrimSpace (Split "," s)).
Proof. unfold ParseRecipients. now rewrite appendNonBlank_filter. Qed.

Lemma ParseRecipients_Forall s : Forall clean (ParseRecipients s).
Proof.
  rewrite ParseRecipients_filter.
  pose proof (Split_pieces s) as P.
  induction P as [|p ps Hp _ IH]; simpl; [constructor|].
  destruct (isEmpty (TrimSpace p)) eqn:E; simpl; [exact IH|].
  constructor; [|exact IH].
  split; [now apply isEmpty_false|].
  split; [apply TrimSpace_idempotent|now apply TrimSpace_comma].
Qed.

Lemma toRecipientsOf_clean l :
  Forall clean l ->
  toRecipientsOf l = map (fun a => {| EmailAddress := {| Address := a |} |}) l.
Proof.
  induction 1 as [|a l (N & T & _) _ IH]; simpl; [reflexivity|].
  rewrite T. apply isEmpty_false in N. rewrite N, IH. reflexivity.
Qed.

Lemma concat_cons sep a b l :
  String.concat sep (a :: b :: l) = a +++ sep +++ String.concat sep (b :: l).
Proof. reflexivity. Qed.

Lemma Contains_concat sep l :
  Contains sep "," = false -> Forall clean l ->
  Contains (String.concat sep l) "," = false.
Proof.
  intros S. induction 1 as [|a l (_ & _ & C) H IH]; [reflexivity|].
  destruct l as [|b l]; [exact C|].
  rewrite concat_cons, !Contains_comma_app, C, S, IH. reflexivity.
Qed.

Lemma ParseRecipients_piece a rest :
  Contains a "," = false ->
  ParseRecipients (a +++ String "," rest)
  = (if isEmpty (TrimSpace a) then [] else [TrimSpace a])
    ++ ParseRecipients rest.
Proof.
  intros C. rewrite !ParseRecipients_filter, (Split_app _ _ C). simpl.
  now destruct (isEmpty (TrimSpace a)).
Qed.

Lemma ParseRecipients_last a :
  Contains a "," = false ->
  ParseRecipients a = if isEmpty (TrimSpace a) then [] else [TrimSpace a].
Proof.
  intros C. rewrite ParseRecipients_filter, (Split_whole _ C). simpl.
  now destruct (isEmpty (TrimSpace a)).
Qed.

Lemma parse_joined l :
  Forall clean l -> l <> [] ->
  ParseRecipients (String.concat "," l) = l
  /\ ParseRecipients (String.concat ", " l) = l
  /\ ParseRecipients (" " +++ String.concat ", " l) = l.
Proof.
  induction 1 as [|a l (N & T & C) H IH]; [congruence|]. intros _.
  apply isEmpty_false in N.
  assert (C' : Contains (" " +++ a) "," = false)
    by (now rewrite Contains_comma_app, C).
  assert (T' : TrimSpace (" " +++ a) = a) by exact T.
  destruct l as [|b l].
  - simpl String.concat.
    rewrite (ParseRecipients_last _ C), (ParseRecipients_last _ C'), T', T, N.
    repeat split.
  - destruct IH as (I1 & I2 & I3); [discriminate|].
    rewrite !concat_cons.
    change (", " +++ String.concat ", " (b :: l))
      with (String "," (" " +++ String.concat ", " (b :: l))).
    change ("," +++ String.concat "," (b :: l))
      with (String "," (String.concat "," (b :: l))).
    change (" " +++ a +++ String "," (" " +++ String.concat ", " (b :: l)))
      with ((" " +++ a) +++ String "," (" " +++ String.concat ", " (b :: l))).
    rewrite !(ParseRecipients_piece a _ C), (ParseRecipients_piece _ _ C').
    rewrite T', T, N, I1, I3. repeat split.
Qed.

(** X1. Whatever the recipients string, every address [ParseRecipients]
    returns is non-empty, has no white space at either end ([TrimSpace]
    leaves it as it is) and holds no comma; the result is the list of the
    trimmed pieces of the split, in order, without the empty ones; and an
    empty string gives no address. *)
Theorem ParseRecipients_clean (recipients : string) :
  Forall (fun r => r <> "" /\ TrimSpace r = r /\ Contains r "," = false)
         (ParseRecipients recipients)
  /\ ParseRecipients recipients
     = List.filter (fun r => negb (isEmpty r))
         (map TrimSpace (Split "," recipients))
  /\ ParseRecipients "" = [].
Proof.
  split; [apply ParseRecipients_Forall|].
  split; [apply ParseRecipients_filter|reflexivity].
Qed.

(** X2. Parsing inverts joining: a list of addresses that are non-empty,
    trimmed and comma-free comes back unchanged from [ParseRecipients] when
    joined with [","] or with [", "]; so parsing the joined result of a
    parse changes nothing. *)
Theorem ParseRecipients_round_trip (l : list string) :
  Forall (fun r => r <> "" /\ TrimSpace r = r /\ Contains r "," = false) l ->
  ParseRecipients (String.concat "," l) = l
  /\ ParseRecipients (String.concat ", " l) = l
  /\ (forall s, ParseRecipients (String.concat ", " (ParseRecipients s))
                = ParseRecipients s).
Proof.
  intros H.
  assert (G : forall k, Forall clean k ->
                ParseRecipients (String.concat "," k) = k
                /\ ParseRecipients (String.concat ", " k) = k).
  { intros k Hk. destruct k as [|a k]; [split; reflexivity|].
    destruct (parse_joined (a :: k) Hk) as (A & B & _); [discriminate|].
    split; assumption. }
  destruct (G l H) as [A B].
  split; [exact A|]. split; [exact B|].
  intros s. apply G, ParseRecipients_Forall.
Qed.

Section Transport.

Variable NewRequest : string -> option error.
Variable transport : nat -> Reply.

(** X3. The addresses [ParseRecipients] returns all reach the request:
    when the parse gives at least one address, [SendMail] goes on to
    [sendWithRetry] with a message whose recipients are exactly the parsed
    addresses, in order, under the given subject and with the body as text;
    the filter of [SendMail] drops none, and its two errors about recipients
    do not arise. *)
Theorem SendMail_parsed_recipients (c : GraphClient) (recipients subject body : string) :
  ParseRecipients recipients <> [] ->
  SendMail NewRequest transport c (ParseRecipients recipients) subject body
  = sendWithRetry NewRequest transport c
      {| Message :=
           {| Subject := subject;
              Body := {| ContentType := "Text"; Content := body |};
              ToRecipients :=
                map (fun a => {| EmailAddress := {| Address := a |} |})
                    (ParseRecipients recipients) |} |}.
Proof.
  intros H. unfold SendMail.
  rewrite (toRecipientsOf_clean _ (ParseRecipients_Forall recipients)).
  destruct (ParseRecipients recipients) as [|a l]; [congruence|].
  reflexivity.
Qed.

End Transport.

Lemma ParseRecipients_round_trip_witness :
  ParseRecipients (String.concat ", " ["a@b.c"; "d@e.f"]) = ["a@b.c"; "d@e.f"].
Proof.
  refine (proj1 (proj2 (ParseRecipients_round_trip ["a@b.c"; "d@e.f"] _))).
  repeat constructor; discriminate.
Defined.

Lemma SendMail_parsed_recipients_witness :
  fst (SendMail Samples.anyURL (fun _ => Response 202 "") Samples.sampleClient
         (ParseRecipients " a@b.c , d@e.f,") "subject" "body")
  = fst (sendWithRetry Samples.anyURL (fun _ => Response 202 "")
           Samples.sampleClient
           {| Message :=
                {| Subject := "subject";
                   Body := {| ContentType := "Text"; Content := "body" |};
                   ToRecipients :=
                     [ {| EmailAddress := {| Address := "a@b.c" |} |};
                       {| EmailAddress := {| Address := "d@e.f" |} |} ] |} |}).
Proof.
  refine (f_equal fst
            (SendMail_parsed_recipients Samples.anyURL (fun _ => Response 202 "")
               Samples.sampleClient " a@b.c , d@e.f," "subject" "body" _)).
  vm_compute. discriminate.
Defined.

End RecipientsFacts.

(** ** The retry loop, whatever the endpoint answers *)

Module RetryShapeFacts.

Import Graph Samples RetryTrace RetryFacts.

Section Transport.

Variable NewRequest : string -> option error.
Variable transport : nat -> Reply.

#[local] Abbreviation retryLoop := (Graph.retryLoop NewRequest transport).
#[local] Abbreviation SendMail := (Graph.SendMail NewRequest transport).

(** What the loop returns on a reply that is not transient. *)
Lemma transient_classify r :
  transient r = false ->
  classify r = Success \/ exists err, classify r = Failure err.
Proof.
  destruct r as [err|code body]; simpl; [discriminate|].
  intros T. rewrite T.
  destruct ((code =? 200) || (code =? 202) || (code =? 204)); eauto.
Qed.

Lemma classify_transient r :
  transient r = true -> classify r = Retry (retryError r).
Proof.
  destruct r as [err|code body]; simpl; [reflexivity|].
  intros T. rewrite T.
  destruct (Z.eqb_spec code 429), (Z.eqb_spec code 503);
    try discriminate; subst; reflexivity.
Qed.

(** One iteration whose reply is not transient: the loop returns. *)
Lemma retryLoop_final n url payload attempt retryWait lastErr :
  NewRequest url = None ->
  transient (transport attempt) = false ->
  retryLoop (S n) url payload attempt retryWait lastErr
  = (match classify (transport attempt) with
     | Success => None
     | Failure err => Some err
     | Retry e => Some e
     end,
     sleepBefore attempt retryWait ++ [Post url payload]).
Proof.
  intros HU HT. simpl. rewrite HU.
  destruct (transport attempt) as [err|code body]; simpl in *; [discriminate|].
  rewrite HT.
  replace ((code =? 202) || (code =? 200) || (code =? 204))
    with ((code =? 200) || (code =? 202) || (code =? 204))
    by (destruct (code =? 200), (code =? 202), (code =? 204); reflexivity).
  now destruct ((code =? 200) || (code =? 202) || (code =? 204)).
Qed.

(** A retry and what follows it, up to the first reply that is not
    transient. *)
Lemma retryLoop_decisive k : forall n url payload attempt i e,
  NewRequest url = None ->
  (0 < attempt)%nat ->
  (k < n)%nat ->
  (forall j, (j < k)%nat -> transient (transport (attempt + j)) = true) ->
  transient (transport (attempt + k)) = false ->
  retryLoop n url payload attempt (backoff i) (Some e)
  = (match classify (transport (attempt + k)) with
     | Success => None
     | Failure err => Some err
     | Retry e => Some e
     end,
     flat_map (round url payload) (seq i (S k))).
Proof.
  induction k as [|k IH]; intros n url payload attempt i e HU A L HT HF.
  - destruct n as [|n]; [lia|].
    rewrite Nat.add_0_r in HF. rewrite retryLoop_final by assumption.
    rewrite Nat.add_0_r. unfold sleepBefore.
    destruct (Nat.ltb_spec 0 attempt) as [_|]; [reflexivity|lia].
  - destruct n as [|n]; [lia|].
    assert (T0 : transient (transport attempt) = true).
    { rewrite <- (Nat.add_0_r attempt). apply HT. lia. }
    rewrite retryLoop_transient by assumption.
    rewrite waitAfter_backoff by assumption.
    rewrite (IH n url payload (S attempt) (S i)); try assumption; try lia.
    + replace (S attempt + k)%nat with (attempt + S k)%nat by lia.
      unfold sleepBefore. destruct (Nat.ltb_spec 0 attempt) as [_|]; [|lia].
      reflexivity.
    + intros j Hj. replace (S attempt + j)%nat with (attempt + S j)%nat by lia.
      apply HT. lia.
    + replace (S attempt + k)%nat with (attempt + S k)%nat by lia. exact HF.
Qed.

(** The whole loop up to the first reply that is not transient. *)
Lemma retryLoop_first_decisive k n url payload :
  NewRequest url = None ->
  (k <= n)%nat ->
  (forall j, (j < k)%nat -> transient (transport j) = true) ->
  transient (transport k) = false ->
  retryLoop (S n) url payload 0 initialRetryWait None
  = (match classify (transport k) with
     | Success => None
     | Failure err => Some err
     | Retry e => Some e
     end,
     Post url payload :: flat_map (round url payload) (seq 0 k)).
Proof.
  intros HU L HT HF. destruct k as [|k].
  - now rewrite retryLoop_final.
  - rewrite retryLoop_transient by (auto; apply HT; lia).
    change (waitAfter 0 initialRetryWait) with (backoff 0).
    rewrite (retryLoop_decisive k n url payload 1 0); try assumption; try lia.
    + reflexivity.
    + intros j Hj. apply HT. simpl. lia.
Qed.

(** The shape of any run of the retries: some rounds, and a nil result only
    after a reply that the classification accepts. *)
Lemma retryLoop_shape n : forall url payload attempt i e,
  NewRequest url = None ->
  (0 < attempt)%nat ->
  exists k,
    (k <= n)%nat
    /\ snd (retryLoop n url payload attempt (backoff i) (Some e))
       = flat_map (round url payload) (seq i k)
    /\ (fst (retryLoop n url payload attempt (backoff i) (Some e)) = None ->
        exists m, k = S m /\ classify (transport (attempt + m)) = Success).
Proof.
  induction n as [|n IH]; intros url payload attempt i e HU A.
  - exists 0%nat. split; [lia|]. split; [reflexivity|]. discriminate.
  - destruct (transient (transport attempt)) eqn:T.
    + rewrite retryLoop_transient by assumption.
      rewrite waitAfter_backoff by assumption.
      destruct (IH url payload (S attempt) (S i)
                  (retryError (transport attempt)) HU) as (k & L & Tr & Ok);
        [lia|].
      exists (S k). cbn [fst snd]. split; [lia|]. split.
      * rewrite Tr. unfold sleepBefore.
        destruct (Nat.ltb_spec 0 attempt) as [_|]; [reflexivity|lia].
      * intros N. destruct (Ok N) as (m & -> & HS).
        exists (1 + m)%nat. split; [reflexivity|].
        now replace (attempt + (1 + m))%nat with (S attempt + m)%nat by lia.
    + rewrite retryLoop_final by assumption.
      exists 1%nat. cbn [fst snd]. split; [lia|]. split.
      * unfold sleepBefore.
        destruct (Nat.ltb_spec 0 attempt) as [_|]; [reflexivity|lia].
      * intros N. exists 0%nat. split; [reflexivity|].
        rewrite Nat.add_0_r.
        destruct (transient_classify _ T) as [HS|[err F]]; [exact HS|].
        rewrite F in N. discriminate.
Qed.

Lemma retryLoop_shape_0 n url payload :
  NewRequest url = None ->
  exists k,
    (k <= n)%nat
    /\ snd (retryLoop (S n) url payload 0 initialRetryWait None)
       = Post url payload :: flat_map (round url payload) (seq 0 k)
    /\ (fst (retryLoop (S n) url payload 0 initialRetryWait None) = None ->
        classify (transport k) = Success).
Proof.
  intros HU.
  destruct (transient (transport 0)) eqn:T.
  - rewrite retryLoop_transient by assumption.
    change (waitAfter 0 initialRetryWait) with (backoff 0).
    destruct (retryLoop_shape n url payload 1 0
                (retryError (transport 0)) HU) as (k & L & Tr & Ok); [lia|].
    exists k. cbn [fst snd]. split; [lia|]. split.
    + now rewrite Tr.
    + intros N. destruct (Ok N) as (m & -> & HS). exact HS.
  - rewrite retryLoop_final by assumption.
    exists 0%nat. cbn [fst snd]. split; [lia|]. split; [reflexivity|].
    intros N. destruct (transient_classify _ T) as [HS|[err F]]; [exact HS|].
    rewrite F in N. discriminate.
Qed.

(** [SendMail] either stops at the recipients or runs the loop on the
    message it has built. *)
Lemma SendMail_cases (c : GraphClient) (recipients : list string)
    (subject body : string) :
  (toRecipientsOf recipients = []
   /\ snd (SendMail c recipients subject body) = []
   /\ exists msg, fst (SendMail c recipients subject body) = Some (Errorf msg))
  \/ (toRecipientsOf recipients <> []
      /\ SendMail c recipients subject body
         = retryLoop (S maxRetries) (sendMailURL (fromAddress c))
             {| Message :=
                  {| Subject := subject;
                     Body := {| ContentType := "Text"; Content := body |};
                     ToRecipients := toRecipientsOf recipients |} |}
             0 initialRetryWait None).
Proof.
  unfold Graph.SendMail, sendWithRetry.
  destruct recipients as [|a l]; [left; simpl; eauto|].
  destruct (toRecipientsOf (a :: l)) as [|x xs] eqn:E.
  - left. simpl. eauto.
  - right. split; [discriminate|reflexivity].
Qed.

Lemma attempts_rounds url payload i k :
  attempts (flat_map (round url payload) (seq i k)) = k
  /\ sleeps (flat_map (round url payload) (seq i k)) = map backoff (seq i k).
Proof.
  revert i. induction k as [|k IH]; intros i; [split; reflexivity|].
  destruct (IH (1 + i)%nat) as [A Sl].
  split.
  - change (S (attempts (flat_map (round url payload) (seq (1 + i) k))) = S k).
    now rewrite A.
  - change (backoff i :: sleeps (flat_map (round url payload) (seq (1 + i) k))
            = backoff i :: map backoff (seq (1 + i) k)).
    now rewrite Sl.
Qed.

Lemma attempts_first url payload k :
  attempts (Post url payload :: flat_map (round url payload) (seq 0 k)) = S k
  /\ sleeps (Post url payload :: flat_map (round url payload) (seq 0 k))
     = map backoff (seq 0 k).
Proof.
  destruct (attempts_rounds url payload 0 k) as [A Sl]. split.
  - change (S (attempts (flat_map (round url payload) (seq 0 k))) = S k).
    now rewrite A.
  - change (sleeps (flat_map (round url payload) (seq 0 k))
            = map backoff (seq 0 k)).
    exact Sl.
Qed.

(** X4. Whatever the recipients, the URL check and the replies of the
    endpoint, a call of [SendMail] does nothing on the network or posts one
    and the same request between one and four times, the posts after the
    first each preceded by a sleep of 1s, 2s and 4s in this order; so it
    posts four times at most and no sleep is longer than four seconds. *)
Theorem SendMail_bounded (c : GraphClient) (recipients : list string)
    (subject body : string) :
  let r := SendMail c recipients subject body in
  let url := sendMailURL (fromAddress c) in
  let payload :=
    {| Message := {| Subject := subject;
                     Body := {| ContentType := "Text"; Content := body |};
                     ToRecipients := toRecipientsOf recipients |} |} in
  (snd r = []
   \/ exists k, (k <= maxRetries)%nat
                /\ snd r = Post url payload
                           :: flat_map (fun j => [Sleep (backoff j);
                                                  Post url payload])
                                (seq 0 k))
  /\ (attempts (snd r) <= 4)%nat
  /\ (exists k, (k <= 3)%nat /\ sleeps (snd r) = firstn k [1 * Second; 2 * Second; 4 * Second]).
Proof.
  intros r url payload.
  assert (Sh : snd r = []
              \/ exists k, (k <= maxRetries)%nat
                   /\ snd r = Post url payload
                              :: flat_map (round url payload) (seq 0 k)).
  { subst r. destruct (SendMail_cases c recipients subject body)
      as [(_ & E & _)|(_ & E)]; [now left|].
    rewrite E. fold url. fold payload.
    destruct (NewRequest url) eqn:HU.
    - left. simpl. now rewrite HU.
    - right. destruct (retryLoop_shape_0 maxRetries url payload HU)
        as (k & L & Tr & _). eauto. }
  split; [exact Sh|].
  destruct Sh as [E|(k & L & E)]; rewrite E.
  - split; [unfold attempts; simpl; lia|]. exists 0%nat. split; [lia|reflexivity].
  - destruct (attempts_first url payload k) as [A Sl].
    rewrite A, Sl.
    unfold maxRetries in L. split; [lia|].
    exists k. split; [exact L|].
    destruct k as [|[|[|[|k]]]]; try reflexivity. lia.
Qed.

(** X5. The first reply that is not transient decides. When the recipients
    hold an address, the request can be made, the replies to the first [k]
    posts ([k] at most 3) are transient and the reply to the next one is
    not, [SendMail] posts [k + 1] times, sleeps [backoff 0 .. backoff (k - 1)]
    in between, and returns nil if that reply is a 200, 202 or 204 and the
    error "graph API error <code>: <body>" otherwise. *)
Theorem first_decisive_reply (c : GraphClient) (recipients : list string)
    (subject body : string) (k : nat) :
  toRecipientsOf recipients <> [] ->
  NewRequest (sendMailURL (fromAddress c)) = None ->
  (k <= maxRetries)%nat ->
  (forall j, (j < k)%nat -> transient (transport j) = true) ->
  transient (transport k) = false ->
  let r := SendMail c recipients subject body in
  attempts (snd r) = S k
  /\ sleeps (snd r) = map backoff (seq 0 k)
  /\ match classify (transport k) with
     | Success => fst r = None
     | Failure err => fst r = Some err
     | Retry _ => False
     end.
Proof.
  intros HR HU L HT HF r. subst r.
  destruct (SendMail_cases c recipients subject body)
    as [(E & _)|(_ & E)]; [contradiction|].
  rewrite E, (retryLoop_first_decisive k) by assumption.
  cbn [fst snd].
  destruct (attempts_first (sendMailURL (fromAddress c))
              {| Message :=
                   {| Subject := subject;
                      Body := {| ContentType := "Text"; Content := body |};
                      ToRecipients := toRecipientsOf recipients |} |} k)
    as [A Sl].
  rewrite A, Sl.
  split; [reflexivity|]. split; [reflexivity|].
  destruct (transient_classify _ HF) as [->|[err ->]]; reflexivity.
Qed.

(** A nil result of [SendMail], traced back to the reply that gave it. *)
Lemma SendMail_nil (c : GraphClient) (recipients : list string)
    (subject body : string) :
  fst (SendMail c recipients subject body) = None ->
  toRecipientsOf recipients <> []
  /\ NewRequest (sendMailURL (fromAddress c)) = None
  /\ exists k code respBody,
       attempts (snd (SendMail c recipients subject body)) = S k
       /\ (k <= maxRetries)%nat
       /\ transport k = Response code respBody
       /\ (code = 200 \/ code = 202 \/ code = 204).
Proof.
  intros N.
  destruct (SendMail_cases c recipients subject body)
    as [(_ & _ & msg & E)|(HR & E)]; [congruence|].
  split; [exact HR|].
  rewrite E in N |- *.
  destruct (NewRequest (sendMailURL (fromAddress c))) eqn:HU.
  - simpl in N. rewrite HU in N. discriminate.
  - split; [reflexivity|].
    destruct (retryLoop_shape_0 maxRetries _
                {| Message :=
                     {| Subject := subject;
                        Body := {| ContentType := "Text"; Content := body |};
                        ToRecipients := toRecipientsOf recipients |} |} HU)
      as (k & L & Tr & Ok).
    specialize (Ok N). rewrite Tr.
    destruct (attempts_first (sendMailURL (fromAddress c))
                {| Message :=
                     {| Subject := subject;
                        Body := {| ContentType := "Text"; Content := body |};
                        ToRecipients := toRecipientsOf recipients |} |} k)
      as [A _].
    destruct (transport k) as [err|code respBody] eqn:T; [discriminate Ok|].
    exists k, code, respBody.
    rewrite A.
    split; [reflexivity|]. split; [exact L|]. split; [exact T|].
    simpl in Ok.
    destruct (Z.eqb_spec code 200); [auto|].
    destruct (Z.eqb_spec code 202); [auto|].
    destruct (Z.eqb_spec code 204); [auto|].
    simpl in Ok. destruct ((code =? 429) || (code =? 503)); discriminate.
Qed.

(** X6. [SendMail] returns nil only when the endpoint has accepted the
    request: the recipients hold an address, the request could be made, and
    the reply to the last post is a 200, 202 or 204. *)
Theorem SendMail_success_sound (c : GraphClient) (recipients : list string)
    (subject body : string) :
  fst (SendMail c recipients subject body) = None ->
  toRecipientsOf recipients <> []
  /\ NewRequest (sendMailURL (fromAddress c)) = None
  /\ exists k code respBody,
       attempts (snd (SendMail c recipients subject body)) = S k
       /\ (k <= maxRetries)%nat
       /\ transport k = Response code respBody
       /\ (code = 200 \/ code = 202 \/ code = 204).
Proof. apply SendMail_nil. Qed.

End Transport.

(** The endpoint answers 503 twice and then 400. *)
Lemma first_decisive_reply_witness :
  let transport := fun k => if (k <? 2)%nat then Response 503 "busy"
                            else Response 400 "bad request" in
  let r := SendMail anyURL transport sampleClient ["ops@example.org"]
             "subject" "body" in
  attempts (snd r) = 3%nat
  /\ sleeps (snd r) = [1 * Second; 2 * Second]
  /\ fst r = Some (Errorf "graph API error 400: bad request").
Proof.
  refine (first_decisive_reply anyURL
            (fun k => if (k <? 2)%nat then Response 503 "busy"
                      else Response 400 "bad request")
            sampleClient ["ops@example.org"] "subject" "body" 2 _ _ _ _ _).
  - vm_compute. discriminate.
  - reflexivity.
  - unfold maxRetries. lia.
  - intros j Hj. destruct j as [|[|j]]; [reflexivity|reflexivity|lia].
  - reflexivity.
Defined.

Lemma SendMail_success_sound_witness :
  toRecipientsOf ["ops@example.org"] <> []
  /\ anyURL (sendMailURL (fromAddress sampleClient)) = None
  /\ exists k code respBody,
       attempts (snd (SendMail anyURL (fun _ => Response 202 "") sampleClient
                        ["ops@example.org"] "subject" "body")) = S k
       /\ (k <= maxRetries)%nat
       /\ Response 202 "" = Response code respBody
       /\ (code = 200 \/ code = 202 \/ code = 204).
Proof.
  exact (SendMail_success_sound anyURL (fun _ => Response 202 "") sampleClient
           ["ops@example.org"] "subject" "body" eq_refl).
Defined.

End RetryShapeFacts.

(** ** The mail client: creation, probe and the helpers around it *)

Module MailClientFacts.

Import Graph GraphAuth GraphEmail Notifier NotifierEmail RetryTrace Samples.
Import StringsFacts RetryShapeFacts.

Lemma NewGraphClient_configured cfg :
  IsConfigured cfg = true ->
  NewGraphClient cfg
  = inl {| fromAddress := FromAddress cfg; httpClient := credentialsOf cfg |}.
Proof.
  unfold IsConfigured, NewGraphClient.
  destruct (Strings.isEmpty (TenantID cfg)), (Strings.isEmpty (ClientID cfg)),
    (Strings.isEmpty (ClientSecret cfg)), (Strings.isEmpty (FromAddress cfg));
    simpl; intros H; try discriminate; reflexivity.
Qed.

Lemma IsConfigured_ValidateConfig cfg :
  ValidateConfig cfg = None <-> IsConfigured cfg = true.
Proof.
  unfold IsConfigured, ValidateConfig.
  destruct (Strings.isEmpty (TenantID cfg)), (Strings.isEmpty (ClientID cfg)),
    (Strings.isEmpty (ClientSecret cfg)), (Strings.isEmpty (FromAddress cfg)),
    (Strings.isEmpty (Recipients cfg)); simpl; split; congruence.
Qed.

(** X7. [NewGraphClient] succeeds exactly when the tenant, the client id,
    the secret and the sender address are non-empty, whatever the
    recipients; the client then sends from the configured address with the
    credentials [GetTokenSource] gives for the same configuration. A
    configuration that [IsConfigured] or [ValidateConfig] accepts always
    gets its client, so the "create Graph client" error of the callers that
    test it first cannot arise. *)
Theorem client_creation (cfg : GraphConfig) :
  ((exists client, NewGraphClient cfg = inl client)
   <-> TenantID cfg <> "" /\ ClientID cfg <> "" /\ ClientSecret cfg <> ""
       /\ FromAddress cfg <> "")
  /\ (forall client,
        NewGraphClient cfg = inl client ->
        fromAddress client = FromAddress cfg
        /\ GetTokenSource cfg = inl (httpClient client))
  /\ (IsConfigured cfg = true -> exists client, NewGraphClient cfg = inl client)
  /\ (ValidateConfig cfg = None -> exists client, NewGraphClient cfg = inl client).
Proof.
  split; [|split; [|split]].
  - unfold NewGraphClient. rewrite <- !isEmpty_false.
    destruct (Strings.isEmpty (TenantID cfg)), (Strings.isEmpty (ClientID cfg)),
      (Strings.isEmpty (ClientSecret cfg)), (Strings.isEmpty (FromAddress cfg));
      simpl; split; try (intros [client H]; discriminate);
      try (intros (? & ? & ? & ?); discriminate); eauto.
  - unfold NewGraphClient, GetTokenSource. intros client.
    destruct (Strings.isEmpty (TenantID cfg) || Strings.isEmpty (ClientID cfg)
              || Strings.isEmpty (ClientSecret cfg)); [discriminate|].
    destruct (Strings.isEmpty (FromAddress cfg)); [discriminate|].
    intros H. injection H as <-. split; reflexivity.
  - intros H. rewrite (NewGraphClient_configured _ H). eauto.
  - intros H. apply IsConfigured_ValidateConfig in H.
    rewrite (NewGraphClient_configured _ H). eauto.
Qed.

Section Environment.

Variable NewRequest : string -> option error.
Variable probe : Reply.
Variable transport : nat -> Reply.
Variable float64 : Type.
Variable seconds : Z -> string.
Variable decibels : float64 -> string.
Variable HumanTime : string.
Variable WrapError : string -> error -> option error.

#[local] Abbreviation ValidateAuth := (GraphAuth.ValidateAuth NewRequest probe).
#[local] Abbreviation SendMail := (Graph.SendMail NewRequest transport).
#[local] Abbreviation SendTestEmail :=
  (GraphEmail.SendTestEmail NewRequest probe transport HumanTime).
#[local] Abbreviation SendSilenceAlert :=
  (GraphEmail.SendSilenceAlert NewRequest transport float64 seconds decibels
     HumanTime WrapError).
#[local] Abbreviation SendRecoveryAlert :=
  (GraphEmail.SendRecoveryAlert NewRequest transport seconds HumanTime WrapError).
#[local] Abbreviation sendEmailWithClient :=
  (NotifierEmail.sendEmailWithClient NewRequest transport float64 seconds
     decibels HumanTime WrapError).

Lemma ValidateAuth_nil c :
  fst (ValidateAuth c) = None
  <-> NewRequest (validateURL (fromAddress c)) = None
      /\ exists body, probe = Response 200 body \/ probe = Response 403 body.
Proof.
  unfold GraphAuth.ValidateAuth.
  destruct (NewRequest (validateURL (fromAddress c))) as [err|]; simpl.
  - split; [discriminate|]. intros [H _]. discriminate.
  - destruct probe as [err|code body].
    + split.
      * destruct (_ || _); discriminate.
      * intros (_ & body & [H|H]); discriminate.
    + destruct (Z.eqb_spec code 200) as [->|N2]; simpl.
      { split; eauto. }
      destruct (Z.eqb_spec code 403) as [->|N3]; simpl.
      { split; eauto. }
      split.
      * destruct (code =? 404); [discriminate|].
        destruct (code =? 401); discriminate.
      * intros (_ & b & [H|H]); congruence.
Qed.

(** X8. The probe [ValidateAuth] returns nil exactly when its request can
    be made and the reply has status 200 or 403; every other status and
    every transport error is refused. It makes one request at most, a [GET]
    on the sender's mailbox, and a transport error comes back wrapped, as
    "authentication failed" when its text mentions "oauth2" or "token" and as
    "validation request failed" otherwise. *)
Theorem ValidateAuth_accepts (c : GraphClient) :
  (fst (ValidateAuth c) = None
   <-> NewRequest (validateURL (fromAddress c)) = None
       /\ exists body, probe = Response 200 body \/ probe = Response 403 body)
  /\ (snd (ValidateAuth c) = []
      \/ snd (ValidateAuth c) = [graphBaseURL +++ "/users/" +++ fromAddress c])
  /\ (forall err,
        NewRequest (validateURL (fromAddress c)) = None ->
        probe = TransportError err ->
        exists msg,
          fst (ValidateAuth c) = Some (Wrapf msg err)
          /\ (msg = "authentication failed"
              <-> Substrings.Contains (errorText err) "oauth2" = true
                  \/ Substrings.Contains (errorText err) "token" = true)
          /\ (msg = "validation request failed"
              <-> Substrings.Contains (errorText err) "oauth2" = false
                  /\ Substrings.Contains (errorText err) "token" = false)).
Proof.
  split; [apply ValidateAuth_nil|]. split.
  - unfold GraphAuth.ValidateAuth.
    destruct (NewRequest (validateURL (fromAddress c))); simpl; auto.
  - intros err HU P. unfold GraphAuth.ValidateAuth. rewrite HU, P. simpl.
    destruct (Substrings.Contains (errorText err) "oauth2"),
      (Substrings.Contains (errorText err) "token"); simpl;
      eexists; (split; [reflexivity|]);
      split; split; try discriminate; intuition congruence.
Qed.

Lemma retryLoop_urls n : forall url payload attempt retryWait lastErr,
  Forall (postTo url)
    (snd (Graph.retryLoop NewRequest transport n url payload attempt retryWait
            lastErr)).
Proof.
  induction n as [|n IH]; intros url payload attempt retryWait lastErr; simpl.
  - constructor.
  - assert (S : Forall (postTo url) (sleepBefore attempt retryWait)).
    { unfold sleepBefore. destruct (0 <? attempt)%nat; repeat constructor. }
    assert (P : Forall (postTo url) (sleepBefore attempt retryWait
                                     ++ [Post url payload])).
    { apply Forall_app. split; [exact S|]. repeat constructor. }
    assert (K : forall e,
               Forall (postTo url)
                 (snd (let (res, rest) :=
                         Graph.retryLoop NewRequest transport n url payload
                           (Datatypes.S attempt) (waitAfter attempt retryWait)
                           (Some e) in
                       (res, sleepBefore attempt retryWait
                             ++ Post url payload :: rest)))).
    { intros e. specialize (IH url payload (Datatypes.S attempt)
                              (waitAfter attempt retryWait) (Some e)).
      destruct (Graph.retryLoop _ _ n _ _ _ _ _) as [res rest]. simpl in *.
      apply Forall_app. split; [exact S|]. constructor; [reflexivity|exact IH]. }
    destruct (NewRequest url); [exact S|].
    destruct (transport attempt) as [err|code body]; [apply K|].
    destruct ((code =? 202) || (code =? 200) || (code =? 204)); [exact P|].
    destruct ((code =? 429) || (code =? 503)); [apply K|exact P].
Qed.

(** Every post of [SendMail] goes to the mailbox of the client. *)
Lemma SendMail_urls c recipients subject body :
  Forall (postTo (sendMailURL (fromAddress c)))
    (snd (SendMail c recipients subject body)).
Proof.
  unfold Graph.SendMail.
  destruct recipients as [|a l]; [constructor|].
  destruct (toRecipientsOf (a :: l)); [constructor|].
  apply retryLoop_urls.
Qed.

(** X9. [SendTestEmail] sends the test mail only behind its two gates: a
    step of [SendMail] appears on the network only if [ValidateConfig]
    accepts the configuration, the probe was answered with 200 or 403 and
    the recipients parse to at least one address; it returns nil only if,
    besides, the mail endpoint accepted a post with 200, 202 or 204; it
    never returns the "create Graph client" error; and when the recipients
    parse to no address it still makes the probe and then fails with
    "send email: no recipients specified". *)
Theorem SendTestEmail_gates (cfg : GraphConfig) (stationName : string) :
  let r := SendTestEmail cfg stationName in
  ((exists s, In (Mailing s) (snd r)) ->
     ValidateConfig cfg = None
     /\ (exists body, probe = Response 200 body \/ probe = Response 403 body)
     /\ ParseRecipients (Recipients cfg) <> [])
  /\ (fst r = None ->
      ValidateConfig cfg = None
      /\ (exists body, probe = Response 200 body \/ probe = Response 403 body)
      /\ exists k code respBody,
           transport k = Response code respBody
           /\ (code = 200 \/ code = 202 \/ code = 204))
  /\ (forall err, fst r <> Some (Wrapf "create Graph client" err))
  /\ (ValidateConfig cfg = None ->
      NewRequest (validateURL (FromAddress cfg)) = None ->
      (exists body, probe = Response 200 body \/ probe = Response 403 body) ->
      ParseRecipients (Recipients cfg) = [] ->
      r = (Some (Wrapf "send email" (Errorf "no recipients specified")),
           [Get (validateURL (FromAddress cfg))])).
Proof.
  intros r. subst r. unfold GraphEmail.SendTestEmail.
  destruct (ValidateConfig cfg) as [verr|] eqn:V.
  { simpl. split; [intros [s []]|]. split; [discriminate|].
    split; [discriminate|]. discriminate. }
  pose proof (proj1 (IsConfigured_ValidateConfig cfg) V) as C.
  rewrite (NewGraphClient_configured _ C).
  set (client := {| fromAddress := FromAddress cfg;
                    httpClient := credentialsOf cfg |}).
  pose proof (ValidateAuth_nil client) as VA.
  destruct (ValidateAuth client) as [e probed] eqn:EV. simpl in VA.
  destruct e as [aerr|].
  { simpl. split.
    - intros [s H]. apply in_map_iff in H. destruct H as (u & H & _).
      discriminate.
    - split; [discriminate|]. split; [discriminate|].
      intros _ HU P _. discriminate (proj2 VA (conj HU P)). }
  destruct (proj1 VA eq_refl) as [HU P].
  assert (PR : probed = [validateURL (FromAddress cfg)]).
  { unfold GraphAuth.ValidateAuth in EV. simpl in EV, HU. rewrite HU in EV.
    now injection EV as _ <-. }
  pose proof (SendMail_nil NewRequest transport client
                (ParseRecipients (Recipients cfg)) (testSubject stationName)
                (testBody HumanTime)) as SS.
  destruct (SendMail client (ParseRecipients (Recipients cfg))
              (testSubject stationName) (testBody HumanTime))
    as [e t] eqn:ES.
  cbn [fst snd] in *.
  split; [|split; [|split]].
  - intros [s H]. split; [reflexivity|]. split; [exact P|].
    intros E. rewrite E in ES. simpl in ES. injection ES as _ <-.
    rewrite app_nil_r in H. apply in_map_iff in H. destruct H as (u & H & _).
    discriminate.
  - intros N. destruct e as [err|]; [discriminate|].
    split; [reflexivity|]. split; [exact P|].
    destruct (SS eq_refl) as (_ & _ & k & code & b & _ & _ & T & Cd). eauto.
  - destruct e; simpl; intros err; congruence.
  - intros _ _ _ E. rewrite E in ES. simpl in ES. injection ES as <- <-.
    rewrite PR. reflexivity.
Qed.

Lemma SendMail_first_post c recipients subject body :
  toRecipientsOf recipients <> [] ->
  NewRequest (sendMailURL (fromAddress c)) = None ->
  exists rest,
    snd (SendMail c recipients subject body)
    = Post (sendMailURL (fromAddress c))
        {| Message := {| Subject := subject;
                         Body := {| ContentType := "Text"; Content := body |};
                         ToRecipients := toRecipientsOf recipients |} |}
      :: rest.
Proof.
  intros HR HU.
  destruct (SendMail_cases NewRequest transport c recipients subject body)
    as [(E & _)|(_ & E)]; [contradiction|].
  rewrite E.
  destruct (RetryFacts.retryLoop_posts NewRequest transport maxRetries
              (sendMailURL (fromAddress c))
              {| Message := {| Subject := subject;
                               Body := {| ContentType := "Text"; Content := body |};
                               ToRecipients := toRecipientsOf recipients |} |}
              0 initialRetryWait None HU) as [rest H].
  exists rest. exact H.
Qed.

(** X10. With an empty cache, or a cache that holds the client of the
    configuration in hand, the notifier's [sendEmailWithClient] returns the
    error and does on the network what [SendSilenceAlert] (for a silence)
    and [SendRecoveryAlert] (for a recovery) do for the same arguments; it
    leaves the three sent flags alone, and when the configuration is
    configured the cache holds that client afterwards. *)
Theorem cached_client_agrees (cfg : GraphConfig) (stationName : string)
    (durationMs : Z) (threshold : float64) (n : SilenceNotifier) :
  (forall c, graphClient n = Some c -> NewGraphClient cfg = inl c) ->
  snd (sendEmailWithClient cfg stationName durationMs threshold true n)
  = SendSilenceAlert cfg stationName durationMs threshold
  /\ snd (sendEmailWithClient cfg stationName durationMs threshold false n)
     = SendRecoveryAlert cfg stationName durationMs
  /\ forall isSilence,
       let n' := fst (sendEmailWithClient cfg stationName durationMs threshold
                        isSilence n) in
       webhookSent n' = webhookSent n /\ emailSent n' = emailSent n
       /\ logSent n' = logSent n
       /\ (IsConfigured cfg = true ->
           graphClient n'
           = Some {| fromAddress := FromAddress cfg;
                     httpClient := credentialsOf cfg |})
       /\ (IsConfigured cfg = false -> n' = n).
Proof.
  intros H.
  unfold NotifierEmail.sendEmailWithClient, GraphEmail.SendSilenceAlert,
    GraphEmail.SendRecoveryAlert, GraphEmail.sendEmail.
  destruct (IsConfigured cfg) eqn:C; cbn [negb].
  2:{ split; [reflexivity|]. split; [reflexivity|].
      intros _. repeat split; intros; congruence. }
  pose proof (NewGraphClient_configured _ C) as NC.
  assert (G : exists n1,
             getOrCreateGraphClient cfg n
             = (n1, inl {| fromAddress := FromAddress cfg;
                           httpClient := credentialsOf cfg |})
             /\ webhookSent n1 = webhookSent n /\ emailSent n1 = emailSent n
             /\ logSent n1 = logSent n
             /\ graphClient n1 = Some {| fromAddress := FromAddress cfg;
                                         httpClient := credentialsOf cfg |}).
  { unfold getOrCreateGraphClient.
    destruct (graphClient n) as [c|] eqn:GC.
    - specialize (H c eq_refl). rewrite NC in H. injection H as <-.
      exists n. repeat split. exact GC.
    - rewrite NC. eexists. repeat split. }
  destruct G as (n1 & -> & W & E & L & GC). rewrite NC.
  split; [|split].
  - destruct (ParseRecipients (Recipients cfg)) as [|a l]; [reflexivity|].
    unfold silenceSubject.
    match goal with
    | |- context [Graph.SendMail ?a ?b ?c ?d ?e ?f] =>
        now destruct (Graph.SendMail a b c d e f)
    end.
  - destruct (ParseRecipients (Recipients cfg)) as [|a l]; [reflexivity|].
    unfold recoverySubject.
    match goal with
    | |- context [Graph.SendMail ?a ?b ?c ?d ?e ?f] =>
        now destruct (Graph.SendMail a b c d e f)
    end.
  - intros isSilence.
    destruct (ParseRecipients (Recipients cfg)) as [|a l]; cbn [fst snd].
    + repeat split; auto; discriminate.
    + match goal with
      | |- context [Graph.SendMail ?a ?b ?c ?d ?e ?f] =>
          destruct (Graph.SendMail a b c d e f)
      end.
      cbn [fst snd]. repeat split; auto; discriminate.
Qed.

(** X11. The cached client outlives a change of the configuration: while
    the cache holds a client, [sendEmailWithClient] posts to the mailbox of
    that client, with the recipients of the configuration in hand, and
    leaves the notifier as it is; after [InvalidateGraphClient] the next
    call builds the client of the configuration in hand, keeps it, and
    posts to the mailbox that configuration names. *)
Theorem stale_client_until_invalidated (cfg : GraphConfig)
    (stationName : string) (durationMs : Z) (threshold : float64)
    (isSilence : bool) (n : SilenceNotifier) (c0 : GraphClient) :
  graphClient n = Some c0 ->
  IsConfigured cfg = true ->
  ParseRecipients (Recipients cfg) <> [] ->
  NewRequest (sendMailURL (fromAddress c0)) = None ->
  NewRequest (sendMailURL (FromAddress cfg)) = None ->
  let before := sendEmailWithClient cfg stationName durationMs threshold
                  isSilence n in
  let after := sendEmailWithClient cfg stationName durationMs threshold
                 isSilence (InvalidateGraphClient n) in
  fst before = n
  /\ (exists payload rest,
        snd (snd before) = Post (sendMailURL (fromAddress c0)) payload :: rest
        /\ map (fun r => Address (EmailAddress r))
               (ToRecipients (Message payload))
           = ParseRecipients (Recipients cfg))
  /\ Forall (postTo (sendMailURL (fromAddress c0))) (snd (snd before))
  /\ graphClient (fst after)
     = Some {| fromAddress := FromAddress cfg; httpClient := credentialsOf cfg |}
  /\ (exists payload rest,
        snd (snd after) = Post (sendMailURL (FromAddress cfg)) payload :: rest)
  /\ Forall (postTo (sendMailURL (FromAddress cfg))) (snd (snd after)).
Proof.
  intros GC C PR HU0 HU before after. subst before after.
  unfold NotifierEmail.sendEmailWithClient. rewrite C. simpl negb. cbv iota.
  unfold getOrCreateGraphClient. rewrite GC.
  change (graphClient (InvalidateGraphClient n)) with (@None GraphClient).
  rewrite (NewGraphClient_configured _ C). cbv iota beta.
  pose proof (RecipientsFacts.toRecipientsOf_clean _
                (RecipientsFacts.ParseRecipients_Forall (Recipients cfg))) as TR.
  assert (NE : toRecipientsOf (ParseRecipients (Recipients cfg)) <> []).
  { rewrite TR. destruct (ParseRecipients (Recipients cfg)); [congruence|].
    discriminate. }
  destruct (ParseRecipients (Recipients cfg)) as [|a l] eqn:EP; [congruence|].
  set (subject := if isSilence then _ else _).
  set (body := if isSilence then _ else _).
  set (client := {| fromAddress := FromAddress cfg;
                    httpClient := credentialsOf cfg |}).
  pose proof (SendMail_urls c0 (a :: l) subject body) as U0.
  pose proof (SendMail_urls client (a :: l) subject body) as U1.
  destruct (SendMail_first_post c0 (a :: l) subject body NE HU0) as [rest0 F0].
  destruct (SendMail_first_post client (a :: l) subject body NE HU) as [rest1 F1].
  destruct (SendMail c0 (a :: l) subject body) as [e0 t0].
  destruct (SendMail client (a :: l) subject body) as [e1 t1].
  cbn [fst snd] in *.
  split; [reflexivity|]. split.
  { eexists. exists rest0. split; [exact F0|].
    cbn [Message ToRecipients]. rewrite TR, map_map.
    cbn [EmailAddress Address]. apply map_id. }
  split; [exact U0|]. split; [reflexivity|]. split; [eauto|exact U1].
Qed.

End Environment.

(** A notifier with an empty cache and a configured mail channel. *)
Lemma cached_client_agrees_witness :
  snd (NotifierEmail.sendEmailWithClient anyURL MailSamples.accepted
         Float64.float64 MailSamples.seconds MailSamples.decibels MailSamples.humanTime
         MailSamples.wrapError sampleConfig "Station" 61500 MailSamples.threshold true
         (NewSilenceNotifier))
  = GraphEmail.SendSilenceAlert anyURL MailSamples.accepted Float64.float64
      MailSamples.seconds MailSamples.decibels MailSamples.humanTime
      MailSamples.wrapError sampleConfig "Station" 61500 MailSamples.threshold.
Proof.
  refine (proj1 (cached_client_agrees anyURL MailSamples.accepted Float64.float64
                   MailSamples.seconds MailSamples.decibels MailSamples.humanTime
                   MailSamples.wrapError sampleConfig "Station" 61500 MailSamples.threshold
                   NewSilenceNotifier _)).
  intros c H. discriminate H.
Defined.

(** The cache holds the client of an earlier sender address. *)
Lemma stale_client_until_invalidated_witness :
  fst (NotifierEmail.sendEmailWithClient anyURL MailSamples.accepted
         Float64.float64 MailSamples.seconds MailSamples.decibels MailSamples.humanTime
         MailSamples.wrapError sampleConfig "Station" 61500 MailSamples.threshold true
         MailSamples.withOldClient)
  = MailSamples.withOldClient
  /\ Forall (postTo "https://graph.microsoft.com/v1.0/users/old@example.org/sendMail")
       (snd (snd (NotifierEmail.sendEmailWithClient anyURL MailSamples.accepted
                    Float64.float64 MailSamples.seconds MailSamples.decibels
                    MailSamples.humanTime MailSamples.wrapError sampleConfig
                    "Station" 61500 MailSamples.threshold true MailSamples.withOldClient)))
  /\ Forall (postTo "https://graph.microsoft.com/v1.0/users/alerts@example.org/sendMail")
       (snd (snd (NotifierEmail.sendEmailWithClient anyURL MailSamples.accepted
                    Float64.float64 MailSamples.seconds MailSamples.decibels
                    MailSamples.humanTime MailSamples.wrapError sampleConfig
                    "Station" 61500 MailSamples.threshold true
                    (InvalidateGraphClient MailSamples.withOldClient)))).
Proof.
  assert (P : ParseRecipients (Recipients sampleConfig) <> [])
    by (vm_compute; discriminate).
  pose proof (stale_client_until_invalidated anyURL MailSamples.accepted Float64.float64
                MailSamples.seconds MailSamples.decibels MailSamples.humanTime
                MailSamples.wrapError sampleConfig "Station" 61500 MailSamples.threshold true
                MailSamples.withOldClient MailSamples.oldClient
                eq_refl eq_refl P eq_refl eq_refl) as T.
  cbv zeta in T. destruct T as (A & _ & B & _ & _ & C).
  repeat split; assumption.
Defined.

End MailClientFacts.

(** ** The notifier after [Reset] *)

Module ResetFacts.

Import Graph Notifier Flags Samples.

Section WithConfig.

Variable Snapshot : Type.
Variable HasWebhook HasGraph HasLogPath : Snapshot -> bool.

#[local] Abbreviation Delivery := (Notifier.Delivery Snapshot).
#[local] Abbreviation HandleEvent :=
  (Notifier.HandleEvent Snapshot HasWebhook HasGraph HasLogPath).
#[local] Abbreviation HandleEvents :=
  (Notifier.HandleEvents Snapshot HasWebhook HasGraph HasLogPath).
#[local] Abbreviation event := (Notifier.event Snapshot).

(** [HandleEvent] reads the three flags only, and never writes the cached
    client. *)
Lemma HandleEvent_flags (d : Delivery) (a b : SilenceNotifier) :
  sameFlags a b ->
  snd (HandleEvent d a) = snd (HandleEvent d b)
  /\ sameFlags (fst (HandleEvent d a)) (fst (HandleEvent d b))
  /\ graphClient (fst (HandleEvent d a)) = graphClient a.
Proof.
  destruct a as [w e l g], b as [w' e' l' g'].
  intros (W & E & L). simpl in W, E, L. subst w' e' l'.
  unfold Notifier.HandleEvent, Notifier.handleSilenceStart,
    Notifier.handleSilenceEnd, trySend, andThen, sameFlags.
  destruct (JustEntered (event d)), (JustRecovered (event d)),
    w, e, l, (HasWebhook (startCfg Snapshot d)),
    (HasGraph (startCfg Snapshot d)), (HasLogPath (startCfg Snapshot d));
    simpl; auto.
Qed.

Lemma HandleEvents_flags (ds : list Delivery) : forall a b,
  sameFlags a b ->
  snd (HandleEvents ds a) = snd (HandleEvents ds b)
  /\ sameFlags (fst (HandleEvents ds a)) (fst (HandleEvents ds b))
  /\ graphClient (fst (HandleEvents ds a)) = graphClient a.
Proof.
  induction ds as [|d ds IH]; intros a b S; simpl; [auto|].
  rewrite !NotifierFacts.andThen_fst, !NotifierFacts.andThen_snd.
  destruct (HandleEvent_flags d a b S) as (T & S' & G).
  destruct (IH _ _ S') as (T' & S'' & G').
  rewrite T, T', G', G. auto.
Qed.

Lemma HandleEvent_clears (d : Delivery) (n : SilenceNotifier) :
  JustRecovered (event d) = true ->
  sameFlags (fst (HandleEvent d n)) NewSilenceNotifier.
Proof.
  intros R. unfold Notifier.HandleEvent. rewrite R.
  rewrite NotifierFacts.andThen_fst. repeat split.
Qed.

(** X13. After [Reset], and after any event that reports a recovery, the
    notifier starts for every later list of events exactly the goroutines
    a new notifier starts, and ends with the same flags: the sent flags
    are its whole memory. So a silence reported after [Reset] is notified
    again on every enabled channel, while an event that does not report a
    silence starts nothing after [Reset], the recovery of an episode whose
    flags were reset included. Handling events never changes the cached
    mail client. *)
Theorem Reset_like_new (n : SilenceNotifier) (ds : list Delivery) :
  snd (HandleEvents ds (Reset n)) = snd (HandleEvents ds NewSilenceNotifier)
  /\ (forall ch, sent ch (fst (HandleEvents ds (Reset n)))
                 = sent ch (fst (HandleEvents ds NewSilenceNotifier)))
  /\ (forall d, JustRecovered (event d) = true ->
        snd (HandleEvents ds (fst (HandleEvent d n)))
        = snd (HandleEvents ds NewSilenceNotifier))
  /\ (forall d, JustEntered (event d) = false ->
        snd (HandleEvent d (Reset n)) = [])
  /\ graphClient (fst (HandleEvents ds n)) = graphClient n.
Proof.
  assert (S : sameFlags (Reset n) NewSilenceNotifier) by (repeat split).
  destruct (HandleEvents_flags ds _ _ S) as (T & (W & E & L) & _).
  split; [exact T|]. split; [intros ch; destruct ch; assumption|].
  split; [|split].
  - intros d R.
    apply (HandleEvents_flags ds _ _ (HandleEvent_clears d n R)).
  - intros d J. unfold Notifier.HandleEvent. rewrite J.
    destruct (JustRecovered (event d)); reflexivity.
  - apply (HandleEvents_flags ds n n). repeat split.
Qed.

End WithConfig.

End ResetFacts.

(** ** The expiry computation: the order of the records *)

Module ExpiryOrderFacts.

Import Graph Expiry Samples ExpiryFacts.

Section Scan.

Variable Parse : string -> option Time.
Variable Format : Time -> string.

Lemma parsedDates_Permutation creds creds' :
  Permutation creds creds' ->
  Permutation (parsedDates Parse creds) (parsedDates Parse creds').
Proof.
  intros P. unfold parsedDates. now rewrite P.
Qed.

(** X22. When no end-date parses to the zero instant, the order of the
    credential records does not matter: two lists that are permutations of
    each other give the same earliest instant, and so the same [DaysLeft],
    [ExpiresSoon] and [Error]. *)
Theorem scan_order_independent (creds creds' : list passwordCredential)
    (now : Time) :
  Permutation creds creds' ->
  Forall (fun t => IsZero t = false) (parsedDates Parse creds) ->
  let i := expiryOf Parse Format now {| PasswordCredentials := creds |} in
  let i' := expiryOf Parse Format now {| PasswordCredentials := creds' |} in
  instant (scanCredentials Parse creds zeroTime)
  = instant (scanCredentials Parse creds' zeroTime)
  /\ DaysLeft i = DaysLeft i'
  /\ ExpiresSoon i = ExpiresSoon i'
  /\ Error i = Error i'.
Proof.
  intros P NZ i i'.
  pose proof (parsedDates_Permutation _ _ P) as PD.
  assert (NZ' : Forall (fun t => IsZero t = false) (parsedDates Parse creds')).
  { apply List.Forall_forall. intros t Ht.
    eapply List.Forall_forall in NZ; [exact NZ|].
    eapply Permutation_in; [symmetry; exact PD|exact Ht]. }
  destruct (scan_earliest Parse creds) as [E0 E1].
  destruct (scan_earliest Parse creds') as [E0' E1'].
  cbv zeta in *.
  assert (I : instant (scanCredentials Parse creds zeroTime)
              = instant (scanCredentials Parse creds' zeroTime)).
  { destruct (parsedDates Parse creds) as [|x l] eqn:D.
    - apply Permutation_nil_l in PD. rewrite (E0 eq_refl).
      rewrite E0' by (now symmetry). reflexivity.
    - assert (D' : parsedDates Parse creds' <> []).
      { intros N. rewrite N in PD. now apply Permutation_nil_r in PD. }
      destruct (E1 ltac:(discriminate) NZ) as (In1 & _ & Min1).
      destruct (E1' D' NZ') as (In2 & _ & Min2).
      rewrite List.Forall_forall in Min1, Min2.
      assert (A : instant (scanCredentials Parse creds zeroTime)
                  <= instant (scanCredentials Parse creds' zeroTime)).
      { apply Min1. eapply Permutation_in; [symmetry; exact PD|exact In2]. }
      assert (B : instant (scanCredentials Parse creds' zeroTime)
                  <= instant (scanCredentials Parse creds zeroTime)).
      { apply Min2. eapply Permutation_in; [exact PD|exact In1]. }
      lia. }
  split; [exact I|].
  subst i i'. unfold expiryOf, IsZero. cbn [PasswordCredentials]. rewrite <- I.
  destruct (instant (scanCredentials Parse creds zeroTime) =? 0);
    [repeat split|].
  unfold expiryInfo, Until, Sub. cbn [DaysLeft ExpiresSoon Error].
  rewrite <- I. repeat split.
Qed.

End Scan.

Lemma scan_order_independent_witness :
  instant (scanCredentials sampleParse
             [ {| EndDateTime := "2031-01-01T00:00:00Z" |};
               {| EndDateTime := "2030-01-01T00:00:00Z" |} ] zeroTime)
  = instant (scanCredentials sampleParse
               [ {| EndDateTime := "2030-01-01T00:00:00Z" |};
                 {| EndDateTime := "2031-01-01T00:00:00Z" |} ] zeroTime).
Proof.
  refine (proj1 (scan_order_independent sampleParse sampleFormat
                   [ {| EndDateTime := "2031-01-01T00:00:00Z" |};
                     {| EndDateTime := "2030-01-01T00:00:00Z" |} ]
                   [ {| EndDateTime := "2030-01-01T00:00:00Z" |};
                     {| EndDateTime := "2031-01-01T00:00:00Z" |} ]
                   now2029 _ _)).
  - apply perm_swap.
  - vm_compute. repeat constructor.
Defined.

End ExpiryOrderFacts.

(** ** The alerts of graph_email.go *)

Module AlertFacts.

Import Graph GraphEmail RetryTrace Samples.

Section Environment.

Variable NewRequest : string -> option error.
Variable transport : nat -> Reply.
Variable float64 : Type.
Variable seconds : Z -> string.
Variable decibels : float64 -> string.
Variable HumanTime : string.
Variable WrapError : string -> error -> option error.

#[local] Abbreviation sendEmail :=
  (GraphEmail.sendEmail NewRequest transport WrapError).
#[local] Abbreviation SendMail := (Graph.SendMail NewRequest transport).
#[local] Abbreviation SendSilenceAlert :=
  (GraphEmail.SendSilenceAlert NewRequest transport float64 seconds decibels
     HumanTime WrapError).
#[local] Abbreviation SendRecoveryAlert :=
  (GraphEmail.SendRecoveryAlert NewRequest transport seconds HumanTime WrapError).

Lemma sendEmail_configured cfg subject body :
  IsConfigured cfg = true ->
  sendEmail cfg subject body
  = match ParseRecipients (Recipients cfg) with
    | [] => (Some (Errorf "no valid recipients"), [])
    | recipients =>
        (wrapped (WrapError "send email via Graph")
           (fst (SendMail {| fromAddress := FromAddress cfg;
                             httpClient := credentialsOf cfg |}
                   recipients subject body)),
         snd (SendMail {| fromAddress := FromAddress cfg;
                          httpClient := credentialsOf cfg |}
                recipients subject body))
    end.
Proof.
  intros C. unfold GraphEmail.sendEmail.
  rewrite (MailClientFacts.NewGraphClient_configured _ C).
  destruct (ParseRecipients (Recipients cfg)) as [|a l]; [reflexivity|].
  now destruct (SendMail _ (a :: l) subject body).
Qed.

(** X12. The two alerts of graph_email.go reach the network only for a
    configuration that [IsConfigured] accepts and whose recipients parse to
    at least one address. Not configured, they return nil and do nothing;
    configured with recipients that parse to no address, they return "no
    valid recipients" and do nothing; otherwise they do what [SendMail]
    does for the client of the configuration and the parsed recipients,
    under the subject "[ALERT] Silence Detected - <station>" or
    "[OK] Audio Recovered - <station>", every post going to the mailbox of
    the configured sender. *)
Theorem alerts_gated (cfg : GraphConfig) (stationName : string)
    (durationMs : Z) (threshold : float64) :
  let silence := SendSilenceAlert cfg stationName durationMs threshold in
  let recovery := SendRecoveryAlert cfg stationName durationMs in
  let client := {| fromAddress := FromAddress cfg;
                   httpClient := credentialsOf cfg |} in
  (IsConfigured cfg = false -> silence = (None, []) /\ recovery = (None, []))
  /\ (IsConfigured cfg = true -> ParseRecipients (Recipients cfg) = [] ->
      silence = (Some (Errorf "no valid recipients"), [])
      /\ recovery = (Some (Errorf "no valid recipients"), []))
  /\ (IsConfigured cfg = true -> ParseRecipients (Recipients cfg) <> [] ->
      snd silence
      = snd (SendMail client (ParseRecipients (Recipients cfg))
               ("[ALERT] Silence Detected - " +++ stationName)
               (silenceBody float64 seconds decibels HumanTime durationMs
                  threshold))
      /\ snd recovery
         = snd (SendMail client (ParseRecipients (Recipients cfg))
                  ("[OK] Audio Recovered - " +++ stationName)
                  (recoveryBody seconds HumanTime durationMs)))
  /\ Forall (postTo (sendMailURL (FromAddress cfg))) (snd silence)
  /\ Forall (postTo (sendMailURL (FromAddress cfg))) (snd recovery).
Proof.
  intros silence recovery client. subst silence recovery.
  unfold GraphEmail.SendSilenceAlert, GraphEmail.SendRecoveryAlert.
  destruct (IsConfigured cfg) eqn:C; cbn [negb].
  2:{ split; [auto|]. split; [discriminate|]. split; [discriminate|].
      split; constructor. }
  rewrite !(sendEmail_configured _ _ _ C). fold client.
  pose proof (MailClientFacts.SendMail_urls NewRequest transport client
                (ParseRecipients (Recipients cfg))) as U.
  destruct (ParseRecipients (Recipients cfg)) as [|a l].
  - split; [discriminate|]. split; [auto|]. split; [congruence|].
    split; constructor.
  - split; [discriminate|]. split; [discriminate|]. split; [auto|].
    split; apply U.
Qed.

End Environment.

End AlertFacts.

(** ** The FFmpeg lookup *)

Module UtilFacts.

Import Util.

(** X23. [ResolveFFmpegPath] returns a non-empty path only when
    [exec.LookPath] found the name it was asked for: the custom path when
    one is given, "ffmpeg" otherwise. With a custom path the result is that
    path as given (not the path [LookPath] resolved) or the empty string,
    and the search for "ffmpeg" is never a fallback: two lookups that agree
    on the custom path give the same answer. Without one the result is the
    path found for "ffmpeg". *)
Theorem ResolveFFmpegPath_lookup (LookPath : string -> string + error)
    (customPath : string) :
  let r := ResolveFFmpegPath LookPath customPath in
  (r <> "" ->
   exists found,
     LookPath (if Strings.isEmpty customPath then "ffmpeg" else customPath)
     = inl found)
  /\ (customPath <> "" ->
      (r = customPath \/ r = "")
      /\ ((exists found, LookPath customPath = inl found) -> r = customPath)
      /\ forall LookPath',
           LookPath' customPath = LookPath customPath ->
           ResolveFFmpegPath LookPath' customPath = r)
  /\ (customPath = "" ->
      forall found, LookPath "ffmpeg" = inl found -> r = found).
Proof.
  intros r. subst r. unfold ResolveFFmpegPath.
  destruct customPath as [|c s]; cbn [Strings.isEmpty negb].
  - split; [|split].
    + destruct (LookPath "ffmpeg") as [p|e]; [eauto|congruence].
    + congruence.
    + intros _ found H. now rewrite H.
  - split; [|split].
    + destruct (LookPath (String c s)) as [p|e]; [eauto|congruence].
    + intros _. split; [|split].
      * destruct (LookPath (String c s)); auto.
      * intros [found H]. now rewrite H.
      * intros L' H. now rewrite H.
    + discriminate.
Qed.

End UtilFacts.

(** ** The checker with the completion signal, under any schedule *)

Module CheckerInvariantFacts.

Import Graph Expiry Checker Reachable Samples.

Lemma keeps_refl h : keeps h h.
Proof. intros i ch H. eauto. Qed.

Lemma keeps_insert h j ch0 ch1 :
  h !! j = Some ch0 -> Chan.closed ch1 = Chan.closed ch0 ->
  keeps h (<[j := ch1]> h).
Proof.
  intros H C i ch Hi.
  destruct (decide (i = j)) as [->|N].
  - rewrite list_lookup_insert_eq by (eapply lookup_lt_Some; eauto).
    exists ch1. split; [reflexivity|]. congruence.
  - rewrite list_lookup_insert_ne by congruence. eauto.
Qed.

Lemma keeps_trySend h c : keeps h (fst (Chan.trySend h c)).
Proof.
  unfold Chan.trySend. destruct c as [i|]; [|apply keeps_refl].
  destruct (h !! i) as [ch|] eqn:H; [|apply keeps_refl].
  destruct (Chan.recvq ch); [apply keeps_refl|].
  simpl. eapply keeps_insert; eauto.
Qed.

Lemma keeps_park h i : keeps h (Chan.park h i).
Proof.
  unfold Chan.park. destruct (h !! i) as [ch|] eqn:H; [|apply keeps_refl].
  eapply keeps_insert; eauto.
Qed.

Lemma keeps_resume h i h' : Chan.resume h i = Some h' -> keeps h h'.
Proof.
  unfold Chan.resume. destruct (h !! i) as [ch|] eqn:H; [|discriminate].
  destruct (Chan.handed ch).
  - destruct (Chan.closed ch); [|discriminate].
    intros E. injection E as <-. apply keeps_refl.
  - intros E. injection E as <-. eapply keeps_insert; eauto.
Qed.

(** The invariant of the shared state: a running checker has an open stop
    channel. *)
#[local] Abbreviation good := (fun sh => running (obj sh) = true -> stopOpen sh).

Lemma good_keeps sh sh' :
  good sh ->
  running (obj sh') = running (obj sh) ->
  stopCh (obj sh') = stopCh (obj sh) ->
  keeps (chans sh) (chans sh') ->
  good sh'.
Proof.
  intros G R S K Run. rewrite R in Run.
  destruct (G Run) as (i & ch & Hs & Hl & Hc).
  destruct (K i ch Hl) as (ch' & Hl' & Hc').
  exists i, ch'. rewrite S. split; [exact Hs|]. split; [exact Hl'|]. congruence.
Qed.

Lemma startLocked_good sh sh' : startLocked sh = Some sh' -> good sh'.
Proof.
  unfold startLocked. destruct (running (obj sh)); [discriminate|].
  intros E. injection E as <-. intros _.
  exists (length (chans sh)), Chan.fresh. cbn.
  split; [reflexivity|]. split; [|reflexivity].
  rewrite <- app_assoc. apply list_lookup_middle. reflexivity.
Qed.

Lemma close_open h i ch :
  h !! i = Some ch -> Chan.closed ch = false -> Chan.close h (Some i) <> None.
Proof. intros H C. unfold Chan.close. rewrite H, C. discriminate. Qed.

Section StandardLibrary.

Variable Parse : string -> option Time.
Variable Format : Time -> string.
Variable Unmarshal : string -> applicationResponse + error.

#[local] Abbreviation exec := (Checker.exec Parse Format Unmarshal).
#[local] Abbreviation step := (Checker.step Parse Format Unmarshal).
#[local] Abbreviation run := (Checker.run Parse Format Unmarshal).

(** One step of a goroutine keeps the invariant and does not panic. *)
Lemma exec_good pc env sh pc' sh' started obs :
  good sh ->
  exec pc env sh = Some (pc', sh', started, obs) ->
  good sh' /\ panicked pc' = false
  /\ Forall (fun p => panicked p = false) started.
Proof.
  intros G E. destruct pc; cbn [Checker.exec] in E.
  - (* AtStart *)
    destruct (startLocked sh) as [sh1|] eqn:S; injection E as <- <- <- <-.
    + split; [eapply startLocked_good; eauto|]. split; [reflexivity|constructor].
    + split; [exact G|]. split; [reflexivity|constructor].
  - (* AtStop *)
    unfold stopLocked in E.
    destruct (running (obj sh)) eqn:R; cbn [negb] in E.
    + destruct (G R) as (i & ch & Hs & Hl & Hc).
      rewrite Hs in E. pose proof (close_open _ _ _ Hl Hc) as NC.
      destruct (Chan.close (chans sh) (Some i)) as [h|]; [|congruence].
      destruct (if checking (obj sh) then doneCh (obj sh) else None);
        injection E as <- <- <- <-;
        (split; [intros Run; discriminate Run|]);
        (split; [reflexivity|constructor]).
    + injection E as <- <- <- <-.
      split; [exact G|]. split; [reflexivity|constructor].
  - (* AtUpdateConfig *)
    injection E as <- <- <- <-.
    split; [|split; [reflexivity|constructor]].
    apply (good_keeps sh); auto using keeps_refl.
  - (* AtCheck *)
    injection E as <- <- <- <-.
    split; [|split; [reflexivity|constructor]].
    apply (good_keeps sh); auto using keeps_refl.
  - (* AtFetch *)
    unfold Checker.checkFetched in E.
    destruct (checkFetch _ _ _ _ _ _ _) as [ts info].
    injection E as <- <- <- <-.
    split; [|split; [reflexivity|constructor]].
    apply (good_keeps sh); auto using keeps_refl.
  - (* AtStore *)
    injection E as <- <- <- <-.
    split; [|split; [reflexivity|constructor]].
    apply (good_keeps sh); auto using keeps_refl.
  - (* AtDefer *)
    injection E as <- <- <- <-.
    split; [|split; [reflexivity|constructor]].
    apply (good_keeps sh); auto using keeps_refl.
  - (* AtSignal *)
    injection E as <- <- <- <-.
    split; [|split; [destruct k; reflexivity|constructor]].
    apply (good_keeps sh); auto. apply keeps_trySend.
  - (* AtGo *)
    injection E as <- <- <- <-.
    split; [exact G|]. split; [reflexivity|repeat constructor].
  - (* AtSelect *)
    injection E as <- <- <- <-.
    split; [exact G|]. split; [reflexivity|constructor].
  - (* InSelect *)
    destruct (ticked && _); [|destruct (Chan.isClosed _ _); [|discriminate]];
      injection E as <- <- <- <-;
      (split; [exact G|]); (split; [reflexivity|constructor]).
  - (* AtReceive *)
    destruct (Chan.isClosed _ _); injection E as <- <- <- <-.
    + split; [exact G|]. split; [reflexivity|constructor].
    + split; [|split; [reflexivity|constructor]].
      apply (good_keeps sh); auto. apply keeps_park.
  - (* Parked *)
    destruct (Chan.resume (chans sh) done) as [h|] eqn:R; [|discriminate].
    injection E as <- <- <- <-.
    split; [|split; [reflexivity|constructor]].
    apply (good_keeps sh); auto. eapply keeps_resume; eauto.
  - discriminate.
  - discriminate.
Qed.

#[local] Abbreviation safe :=
  (fun w : World => good (Sched.shared w)
                    /\ Forall (fun p => panicked p = false) (Sched.threads w)).

Lemma step_safe a w w' : safe w -> step a w = Some w' -> safe w'.
Proof.
  intros [G T] E. destruct a as [m|tid env|tid];
    cbn [Checker.step Sched.step] in E; unfold Checker.step, Sched.step in E.
  - injection E as <-. cbn. split; [exact G|].
    apply Forall_app. split; [exact T|]. constructor; [|constructor].
    destruct m; reflexivity.
  - destruct (Sched.threads w !! tid) as [pc|] eqn:L; [|discriminate].
    destruct (exec pc env (Sched.shared w)) as [[[[pc' sh'] started] obs]|] eqn:X;
      [|discriminate].
    injection E as <-. cbn.
    destruct (exec_good _ _ _ _ _ _ _ G X) as (G' & P & F).
    split; [exact G'|]. apply Forall_app. split; [|exact F].
    apply Forall_insert; assumption.
  - destruct (Sched.threads w !! tid) as [pc|] eqn:L; [|discriminate].
    destruct (tick pc) as [pc'|] eqn:K; [|discriminate].
    injection E as <-. cbn. split; [exact G|].
    apply Forall_insert; [assumption|].
    destruct pc; try discriminate. injection K as <-. reflexivity.
Qed.

Lemma run_safe acts : forall w w', safe w -> run acts w = Some w' -> safe w'.
Proof.
  induction acts as [|a acts IH]; intros w w' S E;
    unfold Checker.run in E; cbn [Sched.run] in E.
  - injection E as <-. exact S.
  - destruct (Sched.step _ _ _ _ _ _ _ _ a w) as [w1|] eqn:X; [|discriminate].
    eapply IH; [|exact E]. eapply step_safe; eauto.
Qed.

(** X19. In the revision that recreates its channels in [Start], no
    schedule makes a goroutine panic: whatever methods are called, from
    however many goroutines and however their steps interleave, every
    state reached from a new checker has its goroutines free of panic, and
    whenever [running] is set the channel [stopCh] exists and is open, so
    that the [close] of [Stop] succeeds. *)
Theorem no_panic_under_any_schedule (c : option GraphConfig)
    (acts : list Action) (w : World) :
  run acts (start c) = Some w ->
  Forall (fun pc => panicked pc = false) (Sched.threads w)
  /\ (running (obj (Sched.shared w)) = true ->
      exists i ch,
        stopCh (obj (Sched.shared w)) = Some i
        /\ chans (Sched.shared w) !! i = Some ch
        /\ Chan.closed ch = false).
Proof.
  intros E.
  assert (S0 : safe (start c)).
  { split; [intros R; discriminate R|constructor]. }
  destruct (run_safe acts _ _ S0 E) as [G T].
  split; [exact T|exact G].
Qed.

End StandardLibrary.

(** The schedule in which two checks overlap and [Stop] is released by the
    first to end. *)
Lemma no_panic_under_any_schedule_witness :
  exists w,
    Checker.run sampleParse sampleFormat sampleUnmarshal
      Schedules.New.overlappingChecks (start (Some sampleConfig)) = Some w
    /\ Forall (fun pc => panicked pc = false) (Sched.threads w).
Proof.
  destruct (Checker.run sampleParse sampleFormat sampleUnmarshal
              Schedules.New.overlappingChecks (start (Some sampleConfig)))
    as [w|] eqn:E; [|vm_compute in E; discriminate E].
  exists w. split; [reflexivity|].
  exact (proj1 (no_panic_under_any_schedule sampleParse sampleFormat
                  sampleUnmarshal (Some sampleConfig)
                  Schedules.New.overlappingChecks w E)).
Defined.

End CheckerInvariantFacts.

(** ** The checker of graph_expiry.go: one call, and any schedule *)

Module GraphExpiryCallFacts.

Import Graph Expiry GraphExpiry GraphExpiryCalls Cached Samples.

Section StandardLibrary.

Variable Parse : string -> option Time.
Variable Format : Time -> string.
Variable Unmarshal : string -> applicationResponse + error.

#[local] Abbreviation exec := (GraphExpiry.exec Parse Format Unmarshal).
#[local] Abbreviation run := (GraphExpiry.run Parse Format Unmarshal).
#[local] Abbreviation check := (GraphExpiryCalls.check Parse Format Unmarshal).
#[local] Abbreviation call := (GraphExpiryCalls.call Parse Format Unmarshal).
#[local] Abbreviation checkFetch := (Expiry.checkFetch Parse Format Unmarshal).
#[local] Abbreviation queryExpiry := (Expiry.queryExpiry Parse Format Unmarshal).

(** The guard of [check] makes the creation of the token source succeed. *)
Lemma checkFetch_configured g now o ts :
  notConfigured (Some g) = false ->
  checkFetch (Some g) now o ts
  = (Some (match ts with Some t => t | None => credentialsOf g end),
     toCache (queryExpiry now o)).
Proof.
  intros N. unfold Expiry.checkFetch. rewrite N.
  unfold fetchExpiryInfo, GetTokenSource. cbn [notConfigured] in N. rewrite N.
  destruct ts; reflexivity.
Qed.

Lemma checkFetch_notConfigured c now o ts :
  notConfigured c = true ->
  checkFetch c now o ts = (ts, errorInfo "Graph API not configured").
Proof.
  intros N. unfold Expiry.checkFetch. destruct c as [g|]; [|reflexivity].
  now rewrite N.
Qed.

(** The state after [check], field by field. *)
Lemma check_fields env sh :
  let sh' := check env sh in
  let c := cfg (obj sh) in
  cfg (obj sh') = c
  /\ running (obj sh') = running (obj sh)
  /\ stopCh (obj sh') = stopCh (obj sh)
  /\ chans sh' = chans sh
  /\ lastCheck (obj sh') = nowStore env
  /\ tokenSource (obj sh')
     = fst (checkFetch c (nowFetch env) (outcome env) (tokenSource (obj sh)))
  /\ cachedInfo (obj sh')
     = snd (checkFetch c (nowFetch env) (outcome env) (tokenSource (obj sh))).
Proof.
  unfold GraphExpiryCalls.check, GraphExpiry.checkFetched, checkStore.
  destruct (checkFetch (cfg (obj sh)) (nowFetch env) (outcome env)
              (tokenSource (obj sh))) as [ts info].
  cbn. repeat split.
Qed.

(** X15. What a check of the checker of graph_expiry.go does to the state.
    It rewrites the cached information and the time stamp as a whole and
    leaves the configuration, the running flag and the channels alone. With
    no configuration, or one that lacks the tenant, the client id or the
    secret, it caches "Graph API not configured" and does not touch the
    token source. Otherwise it keeps the token source it finds, or makes
    the one of the configuration when there is none, which cannot fail
    there, and caches the answer of the query: the error "create token
    source" never reaches the cache. *)
Theorem check_effect (env : Env) (sh : Shared) :
  let sh' := check env sh in
  cfg (obj sh') = cfg (obj sh)
  /\ running (obj sh') = running (obj sh)
  /\ stopCh (obj sh') = stopCh (obj sh)
  /\ chans sh' = chans sh
  /\ lastCheck (obj sh') = nowStore env
  /\ (notConfigured (cfg (obj sh)) = true ->
      GetInfo sh' = errorInfo "Graph API not configured"
      /\ tokenSource (obj sh') = tokenSource (obj sh))
  /\ (forall g,
        cfg (obj sh) = Some g -> notConfigured (Some g) = false ->
        GetInfo sh' = toCache (queryExpiry (nowFetch env) (outcome env))
        /\ tokenSource (obj sh')
           = Some (match tokenSource (obj sh) with
                   | Some ts => ts
                   | None => credentialsOf g
                   end)).
Proof.
  intros sh'.
  destruct (check_fields env sh) as (A & B & C & D & E & F & G).
  fold sh' in A, B, C, D, E, F, G. unfold GetInfo.
  repeat (split; [assumption|]). split.
  - intros N. rewrite F, G, (checkFetch_notConfigured _ _ _ _ N). split; reflexivity.
  - intros g Hg N. rewrite F, G, Hg, (checkFetch_configured _ _ _ _ N).
    split; reflexivity.
Qed.

(** [UpdateConfig] called alone: the locked section, then [check]. *)
Lemma call_UpdateConfig newCfg env sh :
  call (UpdateConfig newCfg) env sh
  = (Returned, check env (updateLocked newCfg sh), [],
     [Began; Stored (GetInfo (check env (updateLocked newCfg sh)))]).
Proof.
  unfold GraphExpiryCalls.call, GraphExpiryCalls.runThread,
    GraphExpiryCalls.check.
  cbn [Sched.runThread GraphExpiry.exec entry].
  cbn [updateLocked obj cfg].
  destruct (GraphExpiry.checkFetched Parse Format Unmarshal newCfg env
              (updateLocked newCfg sh)) as [sh1 info] eqn:E.
  cbn [Sched.runThread GraphExpiry.exec after app].
  reflexivity.
Qed.

(** X16. [UpdateConfig] of the checker of graph_expiry.go, called while
    nothing else runs, returns after one check whose result it stores:
    the new configuration is in place, the token source of the old one is
    gone (the new one's is in its place when the new configuration is
    complete, none otherwise), and the cached information is the outcome
    of that check alone, whatever was cached before. The running flag and
    the stop channel are as they were: the call neither starts nor stops
    the background loop, and it checks and stores also on a stopped
    checker. *)
Theorem UpdateConfig_effect (newCfg : option GraphConfig) (env : Env)
    (sh : Shared) :
  let r := call (UpdateConfig newCfg) env sh in
  let sh' := snd (fst (fst r)) in
  fst (fst (fst r)) = Returned
  /\ snd (fst r) = []
  /\ snd r = [Began; Stored (GetInfo sh')]
  /\ cfg (obj sh') = newCfg
  /\ running (obj sh') = running (obj sh)
  /\ stopCh (obj sh') = stopCh (obj sh)
  /\ chans sh' = chans sh
  /\ lastCheck (obj sh') = nowStore env
  /\ tokenSource (obj sh')
     = (if notConfigured newCfg then None else option_map credentialsOf newCfg)
  /\ GetInfo sh'
     = (if notConfigured newCfg then errorInfo "Graph API not configured"
        else toCache (queryExpiry (nowFetch env) (outcome env))).
Proof.
  intros r sh'. subst sh' r. rewrite call_UpdateConfig. cbn [fst snd].
  destruct (check_fields env (updateLocked newCfg sh))
    as (A & B & C & D & E & F & G).
  cbv zeta in *. cbn [updateLocked obj chans cfg running stopCh tokenSource] in *.
  unfold GetInfo.
  repeat (split; [assumption || reflexivity|]).
  rewrite F, G.
  destruct (notConfigured newCfg) eqn:N.
  - rewrite (checkFetch_notConfigured _ _ _ _ N). split; reflexivity.
  - destruct newCfg as [g|]; [|discriminate N].
    rewrite (checkFetch_configured _ _ _ _ N). split; reflexivity.
Qed.

(** *** The cache under any schedule *)

Lemma errorText_Wrapf msg c err : errorText (Wrapf (String c msg) err) <> "".
Proof. simpl. discriminate. Qed.

Lemma wellFormed_errorInfo msg : msg <> "" -> wellFormed (errorInfo msg).
Proof. intros N. right. left. repeat split. exact N. Qed.

Lemma daysLeftOf_nonneg until : 0 <= daysLeftOf until.
Proof.
  unfold daysLeftOf. cbv zeta.
  destruct (Z.ltb_spec
              (Float64.toInt (Float64.div (Hours until) (Float64.ofInt 24))) 0);
    lia.
Qed.

Lemma wellFormed_expiryOf now resp : wellFormed (expiryOf Parse Format now resp).
Proof.
  unfold expiryOf. cbv zeta.
  destruct (IsZero _).
  - apply wellFormed_errorInfo. discriminate.
  - right. right. unfold expiryInfo. cbn.
    split; [reflexivity|]. split; [apply daysLeftOf_nonneg|reflexivity].
Qed.

Lemma wellFormed_query now o : wellFormed (toCache (queryExpiry now o)).
Proof.
  unfold Expiry.queryExpiry.
  destruct o as [err|err|err|code body]; cbn [toCache];
    try (apply wellFormed_errorInfo; apply errorText_Wrapf).
  destruct (negb (code =? 200)); cbn [toCache].
  - apply wellFormed_errorInfo. simpl. discriminate.
  - destruct (Unmarshal body) as [resp|err]; cbn [toCache].
    + apply wellFormed_expiryOf.
    + apply wellFormed_errorInfo. apply errorText_Wrapf.
Qed.

Lemma wellFormed_checkFetch c now o ts : wellFormed (snd (checkFetch c now o ts)).
Proof.
  destruct (notConfigured c) eqn:N.
  - rewrite (checkFetch_notConfigured _ _ _ _ N).
    apply wellFormed_errorInfo. discriminate.
  - destruct c as [g|]; [|discriminate N].
    rewrite (checkFetch_configured _ _ _ _ N). apply wellFormed_query.
Qed.

#[local] Abbreviation sound :=
  (fun w : World => wellFormed (GetInfo (Sched.shared w))
                    /\ Forall carries (Sched.threads w)).

Lemma exec_sound pc env sh pc' sh' started obs :
  wellFormed (GetInfo sh) -> carries pc ->
  exec pc env sh = Some (pc', sh', started, obs) ->
  wellFormed (GetInfo sh') /\ carries pc' /\ Forall carries started.
Proof.
  intros W C E. destruct pc; cbn [GraphExpiry.exec] in E.
  - destruct (startLocked sh) as [sh1|] eqn:S; injection E as <- <- <- <-.
    + unfold startLocked in S. destruct (running (obj sh)); [discriminate|].
      injection S as <-. repeat split; [exact W|constructor].
    + repeat split; [exact W|constructor].
  - unfold stopLocked in E. destruct (running (obj sh)).
    + destruct (Chan.close _ _); injection E as <- <- <- <-;
        repeat split; try exact W; constructor.
    + injection E as <- <- <- <-. repeat split; [exact W|constructor].
  - injection E as <- <- <- <-. repeat split; [exact W|constructor].
  - injection E as <- <- <- <-. repeat split; [exact W|constructor].
  - unfold GraphExpiry.checkFetched in E.
    pose proof (wellFormed_checkFetch cfg0 (nowFetch env) (outcome env)
                  (tokenSource (obj sh))) as F.
    destruct (checkFetch cfg0 (nowFetch env) (outcome env)
                (tokenSource (obj sh))) as [ts info].
    injection E as <- <- <- <-. split; [exact W|]. split; [exact F|constructor].
  - injection E as <- <- <- <-. split; [exact C|].
    split; [destruct k; exact I|constructor].
  - injection E as <- <- <- <-. split; [exact W|].
    split; [exact I|repeat constructor].
  - injection E as <- <- <- <-. repeat split; [exact W|constructor].
  - destruct (ticked && _); [|destruct (Chan.isClosed _ _); [|discriminate]];
      injection E as <- <- <- <-; repeat split; try exact W; constructor.
  - discriminate.
  - discriminate.
Qed.

Lemma run_sound acts : forall w w', sound w -> run acts w = Some w' -> sound w'.
Proof.
  induction acts as [|a acts IH]; intros w w' S E;
    unfold GraphExpiry.run in E; cbn [Sched.run] in E.
  - injection E as <-. exact S.
  - destruct (Sched.step _ _ _ _ _ _ _ _ a w) as [w1|] eqn:X; [|discriminate].
    eapply IH; [|exact E]. clear IH E. destruct S as [W T].
    destruct a as [m|tid env|tid]; unfold Sched.step in X.
    + injection X as <-. cbn. split; [exact W|].
      apply Forall_app. split; [exact T|]. constructor; [|constructor].
      destruct m; exact I.
    + destruct (Sched.threads w !! tid) as [pc|] eqn:L; [|discriminate].
      destruct (exec pc env (Sched.shared w))
        as [[[[pc' sh'] started] obs]|] eqn:Y; [|discriminate].
      injection X as <-. cbn.
      assert (C : carries pc).
      { eapply Forall_lookup_1; eauto. }
      destruct (exec_sound _ _ _ _ _ _ _ W C Y) as (W' & C' & F).
      split; [exact W'|]. apply Forall_app. split; [|exact F].
      apply Forall_insert; assumption.
    + destruct (Sched.threads w !! tid) as [pc|] eqn:L; [|discriminate].
      destruct (tick pc) as [pc'|] eqn:K; [|discriminate].
      injection X as <-. cbn. split; [exact W|].
      apply Forall_insert; [assumption|].
      destruct pc; try discriminate. injection K as <-. exact I.
Qed.

(** X17. The cache is never half-written. Whatever methods of the checker
    of graph_expiry.go are called, from however many goroutines and
    however their steps interleave, [GetInfo] returns the zero value (no
    check has stored yet), or an error message with the other three
    fields zero, or no error with [DaysLeft] not negative and
    [ExpiresSoon] set exactly when [DaysLeft] is at most 30. *)
Theorem cache_well_formed (c : option GraphConfig) (acts : list Action)
    (w : World) :
  run acts (start c) = Some w ->
  let i := GetInfo (Sched.shared w) in
  i = noInfo
  \/ (Error i <> "" /\ ExpiresAt i = "" /\ ExpiresSoon i = false
      /\ DaysLeft i = 0)
  \/ (Error i = "" /\ 0 <= DaysLeft i
      /\ ExpiresSoon i = (DaysLeft i <=? expiryWarningDays)).
Proof.
  intros E.
  assert (S0 : sound (start c)) by (split; [now left|constructor]).
  exact (proj1 (run_sound acts _ _ S0 E)).
Qed.

End StandardLibrary.

(** [Stop] is called while the loop is inside a check, which stores
    afterwards. *)
Lemma cache_well_formed_witness :
  exists w,
    GraphExpiry.run sampleParse sampleFormat sampleUnmarshal
      Schedules.Old.stopDuringCheck (start (Some sampleConfig)) = Some w
    /\ (GetInfo (Sched.shared w) = noInfo
        \/ (Error (GetInfo (Sched.shared w)) <> ""
            /\ ExpiresAt (GetInfo (Sched.shared w)) = ""
            /\ ExpiresSoon (GetInfo (Sched.shared w)) = false
            /\ DaysLeft (GetInfo (Sched.shared w)) = 0)
        \/ (Error (GetInfo (Sched.shared w)) = ""
            /\ 0 <= DaysLeft (GetInfo (Sched.shared w))
            /\ ExpiresSoon (GetInfo (Sched.shared w))
               = (DaysLeft (GetInfo (Sched.shared w)) <=? expiryWarningDays))).
Proof.
  destruct (GraphExpiry.run sampleParse sampleFormat sampleUnmarshal
              Schedules.Old.stopDuringCheck (start (Some sampleConfig)))
    as [w|] eqn:E; [|vm_compute in E; discriminate E].
  exists w. split; [reflexivity|].
  exact (cache_well_formed sampleParse sampleFormat sampleUnmarshal
           (Some sampleConfig) Schedules.Old.stopDuringCheck w E).
Defined.

End GraphExpiryCallFacts.

(** ** The checker of graph_expiry.go after its first [Stop] *)

Module StopFinalFacts.

Import Graph Expiry GraphExpiry StopTrace Samples.

Lemma stopReturned_app a b :
  stopReturned (a ++ b) = stopReturned a || stopReturned b.
Proof. unfold stopReturned. apply existsb_app. Qed.

Lemma stopReturned_map tid obs :
  stopReturned (map (pair tid) obs) = existsb isStopReturned obs.
Proof. unfold stopReturned. induction obs; simpl; congruence. Qed.

Section StandardLibrary.

Variable Parse : string -> option Time.
Variable Format : Time -> string.
Variable Unmarshal : string -> applicationResponse + error.

#[local] Abbreviation exec := (GraphExpiry.exec Parse Format Unmarshal).
#[local] Abbreviation run := (GraphExpiry.run Parse Format Unmarshal).

(** The one channel of the program is [stopCh]; a step closes it exactly
    when it is the [Stop] that returns, and nothing opens it again. *)
Lemma exec_channel pc env sh ch pc' sh' started obs :
  stopCh (obj sh) = Some 0%nat -> chans sh = [ch] ->
  exec pc env sh = Some (pc', sh', started, obs) ->
  stopCh (obj sh') = Some 0%nat
  /\ exists ch', chans sh' = [ch']
                 /\ (Chan.closed ch = true -> Chan.closed ch' = true)
                 /\ (existsb isStopReturned obs = true -> Chan.closed ch' = true).
Proof.
  intros S C E.
  assert (Same : forall o, existsb isStopReturned o = false ->
                   stopCh (obj sh) = Some 0%nat
                   /\ exists ch', chans sh = [ch']
                        /\ (Chan.closed ch = true -> Chan.closed ch' = true)
                        /\ (existsb isStopReturned o = true
                            -> Chan.closed ch' = true)).
  { intros o H. split; [exact S|]. exists ch. rewrite H.
    split; [exact C|]. split; [auto|discriminate]. }
  destruct pc; cbn [GraphExpiry.exec] in E.
  - destruct (startLocked sh) as [sh1|] eqn:SL; injection E as <- <- <- <-.
    + unfold startLocked in SL. destruct (running (obj sh)); [discriminate|].
      injection SL as <-. cbn. now apply (Same []).
    + now apply (Same []).
  - unfold stopLocked in E. destruct (running (obj sh)).
    + rewrite S, C in E. unfold Chan.close in E. cbn in E.
      destruct (Chan.closed ch) eqn:CC; injection E as <- <- <- <-.
      * apply (Same []). reflexivity.
      * cbn. split; [reflexivity|]. eexists. split; [reflexivity|].
        split; reflexivity.
    + injection E as <- <- <- <-. now apply (Same [StopNoop]).
  - injection E as <- <- <- <-. cbn. now apply (Same []).
  - injection E as <- <- <- <-. now apply (Same [Began]).
  - unfold GraphExpiry.checkFetched in E.
    destruct (checkFetch _ _ _ _ _ _ _) as [ts info].
    injection E as <- <- <- <-. cbn. now apply (Same []).
  - injection E as <- <- <- <-. cbn. now apply (Same [Stored info]).
  - injection E as <- <- <- <-. now apply (Same []).
  - injection E as <- <- <- <-. now apply (Same []).
  - destruct (ticked && _); [|destruct (Chan.isClosed _ _); [|discriminate]];
      injection E as <- <- <- <-; now apply (Same []).
  - discriminate.
  - discriminate.
Qed.

#[local] Abbreviation final :=
  (fun w : World =>
     stopCh (obj (Sched.shared w)) = Some 0%nat
     /\ exists ch, chans (Sched.shared w) = [ch]
                   /\ (stopReturned (Sched.trace w) = true
                       -> Chan.closed ch = true)).

Lemma run_final acts : forall w w', final w -> run acts w = Some w' -> final w'.
Proof.
  induction acts as [|a acts IH]; intros w w' F E;
    unfold GraphExpiry.run in E; cbn [Sched.run] in E.
  - injection E as <-. exact F.
  - destruct (Sched.step _ _ _ _ _ _ _ _ a w) as [w1|] eqn:X; [|discriminate].
    eapply IH; [|exact E]. clear IH E. destruct F as (S & ch & C & T).
    destruct a as [m|tid env|tid]; unfold Sched.step in X.
    + injection X as <-. cbn. eauto.
    + destruct (Sched.threads w !! tid) as [pc|] eqn:L; [|discriminate].
      destruct (exec pc env (Sched.shared w))
        as [[[[pc' sh'] started] obs]|] eqn:Y; [|discriminate].
      injection X as <-. cbn.
      destruct (exec_channel _ _ _ _ _ _ _ _ S C Y) as (S' & ch' & C' & K1 & K2).
      split; [exact S'|]. exists ch'. split; [exact C'|].
      rewrite stopReturned_app, stopReturned_map, orb_true_iff.
      intros [H|H]; auto.
    + destruct (Sched.threads w !! tid) as [pc|] eqn:L; [|discriminate].
      destruct (tick pc) as [pc'|]; [|discriminate].
      injection X as <-. cbn. eauto.
Qed.

(** X18. In graph_expiry.go the first [Stop] that takes effect is final.
    Under any schedule from a new checker, once some [Stop] has found the
    checker running and returned, the stop channel is closed in every
    later state: a background loop that reaches its [select] returns at
    once, whichever [Start] started it, and a [Stop] that finds [running]
    set again panics on the closed channel. *)
Theorem first_Stop_is_final (c : option GraphConfig) (acts : list Action)
    (w : World) :
  run acts (start c) = Some w ->
  stopReturned (Sched.trace w) = true ->
  let sh := Sched.shared w in
  Chan.isClosed (chans sh) (stopCh (obj sh)) = true
  /\ (forall env,
        exec (InSelect (stopCh (obj sh)) false) env sh
        = Some (Returned, sh, [], []))
  /\ (running (obj sh) = true ->
      forall env,
        exec AtStop env sh
        = Some (Panicked "close of closed channel", sh, [], [])).
Proof.
  intros E T sh.
  assert (F0 : final (start c)).
  { split; [reflexivity|]. exists Chan.fresh. split; [reflexivity|].
    discriminate. }
  destruct (run_final acts _ _ F0 E) as (S & ch & C & K).
  specialize (K T). subst sh.
  assert (I : Chan.isClosed (chans (Sched.shared w))
                (stopCh (obj (Sched.shared w))) = true).
  { rewrite S, C. exact K. }
  split; [exact I|]. split.
  - intros env. cbn [GraphExpiry.exec andb]. now rewrite I.
  - intros R env. cbn [GraphExpiry.exec]. unfold stopLocked.
    rewrite R, S, C. unfold Chan.close. cbn. now rewrite K.
Qed.

End StandardLibrary.

(** [Start], [Stop], [Start] again, with the loop of the second [Start]. *)
Lemma first_Stop_is_final_witness :
  exists w,
    GraphExpiry.run sampleParse sampleFormat sampleUnmarshal
      Schedules.Old.restarted (start (Some sampleConfig)) = Some w
    /\ stopReturned (Sched.trace w) = true
    /\ Chan.isClosed (chans (Sched.shared w)) (stopCh (obj (Sched.shared w)))
       = true.
Proof.
  destruct (GraphExpiry.run sampleParse sampleFormat sampleUnmarshal
              Schedules.Old.restarted (start (Some sampleConfig)))
    as [w|] eqn:E; [|vm_compute in E; discriminate E].
  exists w. split; [reflexivity|].
  assert (T : stopReturned (Sched.trace w) = true).
  { vm_compute in E. injection E as <-. reflexivity. }
  split; [exact T|].
  exact (proj1 (first_Stop_is_final sampleParse sampleFormat sampleUnmarshal
                  (Some sampleConfig) Schedules.Old.restarted w E T)).
Defined.

End StopFinalFacts.

(** ** The life cycle of the checker with the completion signal, at a
    sample *)

Module LifeCycleFacts.

Import Graph Expiry Checker Samples.

(** A new checker, two cycles behind it. *)
Lemma start_stop_cycles_witness :
  running (obj (initial (Some sampleConfig))) = false
  /\ running
       (obj (Checker.cycles sampleParse sampleFormat sampleUnmarshal 2
               Schedules.New.env (initial (Some sampleConfig)))) = false
  /\ Checker.call sampleParse sampleFormat sampleUnmarshal Stop
       Schedules.New.env
       (Checker.cycles sampleParse sampleFormat sampleUnmarshal 2
          Schedules.New.env (initial (Some sampleConfig)))
     = (Returned,
        Checker.cycles sampleParse sampleFormat sampleUnmarshal 2
          Schedules.New.env (initial (Some sampleConfig)),
        [], [StopNoop]).
Proof.
  split; [reflexivity|].
  destruct (CheckerFacts.start_stop_cycles sampleParse sampleFormat
              sampleUnmarshal 2 Schedules.New.env
              (initial (Some sampleConfig)) eq_refl) as (A & B & _).
  split; [exact A|exact B].
Defined.

End LifeCycleFacts.
